(** * Collection rename: a shallow embedding of
    [src/mongo/db/catalog/rename_collection.cpp]

    The file follows the source function by function.  The operation context,
    the catalog, the lock manager, the replication coordinator, the operation
    observer and the storage engine are collaborators declared outside the
    source file; they are represented by one explicit state record, [OpCtx],
    and every function of the source becomes a computation over it. *)

From Stdlib Require Import ZArith NArith List String Ascii Bool Lia.
From stdpp Require Import base decidable option strings.
Import ListNotations.

Local Open Scope string_scope.
Local Open Scope list_scope.
Local Open Scope Z_scope.

(** ** Namespaces *)

(** A [NamespaceString] is the pair of a database name and a collection
    name; [ns] is the dotted full name. *)
Record NamespaceString := mkNss { db : string; coll : string }.

#[global] Instance NamespaceString_eq_dec : EqDecision NamespaceString.
Proof. solve_decision. Defined.

Definition ns (n : NamespaceString) : string := db n +:+ "." +:+ coll n.

(** Modelled from the spec: [NamespaceString(StringData)] is declared in
    namespace_string.h; the database is the text before the first dot, the
    collection the text after it. *)
Definition parseNss (full : string) : NamespaceString :=
  match String.index 0 "." full with
  | Some i => mkNss (String.substring 0 i full)
                    (String.substring (S i) (String.length full - S i) full)
  | None => mkNss full ""
  end.

(** Modelled from the spec: the namespace predicates [isSystemViews],
    [isDropPending] and [isOplog] of the data model (namespace_string.h). *)
Definition isSystemDotViews (n : NamespaceString) : bool :=
  bool_decide (coll n = "system.views").

Definition isDropPendingNamespace (n : NamespaceString) : bool :=
  String.prefix "system.drop." (coll n).

Definition isOplog (n : NamespaceString) : bool :=
  bool_decide (db n = "local") && String.prefix "oplog." (coll n).

(** ** Identities, log positions, statuses *)

Definition UUID := N.
Definition RecordId := Z.

Record OpTime := mkOpTime { timestamp : N; term : Z }.

#[global] Instance OpTime_eq_dec : EqDecision OpTime.
Proof. solve_decision. Defined.

Definition nullOpTime : OpTime := mkOpTime 0 (-1).
Definition isNull (t : OpTime) : bool := (timestamp t =? 0)%N.

Inductive ErrorCode :=
| NotMaster | NamespaceNotFound | NamespaceExists | CommandNotSupportedOnView
| IllegalOperation | InvalidNamespace | CommandFailed | BadValue | TypeMismatch
| BackgroundOperationInProgressForNamespace | StaleDbVersion | InvalidUUID
| Interrupted
| OtherError (n : nat).

#[global] Instance ErrorCode_eq_dec : EqDecision ErrorCode.
Proof. solve_decision. Defined.

Inductive Status := OK | Error (c : ErrorCode).

#[global] Instance Status_eq_dec : EqDecision Status.
Proof. solve_decision. Defined.

Definition isOK (st : Status) : bool :=
  match st with OK => true | Error _ => false end.

(** ** Documents, records, indexes, collections *)

Inductive BSONElement :=
| EOO | BString (s : string) | BBool (b : bool) | BNumber (z : Z)
| BNull | BBinData (parsed : option UUID) | BOther.

Definition BSONObj := list (string * BSONElement).

Record Record_ := mkRecord { id : RecordId; data : BSONObj }.

Record IndexDescriptor := mkDescriptor { isIdIndex : bool; infoObj : BSONObj }.

Record IndexCatalogEntry := mkEntry { descriptor : IndexDescriptor; isReady : bool }.

Record CollectionOptions := mkOptions {
  opt_uuid : option UUID;
  opt_temp : bool;
  opt_rest : BSONObj
}.

(** A [Collection] object.  [addr] stands for the address of the object:
    two [Collection*] of the source are equal exactly when their [addr]
    agree.  [c_ns] is what [Collection::ns()] returns. *)
Record Collection := mkCollection {
  addr : nat;
  c_ns : NamespaceString;
  uuid : UUID;
  collOptions : CollectionOptions;
  records : list Record_;
  indexCatalog : list IndexCatalogEntry
}.

Definition numRecords (c : Collection) : nat := length (records c).

Record RenameCollectionOptions := mkRenameOptions { dropTarget : bool; stayTemp : bool }.

Definition defaultRenameOptions : RenameCollectionOptions := mkRenameOptions false false.

(** ** Locks *)

Inductive LockMode := MODE_IS | MODE_IX | MODE_S | MODE_X.

#[global] Instance LockMode_eq_dec : EqDecision LockMode.
Proof. solve_decision. Defined.

Inductive Resource := ResDatabase (d : string) | ResCollection (n : NamespaceString).

#[global] Instance Resource_eq_dec : EqDecision Resource.
Proof. solve_decision. Defined.

(** [covers held wanted]: a lock held in mode [held] also counts as held in
    mode [wanted]. *)
Definition covers (held wanted : LockMode) : bool :=
  match held, wanted with
  | MODE_X, _ => true
  | MODE_S, (MODE_S | MODE_IS) => true
  | MODE_IX, (MODE_IX | MODE_IS) => true
  | MODE_IS, MODE_IS => true
  | _, _ => false
  end.

(** ** The trace of calls made on the collaborators *)

Inductive Event :=
| EvLockDB (d : string) (m : LockMode)
| EvLockCollection (n : NamespaceString) (m : LockMode)
| EvOnRenameCollection (src tgt : NamespaceString) (u : UUID)
                       (dropped : option UUID) (numRec : nat) (stay : bool)
| EvPreRenameCollection (src tgt : NamespaceString) (u : UUID)
                        (dropped : UUID) (numRec : nat) (stay : bool)
| EvPostRenameCollection (src tgt : NamespaceString) (u : UUID)
                         (dropped : UUID) (stay : bool)
| EvDbRenameCollection (src tgt : NamespaceString) (stay : bool)
| EvDbDropCollection (n : NamespaceString) (t : OpTime) (replicated : bool)
| EvDropCollectionForApplyOps (n : NamespaceString) (t : OpTime)
| EvCreateCollection (n : NamespaceString) (u : UUID)
| EvCreateIndexes (u : UUID) (specs : list BSONObj)
| EvCursorNext
| EvCursorSeekExact (r : RecordId)
| EvCursorSave
| EvCursorRestore
| EvInsertDocument (target : nat) (doc : BSONObj)
| EvCommit.

(** ** Cursors *)

(** A forward cursor over a record store: [cur_store] is the store it reads,
    [cur_rest] the records [next] has yet to return, [cur_saved] whether the
    cursor is between [save] and [restore]. *)
Record Cursor := mkCursor {
  cur_store : list Record_;
  cur_rest : list Record_;
  cur_saved : bool
}.

Inductive InsertOutcome := InsertOK | InsertWriteConflict | InsertError (c : ErrorCode).

(** Modelled from the spec: [RecordData] (record_data.h), the type of
    [record->data], is not in the source file.  The data of a record either
    views memory of the storage engine ([Unowned], as a cursor returns it),
    or owns a buffer of its own ([Owned], after [makeOwned]), or has handed
    that buffer over ([Released], after [releaseToBson] on owned data). *)
Inductive BufferState := Unowned | Owned | Released.

#[global] Instance BufferState_eq_dec : EqDecision BufferState.
Proof. solve_decision. Defined.

Inductive ReplicationMode := modeNone | modeReplSet.

#[global] Instance ReplicationMode_eq_dec : EqDecision ReplicationMode.
Proof. solve_decision. Defined.

(** ** The operation context *)

Record Database := mkDatabase {
  db_name : string;
  db_dropPending : bool;
  db_views : list string
}.

(** The answers of the collaborators that a rename only reads.
    [isOplogDisabledFor] takes the replicated-writes flag of the operation
    context and a namespace; [observerPreRenameOpTime] likewise;
    [interruptPending] says whether the operation has been killed;
    [releasedBufferRead doc] is what a read through a record finds once the
    buffer that held [doc] has been handed over and its new owner is gone. *)
Record Env := mkEnv {
  isSharded : NamespaceString -> bool;
  isOplogDisabledFor : bool -> NamespaceString -> bool;
  canAcceptWritesFor : NamespaceString -> bool;
  getReplicationMode : ReplicationMode;
  dbVersionOk : string -> bool;
  bgOpInProgForNs : string -> bool;
  indexBuildInProgForCollection : UUID -> bool;
  userAllowedWriteNS : NamespaceString -> Status;
  collectionResourceId : string -> N;
  useRenameCollectionPathThroughConfigsvr : bool;
  internalInsertMaxBatchSize : Z;
  uuidGen : nat -> UUID;
  dropCollectionResult : NamespaceString -> Status;
  createIndexesResult : list BSONObj -> Status;
  observerPreRenameOpTime : bool -> NamespaceString -> NamespaceString -> OpTime;
  interruptPending : bool;
  releasedBufferRead : BSONObj -> BSONObj
}.

(** The state a rename reads and writes.  [cursor] and [record] are the two
    locals of the bulk-copy loop of [renameBetweenDBs] that the batch lambda
    captures by reference, and [recordBuffer] is the state of the buffer of
    [record->data]; [committed] is the flag of the innermost
    [WriteUnitOfWork]. *)
#[projections(primitive)]
Record OpCtx := mkOpCtx {
  env : Env;
  catalog : list Collection;
  databases : list Database;
  writesAreReplicated : bool;
  lockState : list (Resource * LockMode);
  committed : bool;
  events : list Event;
  writeConflictInRenameCollCopyToTmp : list bool;
  insertOutcomes : list InsertOutcome;
  uuidsGenerated : nat;
  nameTokens : list string;
  nextRecordId : Z;
  cursor : Cursor;
  record : option Record_;
  recordBuffer : BufferState
}.

Definition set_catalog (x : list Collection) (s : OpCtx) : OpCtx :=
  mkOpCtx (env s) x (databases s) (writesAreReplicated s) (lockState s) (committed s)
    (events s) (writeConflictInRenameCollCopyToTmp s) (insertOutcomes s)
    (uuidsGenerated s) (nameTokens s) (nextRecordId s) (cursor s) (record s) (recordBuffer s).

Definition set_databases (x : list Database) (s : OpCtx) : OpCtx :=
  mkOpCtx (env s) (catalog s) x (writesAreReplicated s) (lockState s) (committed s)
    (events s) (writeConflictInRenameCollCopyToTmp s) (insertOutcomes s)
    (uuidsGenerated s) (nameTokens s) (nextRecordId s) (cursor s) (record s) (recordBuffer s).

Definition set_writesAreReplicated (x : bool) (s : OpCtx) : OpCtx :=
  mkOpCtx (env s) (catalog s) (databases s) x (lockState s) (committed s)
    (events s) (writeConflictInRenameCollCopyToTmp s) (insertOutcomes s)
    (uuidsGenerated s) (nameTokens s) (nextRecordId s) (cursor s) (record s) (recordBuffer s).

Definition set_lockState (x : list (Resource * LockMode)) (s : OpCtx) : OpCtx :=
  mkOpCtx (env s) (catalog s) (databases s) (writesAreReplicated s) x (committed s)
    (events s) (writeConflictInRenameCollCopyToTmp s) (insertOutcomes s)
    (uuidsGenerated s) (nameTokens s) (nextRecordId s) (cursor s) (record s) (recordBuffer s).

Definition set_committed (x : bool) (s : OpCtx) : OpCtx :=
  mkOpCtx (env s) (catalog s) (databases s) (writesAreReplicated s) (lockState s) x
    (events s) (writeConflictInRenameCollCopyToTmp s) (insertOutcomes s)
    (uuidsGenerated s) (nameTokens s) (nextRecordId s) (cursor s) (record s) (recordBuffer s).

Definition set_events (x : list Event) (s : OpCtx) : OpCtx :=
  mkOpCtx (env s) (catalog s) (databases s) (writesAreReplicated s) (lockState s)
    (committed s) x (writeConflictInRenameCollCopyToTmp s) (insertOutcomes s)
    (uuidsGenerated s) (nameTokens s) (nextRecordId s) (cursor s) (record s) (recordBuffer s).

Definition set_failPoint (x : list bool) (s : OpCtx) : OpCtx :=
  mkOpCtx (env s) (catalog s) (databases s) (writesAreReplicated s) (lockState s)
    (committed s) (events s) x (insertOutcomes s)
    (uuidsGenerated s) (nameTokens s) (nextRecordId s) (cursor s) (record s) (recordBuffer s).

Definition set_insertOutcomes (x : list InsertOutcome) (s : OpCtx) : OpCtx :=
  mkOpCtx (env s) (catalog s) (databases s) (writesAreReplicated s) (lockState s)
    (committed s) (events s) (writeConflictInRenameCollCopyToTmp s) x
    (uuidsGenerated s) (nameTokens s) (nextRecordId s) (cursor s) (record s) (recordBuffer s).

Definition set_uuidsGenerated (x : nat) (s : OpCtx) : OpCtx :=
  mkOpCtx (env s) (catalog s) (databases s) (writesAreReplicated s) (lockState s)
    (committed s) (events s) (writeConflictInRenameCollCopyToTmp s) (insertOutcomes s)
    x (nameTokens s) (nextRecordId s) (cursor s) (record s) (recordBuffer s).

Definition set_nameTokens (x : list string) (s : OpCtx) : OpCtx :=
  mkOpCtx (env s) (catalog s) (databases s) (writesAreReplicated s) (lockState s)
    (committed s) (events s) (writeConflictInRenameCollCopyToTmp s) (insertOutcomes s)
    (uuidsGenerated s) x (nextRecordId s) (cursor s) (record s) (recordBuffer s).

Definition set_nextRecordId (x : Z) (s : OpCtx) : OpCtx :=
  mkOpCtx (env s) (catalog s) (databases s) (writesAreReplicated s) (lockState s)
    (committed s) (events s) (writeConflictInRenameCollCopyToTmp s) (insertOutcomes s)
    (uuidsGenerated s) (nameTokens s) x (cursor s) (record s) (recordBuffer s).

Definition set_cursor (x : Cursor) (s : OpCtx) : OpCtx :=
  mkOpCtx (env s) (catalog s) (databases s) (writesAreReplicated s) (lockState s)
    (committed s) (events s) (writeConflictInRenameCollCopyToTmp s) (insertOutcomes s)
    (uuidsGenerated s) (nameTokens s) (nextRecordId s) x (record s) (recordBuffer s).

Definition set_record (x : option Record_) (s : OpCtx) : OpCtx :=
  mkOpCtx (env s) (catalog s) (databases s) (writesAreReplicated s) (lockState s)
    (committed s) (events s) (writeConflictInRenameCollCopyToTmp s) (insertOutcomes s)
    (uuidsGenerated s) (nameTokens s) (nextRecordId s) (cursor s) x (recordBuffer s).

Definition set_recordBuffer (x : BufferState) (s : OpCtx) : OpCtx :=
  mkOpCtx (env s) (catalog s) (databases s) (writesAreReplicated s) (lockState s)
    (committed s) (events s) (writeConflictInRenameCollCopyToTmp s) (insertOutcomes s)
    (uuidsGenerated s) (nameTokens s) (nextRecordId s) (cursor s) (record s) x.

(** ** Computations *)

Inductive Exn := DBException (c : ErrorCode) | WriteConflictException.

(** How a call ends: it returns, it throws, the process aborts on a failed
    [invariant] or a fatal log line, or it never ends ([Timeout], which only
    a loop that makes no progress can yield). *)
Inductive Outcome (A : Type) :=
| Ret (a : A)
| Throw (e : Exn)
| Fatal (code : N)
| Timeout.

Arguments Ret {A} a.
Arguments Throw {A} e.
Arguments Fatal {A} code.
Arguments Timeout {A}.

Definition M (A : Type) : Type := OpCtx -> Outcome A * OpCtx.

Definition ret {A} (a : A) : M A := fun s => (Ret a, s).

Definition bind {A B} (m : M A) (k : A -> M B) : M B :=
  fun s =>
    match m s with
    | (Ret a, s') => k a s'
    | (Throw e, s') => (Throw e, s')
    | (Fatal c, s') => (Fatal c, s')
    | (Timeout, s') => (Timeout, s')
    end.

Notation "'let*' x ':=' m 'in' k" := (bind m (fun x => k))
  (at level 10, x name, m at level 100, k at level 200).

Definition get : M OpCtx := fun s => (Ret s, s).
Definition modify (f : OpCtx -> OpCtx) : M unit := fun s => (Ret tt, f s).
Definition throw {A} (e : Exn) : M A := fun s => (Throw e, s).
Definition fatal {A} (code : N) : M A := fun s => (Fatal code, s).
Definition emit (e : Event) : M unit := modify (fun s => set_events (events s ++ [e]) s).

(** [invariant(cond)]: the source line stands for the assertion; a failed
    one aborts the process. *)
Definition invariant (line : N) (cond : bool) : M unit :=
  if cond then ret tt else fatal line.

(** [uassert(code, msg, cond)] *)
Definition uassert (c : ErrorCode) (cond : bool) : M unit :=
  if cond then ret tt else throw (DBException c).

(** [uassertStatusOK(status)] *)
Definition uassertStatusOK (st : Status) : M unit :=
  match st with OK => ret tt | Error c => throw (DBException c) end.

(** A scope whose destructor [cleanup] runs when [body] returns or throws;
    nothing runs when the process aborts. *)
Definition scoped {A} (body : M A) (cleanup : OpCtx -> OpCtx) : M A :=
  fun s =>
    match body s with
    | (Fatal c, s') => (Fatal c, s')
    | (Timeout, s') => (Timeout, s')
    | (r, s') => (r, cleanup s')
    end.

(** ** Collaborators *)

(** Modelled from the spec: the catalog interface [lookupCollectionByNamespace]
    and [lookupNamespaceByUUID] (collection_catalog.h).  The catalog is the
    list of the live [Collection] objects; a lookup returns the first
    object under the key. *)
Definition findByNs (n : NamespaceString) (l : list Collection) : option Collection :=
  find (fun c => bool_decide (c_ns c = n)) l.

Definition findByUUID (u : UUID) (l : list Collection) : option Collection :=
  find (fun c => bool_decide (uuid c = u)) l.

Definition lookupCollectionByNamespace (n : NamespaceString) (s : OpCtx) : option Collection :=
  findByNs n (catalog s).

Definition lookupNSSByUUID (u : UUID) (s : OpCtx) : option NamespaceString :=
  c_ns <$> findByUUID u (catalog s).

Definition getNamespaceFromUUID (u : UUID) (s : OpCtx) : option NamespaceString :=
  lookupNSSByUUID u s.

Definition isCollectionSharded (n : NamespaceString) (s : OpCtx) : bool :=
  isSharded (env s) n.

Definition isReplicatedChanged (source target : NamespaceString) (s : OpCtx) : bool :=
  let sourceIsUnreplicated := isOplogDisabledFor (env s) (writesAreReplicated s) source in
  let targetIsUnreplicated := isOplogDisabledFor (env s) (writesAreReplicated s) target in
  negb (eqb sourceIsUnreplicated targetIsUnreplicated).

(** Modelled from the spec: [DatabaseHolder::getDb] and [openDb], and the
    views catalog of a database ([lookupViewByNamespace]). *)
Definition getDb (d : string) (s : OpCtx) : option Database :=
  find (fun x => bool_decide (db_name x = d)) (databases s).

Definition openDb (d : string) : M Database :=
  fun s =>
    match getDb d s with
    | Some x => (Ret x, s)
    | None => let x := mkDatabase d false [] in
              (Ret x, set_databases (x :: databases s) s)
    end.

Definition viewLookup (d : Database) (full : string) : bool :=
  existsb (fun v => bool_decide (v = full)) (db_views d).

(** Modelled from the spec: the lock manager predicates [isDbLockedForMode]
    and [isCollectionLockedForMode], and scoped lock acquisition. *)
Definition holds (r : Resource) (m : LockMode) (s : OpCtx) : bool :=
  existsb (fun l => bool_decide (fst l = r) && covers (snd l) m) (lockState s).

Definition isDbLockedForMode (d : string) (m : LockMode) (s : OpCtx) : bool :=
  holds (ResDatabase d) m s.

Definition isCollectionLockedForMode (n : NamespaceString) (m : LockMode) (s : OpCtx) : bool :=
  holds (ResDatabase (db n)) MODE_X s
  || (holds (ResDatabase (db n)) MODE_S s && covers MODE_S m)
  || (holds (ResDatabase (db n)) MODE_IS s && holds (ResCollection n) m s).

Definition DBLock (d : string) (m : LockMode) : M unit :=
  let* _ := emit (EvLockDB d m) in
  modify (fun s => set_lockState ((ResDatabase d, m) :: lockState s) s).

Definition CollectionLock (n : NamespaceString) (m : LockMode) : M unit :=
  let* _ := emit (EvLockCollection n m) in
  modify (fun s => set_lockState ((ResCollection n, m) :: lockState s) s).

(** Releases one lock ([boost::optional<...>::reset]). *)
Fixpoint removeLock (l : Resource * LockMode) (ls : list (Resource * LockMode)) :=
  match ls with
  | [] => []
  | x :: r => if bool_decide (x = l) then r else x :: removeLock l r
  end.

Definition unlock (r : Resource) (m : LockMode) : M unit :=
  modify (fun s => set_lockState (removeLock (r, m) (lockState s)) s).

(** The body of a function that owns locks: every lock taken inside is
    released when the function returns or throws. *)
Definition lockScope {A} (body : M A) : M A :=
  fun s => scoped body (set_lockState (lockState s)) s.

(** Modelled from the spec: [opCtx->checkForInterrupt()] honors a
    cancellation: it throws when the operation has been killed. *)
Definition checkForInterrupt : M unit :=
  let* s := get in uassert Interrupted (negb (interruptPending (env s))).

(** [DatabaseShardingState::checkDbVersion] throws on a stale version. *)
Definition checkDbVersion (d : string) : M unit :=
  let* s := get in uassert StaleDbVersion (dbVersionOk (env s) d).

Definition assertNoBgOpInProgForNs (full : string) : M unit :=
  let* s := get in
  uassert BackgroundOperationInProgressForNamespace (negb (bgOpInProgForNs (env s) full)).

Definition assertNoIndexBuildInProgForCollection (u : UUID) : M unit :=
  let* s := get in
  uassert BackgroundOperationInProgressForNamespace
          (negb (indexBuildInProgForCollection (env s) u)).

(** [repl::UnreplicatedWritesBlock]: writes are not replicated inside the
    scope; the former setting comes back when the scope ends. *)
Definition UnreplicatedWritesBlock {A} (body : M A) : M A :=
  fun s =>
    scoped (fun s1 => body (set_writesAreReplicated false s1))
           (set_writesAreReplicated (writesAreReplicated s)) s.

(** [WriteUnitOfWork]: unless [commit] ran, the changes made to the catalog
    and to the collections inside the scope are rolled back when it ends. *)
Definition commit : M unit := modify (set_committed true).

Definition WriteUnitOfWork {A} (body : M A) : M A :=
  fun s =>
    scoped (fun s1 => body (set_committed false s1))
           (fun s' => set_committed (committed s)
                        (if committed s' then s' else set_catalog (catalog s) s')) s.

(** Modelled from the spec: [writeConflictRetry] runs its body again for as
    long as it ends in a write conflict.  A conflict is only ever raised by
    the fail point of the copy loop or by a scripted insert outcome, and each
    one consumes an entry of the script, so the number of entries left bounds
    the retries. *)
Definition conflictBudget (s : OpCtx) : nat :=
  length (writeConflictInRenameCollCopyToTmp s) + length (insertOutcomes s).

Fixpoint writeConflictRetry_loop {A} (fuel : nat) (f : M A) : M A :=
  fun s =>
    match fuel with
    | O => (Timeout, s)
    | S n =>
        match f s with
        | (Throw WriteConflictException, s') => writeConflictRetry_loop n f s'
        | r => r
        end
    end.

Definition writeConflictRetry {A} (f : M A) : M A :=
  fun s => writeConflictRetry_loop (S (conflictBudget s)) f s.

(** Modelled from the spec: [Database::renameCollection(source, target,
    stayTemp)] rebinds the catalog entry of [source] to [target]; it fails
    when [target] is taken or [source] does not resolve.  The UUID, the
    contents and the indexes stay with the object. *)
Definition rebind (target : NamespaceString) (stay : bool) (c : Collection) : Collection :=
  mkCollection (addr c) target (uuid c)
    (mkOptions (opt_uuid (collOptions c)) (opt_temp (collOptions c) && stay)
               (opt_rest (collOptions c)))
    (records c) (indexCatalog c).

Fixpoint rebindFirst (source target : NamespaceString) (stay : bool) (l : list Collection) :=
  match l with
  | [] => []
  | c :: r => if bool_decide (c_ns c = source) then rebind target stay c :: r
              else c :: rebindFirst source target stay r
  end.

Definition Database_renameCollection (source target : NamespaceString) (stay : bool)
  : M Status :=
  let* _ := emit (EvDbRenameCollection source target stay) in
  let* s := get in
  match lookupCollectionByNamespace target s with
  | Some _ => ret (Error NamespaceExists)
  | None =>
      match lookupCollectionByNamespace source s with
      | None => ret (Error NamespaceNotFound)
      | Some _ =>
          let* _ := modify (set_catalog (rebindFirst source target stay (catalog s))) in
          ret OK
      end
  end.

(** Modelled from the spec: [Database::dropCollection(ns, logPos)] removes
    the collection under [ns] from the catalog, or fails with the status the
    database layer decides ([dropCollectionResult]) and changes nothing.  The
    trace keeps the log position and whether writes were replicated at the
    call. *)
Definition Database_dropCollection (n : NamespaceString) (t : OpTime) : M Status :=
  let* s := get in
  let* _ := emit (EvDbDropCollection n t (writesAreReplicated s)) in
  match dropCollectionResult (env s) n with
  | Error c => ret (Error c)
  | OK =>
      let* _ := modify (set_catalog
                   (List.filter (fun c => negb (bool_decide (c_ns c = n))) (catalog s))) in
      ret OK
  end.

(** Modelled from the spec: [dropCollectionForApplyOps] (drop_collection.h),
    the drop path of apply-ops: [NamespaceNotFound] when nothing lives under
    the name, else the collection is dropped with the given log position. *)
Definition dropCollectionForApplyOps (n : NamespaceString) (t : OpTime) : M Status :=
  let* _ := emit (EvDropCollectionForApplyOps n t) in
  let* s := get in
  match lookupCollectionByNamespace n s with
  | None => ret (Error NamespaceNotFound)
  | Some _ => WriteUnitOfWork (
      let* st := Database_dropCollection n t in
      match st with
      | OK => let* _ := commit in ret OK
      | Error c => ret (Error c)
      end)
  end.

(** Modelled from the spec: [UUID::gen] draws the next identifier of the
    generator. *)
Definition UUID_gen : M UUID :=
  fun s => (Ret (uuidGen (env s) (uuidsGenerated s)),
            set_uuidsGenerated (S (uuidsGenerated s)) s).

(** Modelled from the spec: [Database::makeUniqueCollectionNamespace(pattern)]
    replaces the percent signs of the pattern by random characters until the
    name is free in the catalog; [nameTokens] is the sequence of random
    tokens the generator yields, and the call fails when none of them gives
    a free name. *)
Inductive StatusWith (A : Type) := SWValue (a : A) | SWError (c : ErrorCode).
Arguments SWValue {A} a.
Arguments SWError {A} c.

Fixpoint fillPattern (pattern token : string) : string :=
  match pattern with
  | EmptyString => EmptyString
  | String c rest =>
      if bool_decide (c = "%"%char) then
        match token with
        | String t token' => String t (fillPattern rest token')
        | EmptyString => String c (fillPattern rest EmptyString)
        end
      else String c (fillPattern rest token)
  end.

Fixpoint firstFreeName (d pattern : string) (tokens : list string) (l : list Collection)
  : option (NamespaceString * list string) :=
  match tokens with
  | [] => None
  | t :: rest =>
      let n := mkNss d (fillPattern pattern t) in
      match findByNs n l with
      | None => Some (n, rest)
      | Some _ => firstFreeName d pattern rest l
      end
  end.

Definition makeUniqueCollectionNamespace (d : Database) (pattern : string)
  : M (StatusWith NamespaceString) :=
  fun s =>
    match firstFreeName (db_name d) pattern (nameTokens s) (catalog s) with
    | Some (n, rest) => (Ret (SWValue n), set_nameTokens rest s)
    | None => (Ret (SWError NamespaceExists), set_nameTokens [] s)
    end.

(** Modelled from the spec: [Database::createCollection(ns, options)] makes
    a new, empty collection with the UUID of the options and the implicit
    [_id] index; the name must be free. *)
Definition freshAddr (l : list Collection) : nat := S (list_max (map addr l)).

Definition idIndexEntry : IndexCatalogEntry :=
  mkEntry (mkDescriptor true [("name", BString "_id_")]) true.

Definition Database_createCollection (n : NamespaceString) (o : CollectionOptions)
  : M Collection :=
  let* s := get in
  let* _ := uassert NamespaceExists
              (bool_decide (lookupCollectionByNamespace n s = None)) in
  let c := mkCollection (freshAddr (catalog s)) n (default 0%N (opt_uuid o)) o []
                        [idIndexEntry] in
  let* _ := emit (EvCreateCollection n (uuid c)) in
  let* _ := modify (set_catalog (c :: catalog s)) in
  ret c.

(** Modelled from the spec: [IndexCatalog::getIndexIterator(opCtx,
    includeUnfinishedIndexes)] (index_catalog.h): the entries of the index
    catalog, without the unfinished ones unless the flag asks for them. *)
Definition getIndexIterator (c : Collection) (includeUnfinishedIndexes : bool)
  : list IndexCatalogEntry :=
  if includeUnfinishedIndexes then indexCatalog c
  else List.filter isReady (indexCatalog c).

(** Modelled from the spec: [createIndexesOnEmptyCollection(uuid, specs)]
    builds the indexes on the collection with that UUID in one step (they are
    ready at once), or throws the error the index layer decides. *)
Definition addIndexes (specs : list BSONObj) (c : Collection) : Collection :=
  mkCollection (addr c) (c_ns c) (uuid c) (collOptions c) (records c)
    (indexCatalog c ++ map (fun spec => mkEntry (mkDescriptor false spec) true) specs).

Definition createIndexesOnEmptyCollection (u : UUID) (specs : list BSONObj) : M unit :=
  let* _ := emit (EvCreateIndexes u specs) in
  let* s := get in
  match createIndexesResult (env s) specs with
  | Error c => throw (DBException c)
  | OK =>
      modify (set_catalog
                (map (fun c => if bool_decide (uuid c = u) then addIndexes specs c else c)
                     (catalog s)))
  end.

(** Modelled from the spec: the operation observer.  Each call is kept in
    the trace; [preRenameCollection] returns the log position the observer
    wrote, which the environment gives as a function of whether writes are
    replicated at the call. *)
Definition onRenameCollection (source target : NamespaceString) (u : UUID)
  (dropped : option UUID) (numRec : nat) (stay : bool) : M unit :=
  emit (EvOnRenameCollection source target u dropped numRec stay).

Definition preRenameCollection (source target : NamespaceString) (u dropped : UUID)
  (numRec : nat) (stay : bool) : M OpTime :=
  let* _ := emit (EvPreRenameCollection source target u dropped numRec stay) in
  let* s := get in
  ret (observerPreRenameOpTime (env s) (writesAreReplicated s) source target).

Definition postRenameCollection (source target : NamespaceString) (u dropped : UUID)
  (stay : bool) : M unit :=
  emit (EvPostRenameCollection source target u dropped stay).

(** ** The functions of rename_collection.cpp *)

(** A null [Collection*] that is dereferenced ends the process. *)
Definition nullDereference {A} : M A := fatal 11.

Definition checkSourceAndTargetNamespaces (source target : NamespaceString)
  (options : RenameCollectionOptions) (targetExistsAllowed : bool) : M Status :=
  let* s := get in
  if writesAreReplicated s && negb (canAcceptWritesFor (env s) source) then
    ret (Error NotMaster)
  else if negb (useRenameCollectionPathThroughConfigsvr (env s))
          && isCollectionSharded source s then
    ret (Error IllegalOperation)
  else if isReplicatedChanged source target s then
    ret (Error IllegalOperation)
  else
    match getDb (db source) s with
    | None => ret (Error NamespaceNotFound)
    | Some theDb =>
        if db_dropPending theDb then ret (Error NamespaceNotFound)
        else
          match lookupCollectionByNamespace source s with
          | None =>
              if viewLookup theDb (ns source) then ret (Error CommandNotSupportedOnView)
              else ret (Error NamespaceNotFound)
          | Some sourceColl =>
              let* _ := assertNoBgOpInProgForNs (ns source) in
              let* _ := assertNoIndexBuildInProgForCollection (uuid sourceColl) in
              match lookupCollectionByNamespace target s with
              | None =>
                  if viewLookup theDb (ns target) then ret (Error NamespaceExists)
                  else ret OK
              | Some targetColl =>
                  if isCollectionSharded target s then ret (Error IllegalOperation)
                  else if negb targetExistsAllowed && negb (dropTarget options) then
                    ret (Error NamespaceExists)
                  else ret OK
              end
          end
    end.

Definition renameTargetCollectionToTmp (sourceNs : NamespaceString) (sourceUUID : UUID)
  (targetDB : Database) (targetNs : NamespaceString) (targetUUID : UUID) : M Status :=
  UnreplicatedWritesBlock (
    let* s := get in
    let* _ := invariant 159 (isDbLockedForMode (db_name targetDB) MODE_X s) in
    let* tmpNameResult := makeUniqueCollectionNamespace targetDB "tmp%%%%%.rename" in
    match tmpNameResult with
    | SWError c => ret (Error c)
    | SWValue tmpName =>
        let stayTemp := true in
        writeConflictRetry (WriteUnitOfWork (
          let* status := Database_renameCollection targetNs tmpName stayTemp in
          if negb (isOK status) then ret status
          else let* _ := commit in ret OK))
    end).

Definition renameCollectionDirectly (theDb : Database) (u : UUID)
  (source target : NamespaceString) (options : RenameCollectionOptions) : M Status :=
  writeConflictRetry (WriteUnitOfWork (
    let* status := UnreplicatedWritesBlock
                     (Database_renameCollection source target (stayTemp options)) in
    if negb (isOK status) then ret status
    else
      let* _ := onRenameCollection source target u None 0 (stayTemp options) in
      let* _ := commit in
      ret OK)).

Definition renameCollectionAndDropTarget (theDb : Database) (u : UUID)
  (source target : NamespaceString) (targetColl : Collection)
  (options : RenameCollectionOptions) (renameOpTimeFromApplyOps : OpTime) : M Status :=
  writeConflictRetry (WriteUnitOfWork (
    let* _ := invariant 235 (dropTarget options) in
    let* s := get in
    let isOplogDisabledForNamespace :=
      isOplogDisabledFor (env s) (writesAreReplicated s) target in
    let* _ := (if negb isOplogDisabledForNamespace then
                 let* _ := invariant 243 (writesAreReplicated s) in
                 invariant 244 (isNull renameOpTimeFromApplyOps)
               else ret tt) in
    let numRec := numRecords targetColl in
    let* observed := preRenameCollection source target u (uuid targetColl) numRec
                                         (stayTemp options) in
    let* renameOpTime :=
      (if negb (isNull renameOpTimeFromApplyOps) then
         let* _ := (if negb (isNull observed) then fatal 40616 else ret tt) in
         ret renameOpTimeFromApplyOps
       else ret observed) in
    UnreplicatedWritesBlock (
      let* _ := assertNoBgOpInProgForNs (ns (c_ns targetColl)) in
      let* _ := assertNoIndexBuildInProgForCollection (uuid targetColl) in
      let* status := Database_dropCollection (c_ns targetColl) renameOpTime in
      if negb (isOK status) then ret status
      else
        let* status := Database_renameCollection source target (stayTemp options) in
        if negb (isOK status) then ret status
        else
          let* _ := postRenameCollection source target u (uuid targetColl)
                                         (stayTemp options) in
          let* _ := commit in
          ret OK))).

(** Lines 320-342: what [renameCollectionWithinDB] does once it holds its
    locks. *)
Definition renameWithinDB_locked (source target : NamespaceString)
  (options : RenameCollectionOptions) : M Status :=
  let* status := checkSourceAndTargetNamespaces source target options false in
  if negb (isOK status) then ret status
  else
    let* s := get in
    match getDb (db source) s, lookupCollectionByNamespace source s with
    | Some theDb, Some sourceColl =>
        match lookupCollectionByNamespace target s with
        | None =>
            renameCollectionDirectly theDb (uuid sourceColl) source target options
        | Some targetColl =>
            renameCollectionAndDropTarget theDb (uuid sourceColl) source target
                                          targetColl options nullOpTime
        end
    | _, _ => nullDereference
    end.

Definition renameCollectionWithinDB (source target : NamespaceString)
  (options : RenameCollectionOptions) : M Status :=
  let* _ := invariant 293 (bool_decide (db source = db target)) in
  lockScope (
    let* _ := DBLock (db source) MODE_IX in
    let* _ := checkDbVersion (db source) in
    let* s := get in
    let* _ :=
      (if negb (isSystemDotViews source)
          && (isSystemDotViews target
              || (collectionResourceId (env s) (ns source)
                  <? collectionResourceId (env s) (ns target))%N) then
         let* _ := CollectionLock source MODE_X in
         CollectionLock target MODE_X
       else
         let* _ := CollectionLock target MODE_X in
         CollectionLock source MODE_X) in
    renameWithinDB_locked source target options).

(** A [return status] in the middle of a block, or the value the block
    leaves to the code after it. *)
Inductive Flow (A : Type) := Return (st : Status) | Continue (a : A).
Arguments Return {A} st.
Arguments Continue {A} a.

Definition renameCollectionWithinDBForApplyOps (source target : NamespaceString)
  (uuidToDrop : option UUID) (renameOpTimeFromApplyOps : OpTime)
  (options : RenameCollectionOptions) : M Status :=
  let* _ := invariant 351 (bool_decide (db source = db target)) in
  lockScope (
    let* _ := DBLock (db source) MODE_X in
    let* _ := checkDbVersion (db source) in
    let* status := checkSourceAndTargetNamespaces source target options true in
    if negb (isOK status) then ret status
    else
      let* s := get in
      match getDb (db source) s, lookupCollectionByNamespace source s with
      | Some theDb, Some sourceColl =>
        writeConflictRetry (
          let* s := get in
          let targetColl := lookupCollectionByNamespace target s in
          WriteUnitOfWork (
            (* lines 381-413 *)
            let* flow :=
              match targetColl with
              | Some tc =>
                  if bool_decide (uuid sourceColl = uuid tc) then
                    match uuidToDrop with
                    | None => let* _ := commit in ret (Return OK)
                    | Some u =>
                        if bool_decide (u = uuid tc) then
                          let* _ := commit in ret (Return OK)
                        else
                          let* s := get in
                          match getNamespaceFromUUID u s with
                          | None => let* _ := commit in ret (Return OK)
                          | Some collToDropBasedOnUUID =>
                              UnreplicatedWritesBlock (
                                let* status :=
                                  Database_dropCollection collToDropBasedOnUUID
                                                          renameOpTimeFromApplyOps in
                                if negb (isOK status) then ret (Return status)
                                else let* _ := commit in ret (Return OK))
                          end
                    end
                  else if bool_decide (uuidToDrop = None)
                          || negb (bool_decide (uuidToDrop = Some (uuid tc))) then
                    let* status := renameTargetCollectionToTmp source (uuid sourceColl)
                                     theDb target (uuid tc) in
                    if negb (isOK status) then ret (Return status)
                    else ret (Continue None)
                  else ret (Continue (Some tc))
              | None => ret (Continue None)
              end in
            match flow with
            | Return st => ret st
            | Continue targetColl =>
                (* lines 418-426 *)
                let* targetColl :=
                  match targetColl, uuidToDrop with
                  | None, Some u =>
                      let* _ := invariant 419 (dropTarget options) in
                      let* s := get in
                      match getNamespaceFromUUID u s with
                      | Some collToDropBasedOnUUID =>
                          if negb (isDropPendingNamespace collToDropBasedOnUUID) then
                            let* _ := invariant 422
                              (bool_decide (db collToDropBasedOnUUID = db target)) in
                            ret (lookupCollectionByNamespace collToDropBasedOnUUID s)
                          else ret None
                      | None => ret None
                      end
                  | _, _ => ret targetColl
                  end in
                (* lines 428-451 *)
                match targetColl with
                | None =>
                    let* r := renameCollectionDirectly theDb (uuid sourceColl) source
                                                       target options in
                    let* _ := (if isOK r then commit else ret tt) in
                    ret r
                | Some tc =>
                    if bool_decide (addr sourceColl = addr tc) then
                      let* _ := commit in ret OK
                    else
                      let* r := renameCollectionAndDropTarget theDb (uuid sourceColl)
                                  source target tc options renameOpTimeFromApplyOps in
                      let* _ := (if isOK r then commit else ret tt) in
                      ret r
                end
            end))
      | _, _ => nullDereference
      end).

(** *** The record cursor and the inserts of the bulk copy *)

(** Modelled from the spec: the cursor capability [next], [seekExact],
    [save], [restore] of the storage engine.  [seekExact] positions the
    cursor on the record with the given id and returns it. *)
Fixpoint seekIn (i : RecordId) (l : list Record_) : option (Record_ * list Record_) :=
  match l with
  | [] => None
  | r :: rest => if bool_decide (id r = i) then Some (r, rest) else seekIn i rest
  end.

Definition getCursor (c : Collection) : M unit :=
  modify (set_cursor (mkCursor (records c) (records c) false)).

Definition cursor_next : M (option Record_) :=
  let* _ := emit EvCursorNext in
  fun s =>
    match cur_rest (cursor s) with
    | [] => (Ret None, s)
    | r :: rest =>
        (Ret (Some r),
         set_cursor (mkCursor (cur_store (cursor s)) rest (cur_saved (cursor s))) s)
    end.

Definition cursor_seekExact (i : RecordId) : M (option Record_) :=
  let* _ := emit (EvCursorSeekExact i) in
  fun s =>
    match seekIn i (cur_store (cursor s)) with
    | Some (r, rest) =>
        (Ret (Some r),
         set_cursor (mkCursor (cur_store (cursor s)) rest (cur_saved (cursor s))) s)
    | None =>
        (Ret None, set_cursor (mkCursor (cur_store (cursor s)) [] (cur_saved (cursor s))) s)
    end.

Definition cursor_save : M unit :=
  let* _ := emit EvCursorSave in
  modify (fun s => set_cursor (mkCursor (cur_store (cursor s)) (cur_rest (cursor s)) true) s).

Definition cursor_restore : M unit :=
  let* _ := emit EvCursorRestore in
  modify (fun s => set_cursor (mkCursor (cur_store (cursor s)) (cur_rest (cursor s)) false) s).

(** Modelled from the spec: a record that a cursor returns views memory of
    the storage engine, so the assignment of it to [record] leaves
    [record->data] unowned. *)
Definition assignRecord (r : option Record_) : M unit :=
  modify (fun s => set_recordBuffer Unowned (set_record r s)).

(** Modelled from the spec: [RecordData::releaseToBson] builds the document
    from the data of the record.  Owned data hands its buffer over to the
    document, and the record keeps nothing; unowned data is only viewed.  On
    data whose buffer has been handed over before, the call views the memory
    that buffer occupied, and finds what the environment left there. *)
Definition releaseToBson (r : Record_) : M BSONObj :=
  fun s =>
    match recordBuffer s with
    | Unowned => (Ret (data r), s)
    | Owned => (Ret (data r), set_recordBuffer Released s)
    | Released => (Ret (releasedBufferRead (env s) (data r)), s)
    end.

(** Modelled from the spec: [RecordData::makeOwned] copies the data into a
    buffer of the record unless the record owns one; the copy reads what the
    data views. *)
Definition makeOwned (r : Record_) : M unit :=
  fun s =>
    match recordBuffer s with
    | Unowned => (Ret tt, set_recordBuffer Owned s)
    | Owned => (Ret tt, s)
    | Released =>
        (Ret tt,
         set_recordBuffer Owned
           (set_record (Some (mkRecord (id r) (releasedBufferRead (env s) (data r)))) s))
    end.

(** Modelled from the spec: [Collection::insertDocument].  The outcome of
    each call is scripted by [insertOutcomes] (success once the script is
    used up); a successful insert appends the document, under the next
    record id, to the collection object at [addr target]. *)
Definition addRecord (r : Record_) (c : Collection) : Collection :=
  mkCollection (addr c) (c_ns c) (uuid c) (collOptions c) (records c ++ [r])
               (indexCatalog c).

Definition storeDocument (target : Collection) (doc : BSONObj) : M Status :=
  let* _ := emit (EvInsertDocument (addr target) doc) in
  let* s := get in
  let r := mkRecord (nextRecordId s) doc in
  let* _ := modify (set_catalog
              (map (fun c => if bool_decide (addr c = addr target) then addRecord r c else c)
                   (catalog s))) in
  let* _ := modify (set_nextRecordId (nextRecordId s + 1)) in
  ret OK.

Definition insertDocument (target : Collection) (doc : BSONObj) : M Status :=
  let* s := get in
  match insertOutcomes s with
  | [] => storeDocument target doc
  | InsertOK :: rest =>
      let* _ := modify (set_insertOutcomes rest) in storeDocument target doc
  | InsertWriteConflict :: rest =>
      let* _ := modify (set_insertOutcomes rest) in throw WriteConflictException
  | InsertError c :: rest =>
      let* _ := modify (set_insertOutcomes rest) in ret (Error c)
  end.

(** [writeConflictInRenameCollCopyToTmp.shouldFail()]: each evaluation takes
    the next entry of the fail point's script. *)
Definition shouldFail_writeConflictInRenameCollCopyToTmp : M bool :=
  fun s =>
    match writeConflictInRenameCollCopyToTmp s with
    | [] => (Ret false, s)
    | b :: rest => (Ret b, set_failPoint rest s)
    end.

(** [ON_BLOCK_EXIT(guard)]: [guard] runs when the rest of the block ends,
    whether it returns or throws. *)
Definition ON_BLOCK_EXIT {A} (guard : M unit) (rest : M A) : M A :=
  fun s => scoped rest (fun s' => snd (guard s')) s.

(** Lines 675-683: the [for] loop of one batch; [n] is the number of
    iterations the bound [i < internalInsertMaxBatchSize] still allows. *)
Fixpoint insertBatch (tmpColl : Collection) (n : nat) : M Status :=
  match n with
  | O => ret OK
  | S n' =>
      let* s := get in
      match record s with
      | None => ret OK
      | Some r =>
          let* stmt := releaseToBson r in
          let* status := insertDocument tmpColl stmt in
          if negb (isOK status) then ret status
          else
            let* nxt := cursor_next in
            let* _ := assignRecord nxt in
            insertBatch tmpColl n'
      end
  end.

(** Lines 669-702: the body passed to [writeConflictRetry]. *)
Definition copyBatch (tmpColl : Collection) (beginBatchId : RecordId) : M Status :=
  WriteUnitOfWork (
    let* s := get in
    let* _ :=
      (if match record s with
          | None => true
          | Some r => negb (bool_decide (beginBatchId = id r))
          end
       then let* r := cursor_seekExact beginBatchId in assignRecord r
       else ret tt) in
    let* s := get in
    let* status := insertBatch tmpColl (Z.to_nat (internalInsertMaxBatchSize (env s))) in
    if negb (isOK status) then ret status
    else
      let* s := get in
      let* _ := (match record s with
                 | Some r => makeOwned r
                 | None => ret tt
                 end) in
      let* _ := cursor_save in
      ON_BLOCK_EXIT (writeConflictRetry cursor_restore) (
        let* fail := shouldFail_writeConflictInRenameCollCopyToTmp in
        if fail then throw WriteConflictException
        else
          let* _ := commit in
          ret OK)).

(** Lines 665-705: the [while (record)] loop.  A batch that succeeds moves
    the cursor forward when the batch size is positive, and a retry goes
    back by a [seekExact] only after a conflict, so [fuel] batches are
    enough when [fuel] exceeds (records + 1) * (conflicts left + 1); the
    loop ends in [Timeout] only if it makes no progress. *)
Fixpoint copyLoop (fuel : nat) (tmpColl : Collection) : M Status :=
  fun s =>
    match record s with
    | None => (Ret OK, s)
    | Some r =>
        match fuel with
        | O => (Timeout, s)
        | S fuel' =>
            (let* _ := checkForInterrupt in
             let beginBatchId := id r in
             let* status := writeConflictRetry (copyBatch tmpColl beginBatchId) in
             if negb (isOK status) then ret status
             else copyLoop fuel' tmpColl) s
        end
    end.

Definition copyFuel (sourceColl : Collection) (s : OpCtx) : nat :=
  S (length (records sourceColl)) * S (conflictBudget s).

(** Lines 663-705: the bulk copy of the records of the source into the
    staging collection. *)
Definition copyRecords (sourceColl tmpColl : Collection) : M Status :=
  let* _ := getCursor sourceColl in
  let* first := cursor_next in
  let* _ := assignRecord first in
  let* s := get in
  copyLoop (copyFuel sourceColl s) tmpColl.

(** *** The cross-database rename *)

(** Lines 608-617: the loop that collects the index descriptions. *)
Fixpoint copyIndexDescriptions (sourceIndIt : list IndexCatalogEntry)
  (indexesToCopy : list BSONObj) : list BSONObj :=
  match sourceIndIt with
  | [] => indexesToCopy
  | entry :: more =>
      if isIdIndex (descriptor entry) then copyIndexDescriptions more indexesToCopy
      else copyIndexDescriptions more (indexesToCopy ++ [infoObj (descriptor entry)])
  end.

Definition indexesToCopyOf (sourceColl : Collection) : list BSONObj :=
  copyIndexDescriptions (getIndexIterator sourceColl true) [].

(** [try { ... } catch (DBException& ex) { return ex.toStatus(); }] *)
Definition catchDBException (body : M Status) : M Status :=
  fun s =>
    match body s with
    | (Throw (DBException c), s') => (Ret (Error c), s')
    | r => r
    end.

(** Modelled from the spec: [AutoGetCollection(opCtx, {db, uuid}, mode)]
    resolves the UUID to a namespace (a [NamespaceNotFound] exception when
    it does not resolve), locks the database and the collection, and gives
    the collection under that namespace. *)
Definition AutoGetCollection_byUUID (d : string) (u : UUID) (m : LockMode)
  : M (option Collection) :=
  let* s := get in
  match lookupNSSByUUID u s with
  | None => throw (DBException NamespaceNotFound)
  | Some n =>
      let* _ := DBLock d MODE_IX in
      let* _ := CollectionLock n m in
      let* s := get in
      ret (lookupCollectionByNamespace n s)
  end.

(** [makeGuard(cleanup)] with [dismiss()] called just after the guarded part
    has produced an OK status: the cleanup runs when the guarded part
    returns a failure or throws. *)
Definition guarded (cleanup : M Status) (body : M Status) : M Status :=
  fun s =>
    match body s with
    | (Ret OK, s') => (Ret OK, s')
    | (Fatal c, s') => (Fatal c, s')
    | (Timeout, s') => (Timeout, s')
    | (r, s') => (r, snd (cleanup s'))
    end.

Definition withUUID (u : UUID) (o : CollectionOptions) : CollectionOptions :=
  mkOptions (Some u) (opt_temp o) (opt_rest o).

(** Lines 607-713: the part of [renameBetweenDBs] that the cleanup guard
    protects, from the copy of the index descriptions to the rename of the
    staging collection onto the target. *)
Definition stageAndPromote (source target tmpName : NamespaceString)
  (options : RenameCollectionOptions) (sourceColl tmpColl : Collection)
  (sourceLockedHere targetLockedHere : bool) : M Status :=
  let indexesToCopy := indexesToCopyOf sourceColl in
  let* status :=
    (if negb (bool_decide (indexesToCopy = [])) then
       writeConflictRetry (WriteUnitOfWork (catchDBException (
         let* _ := createIndexesOnEmptyCollection (uuid tmpColl) indexesToCopy in
         let* _ := commit in
         ret OK)))
     else ret OK) in
  if negb (isOK status) then ret status
  else
    let* _ := (if targetLockedHere then unlock (ResDatabase (db target)) MODE_X
               else ret tt) in
    let* status := lockScope (
      let* autoTmpColl :=
        AutoGetCollection_byUUID (db tmpName) (uuid tmpColl) MODE_IX in
      match autoTmpColl with
      | None => ret (Error NamespaceNotFound)
      | Some tmpColl => copyRecords sourceColl tmpColl
      end) in
    if negb (isOK status) then ret status
    else
      let* _ := (if sourceLockedHere then
                   let* _ := unlock (ResCollection source) MODE_S in
                   unlock (ResDatabase (db source)) MODE_IX
                 else ret tt) in
      let* _ := invariant 712 (bool_decide (db tmpName = db target)) in
      renameCollectionWithinDB tmpName target options.

Definition renameBetweenDBs (source target : NamespaceString)
  (options : RenameCollectionOptions) : M Status :=
  let* _ := invariant 459 (negb (bool_decide (db source = db target))) in
  lockScope (
    let* s := get in
    let sourceLockedHere := negb (isCollectionLockedForMode source MODE_S s) in
    let* _ := (if sourceLockedHere then
                 let* _ := DBLock (db source) MODE_IX in
                 CollectionLock source MODE_S
               else ret tt) in
    let* s := get in
    let targetLockedHere := negb (isDbLockedForMode (db target) MODE_X s) in
    let* _ := (if targetLockedHere then DBLock (db target) MODE_X else ret tt) in
    let* _ := checkDbVersion (db source) in
    let* s := get in
    match getDb (db source) s with
    | None => ret (Error NamespaceNotFound)
    | Some sourceDB =>
    match lookupCollectionByNamespace source s with
    | None =>
        if viewLookup sourceDB (ns source) then ret (Error CommandNotSupportedOnView)
        else ret (Error NamespaceNotFound)
    | Some sourceColl =>
    if negb (useRenameCollectionPathThroughConfigsvr (env s))
       && isCollectionSharded source s then ret (Error IllegalOperation)
    else if isReplicatedChanged source target s then ret (Error IllegalOperation)
    else
    let* _ := assertNoBgOpInProgForNs (ns source) in
    let* _ := assertNoIndexBuildInProgForCollection (uuid sourceColl) in
    let targetDB := getDb (db target) s in
    (* lines 519-541 *)
    let targetColl :=
      match targetDB with
      | Some _ => lookupCollectionByNamespace target s
      | None => None
      end in
    let* flow :=
      match targetColl with
      | Some tc =>
          if bool_decide (uuid sourceColl = uuid tc) then
            let* _ := invariant 527 (bool_decide (source = target)) in
            ret (Return OK)
          else if isCollectionSharded target s then ret (Return (Error IllegalOperation))
          else if negb (dropTarget options) then ret (Return (Error NamespaceExists))
          else ret (Continue tt)
      | None =>
          match targetDB with
          | Some tdb =>
              if viewLookup tdb (ns target) then ret (Return (Error NamespaceExists))
              else ret (Continue tt)
          | None => ret (Continue tt)
          end
      end in
    match flow with
    | Return st => ret st
    | Continue _ =>
    let* targetDB :=
      match targetDB with
      | Some tdb => ret tdb
      | None => openDb (db target)
      end in
    let* s := get in
    let* _ := invariant 551 (isDbLockedForMode (db_name targetDB) MODE_X s) in
    let* tmpNameResult :=
      makeUniqueCollectionNamespace targetDB "tmp%%%%%.renameCollection" in
    match tmpNameResult with
    | SWError c => ret (Error c)
    | SWValue tmpName =>
    (* lines 567-580 *)
    let collectionOptions := collOptions sourceColl in
    let* fresh := UUID_gen in
    let collectionOptions := withUUID fresh collectionOptions in
    let* tmpColl := writeConflictRetry (WriteUnitOfWork (
                      let* c := Database_createCollection tmpName collectionOptions in
                      let* _ := commit in
                      ret c)) in
    let* status :=
      guarded (catchDBException (dropCollectionForApplyOps tmpName nullOpTime))
              (stageAndPromote source target tmpName options sourceColl tmpColl
                               sourceLockedHere targetLockedHere) in
    if negb (isOK status) then ret status
    else dropCollectionForApplyOps source nullOpTime
    end end end end).

(** *** Entry points *)

Definition renameCollection (source target : NamespaceString)
  (options : RenameCollectionOptions) : M Status :=
  if isDropPendingNamespace source then ret (Error NamespaceNotFound)
  else if isSystemDotViews source || isSystemDotViews target then
    ret (Error IllegalOperation)
  else if bool_decide (db source = db target) then
    renameCollectionWithinDB source target options
  else renameBetweenDBs source target options.

(** Modelled from the spec: the accessors of a command document
    ([firstElement], [operator[]], [type], [trueValue], [valueStringData],
    [UUID::parse]), declared in the BSON headers. *)
Definition firstElement (cmd : BSONObj) : BSONElement :=
  match cmd with
  | [] => EOO
  | (_, e) :: _ => e
  end.

Fixpoint getField (cmd : BSONObj) (name : string) : BSONElement :=
  match cmd with
  | [] => EOO
  | (k, e) :: rest => if bool_decide (k = name) then e else getField rest name
  end.

Definition isString (e : BSONElement) : bool :=
  match e with BString _ => true | _ => false end.

Definition isBinData (e : BSONElement) : bool :=
  match e with BBinData _ => true | _ => false end.

Definition valueStringData (e : BSONElement) : string :=
  match e with BString v => v | _ => EmptyString end.

Definition trueValue (e : BSONElement) : bool :=
  match e with
  | BNumber z => negb (z =? 0)
  | BBool b => b
  | EOO | BNull => false
  | _ => true
  end.

Definition UUID_parse (e : BSONElement) : StatusWith UUID :=
  match e with
  | BBinData (Some u) => SWValue u
  | _ => SWError InvalidUUID
  end.

(** Modelled from the spec: [AutoGetCollectionForRead(...).getCollection()]
    gives the collection under the namespace, or null. *)
Definition AutoGetCollectionForRead (n : NamespaceString) : M (option Collection) :=
  let* s := get in ret (lookupCollectionByNamespace n s).

Definition renameCollectionForApplyOps (dbName : string) (uuidToRename : option UUID)
  (cmd : BSONObj) (renameOpTime : OpTime) : M Status :=
  let* s := get in
  if negb (isNull renameOpTime) && writesAreReplicated s then ret (Error BadValue)
  else
    let sourceNsElt := firstElement cmd in
    let targetNsElt := getField cmd "to" in
    let* _ := uassert TypeMismatch (isString sourceNsElt) in
    let* _ := uassert TypeMismatch (isString targetNsElt) in
    let sourceNss := parseNss (valueStringData sourceNsElt) in
    let targetNss := parseNss (valueStringData targetNsElt) in
    let sourceNss :=
      match uuidToRename with
      | Some u =>
          match lookupNSSByUUID u s with
          | Some nss => nss
          | None => sourceNss
          end
      | None => sourceNss
      end in
    let options := mkRenameOptions (trueValue (getField cmd "dropTarget"))
                                   (trueValue (getField cmd "stayTemp")) in
    let* uuidToDrop :=
      (if isBinData (getField cmd "dropTarget") then
         match UUID_parse (getField cmd "dropTarget") with
         | SWValue u => ret (Some u)
         | SWError c => throw (DBException c)
         end
       else ret None) in
    let targetStatus := userAllowedWriteNS (env s) targetNss in
    match targetStatus with
    | Error c => ret (Error c)
    | OK =>
        if bool_decide (getReplicationMode (env s) = modeNone) && isOplog targetNss then
          ret (Error IllegalOperation)
        else
          let* sourceColl := AutoGetCollectionForRead sourceNss in
          if isDropPendingNamespace sourceNss
             || bool_decide (sourceColl = None :> option Collection) then
            let dropTargetNss := if dropTarget options then Some targetNss else None in
            let* s := get in
            let dropTargetNss :=
              match uuidToDrop with
              | Some u => getNamespaceFromUUID u s
              | None => dropTargetNss
              end in
            match dropTargetNss with
            | Some n => dropCollectionForApplyOps n renameOpTime
            | None => ret (Error NamespaceNotFound)
            end
          else if bool_decide (db sourceNss = db targetNss) then
            renameCollectionWithinDBForApplyOps sourceNss targetNss uuidToDrop
                                                renameOpTime options
          else renameBetweenDBs sourceNss targetNss options
    end.

Definition renameCollectionForRollback (target : NamespaceString) (u : UUID) : M Status :=
  let* s := get in
  match getNamespaceFromUUID u s with
  | None => fatal 954
  | Some source =>
      let* _ := invariant 955 (bool_decide (db source = db target)) in
      renameCollectionWithinDB source target defaultRenameOptions
  end.

(** *** The command entry points *)

(** Modelled from the spec: [NamespaceString::isServerConfigurationCollection]
    (namespace_string.h); the source names the collection in its message,
    [admin.system.version]. *)
Definition isServerConfigurationCollection (n : NamespaceString) : bool :=
  bool_decide (db n = "admin") && bool_decide (coll n = "system.version").

(** Lines 767-813.  [NamespaceString::isValid] is declared outside the
    source file and is taken as the parameter [isValid]. *)
Definition validateAndRunRenameCollection (isValid : NamespaceString -> bool)
  (source target : NamespaceString) (dropTarget stayTemp : bool) : M unit :=
  let* _ := uassert InvalidNamespace (isValid source) in
  let* _ := uassert InvalidNamespace (isValid target) in
  let* s := get in
  let* _ :=
    (if negb (bool_decide (getReplicationMode (env s) = modeNone)) then
       let* _ := uassert IllegalOperation (negb (isOplog source)) in
       uassert IllegalOperation (negb (isOplog target))
     else ret tt) in
  let* _ := uassert IllegalOperation (eqb (isOplog source) (isOplog target)) in
  let sourceStatus := userAllowedWriteNS (env s) source in
  let* _ := uassert IllegalOperation (isOK sourceStatus) in
  let targetStatus := userAllowedWriteNS (env s) target in
  let* _ := uassert IllegalOperation (isOK targetStatus) in
  let* _ :=
    (if isServerConfigurationCollection source then
       throw (DBException IllegalOperation)
     else ret tt) in
  let options := mkRenameOptions dropTarget stayTemp in
  let* status := renameCollection source target options in
  uassertStatusOK status.

#[global] Instance BSONElement_eq_dec : EqDecision BSONElement.
Proof. solve_decision. Defined.

(** Modelled from the spec: [BSONObj::removeField] drops the fields of the
    given name, and [CollectionOptions::toBSON] writes the UUID, the [temp]
    flag and the other options of a collection as a document. *)
Definition removeField (o : BSONObj) (name : string) : BSONObj :=
  List.filter (fun kv => negb (bool_decide (fst kv = name))) o.

Definition CollectionOptions_toBSON (o : CollectionOptions) : BSONObj :=
  match opt_uuid o with
  | Some u => [("uuid", BBinData (Some u))]
  | None => []
  end
  ++ (if opt_temp o then [("temp", BBool true)] else [])
  ++ opt_rest o.

(** Modelled from the spec: [listIndexesEmptyListIfMissing(nss,
    includeBuildUUIDs = false)] gives the index descriptors of the
    collection under the namespace, and no descriptor when there is none. *)
Definition listIndexesEmptyListIfMissing (n : NamespaceString) (s : OpCtx)
  : list BSONObj :=
  match lookupCollectionByNamespace n s with
  | Some c => map (fun e => infoObj (descriptor e)) (indexCatalog c)
  | None => []
  end.

(** [std::equal(first1, last1, first2, eq)]: the elements of the first range
    against those of the second, position by position. *)
Fixpoint std_equal (l1 l2 : list BSONObj) : bool :=
  match l1, l2 with
  | [], _ => true
  | x :: r1, y :: r2 => bool_decide (x = y) && std_equal r1 r2
  | _ :: _, [] => false
  end.

(** Lines 724-765.  [AutoGetDb] takes the database lock and gives the
    database, or null. *)
Definition doLocalRenameIfOptionsAndIndexesHaveNotChanged
  (isValid : NamespaceString -> bool) (sourceNs targetNs : NamespaceString)
  (dropTarget stayTemp : bool) (originalIndexes : list BSONObj)
  (originalCollectionOptions : BSONObj) : M unit :=
  lockScope (
    let* _ := DBLock (db targetNs) MODE_X in
    let* s := get in
    let collection :=
      match getDb (db targetNs) s with
      | Some _ => lookupCollectionByNamespace targetNs s
      | None => None
      end in
    let collectionOptions :=
      match collection with
      | Some c => removeField (CollectionOptions_toBSON (collOptions c)) "uuid"
      | None => []
      end in
    let* _ := uassert CommandFailed
                (bool_decide (removeField originalCollectionOptions "uuid"
                              = collectionOptions)) in
    let currentIndexes := listIndexesEmptyListIfMissing targetNs s in
    let* _ := uassert CommandFailed
                (bool_decide (length originalIndexes = length currentIndexes)
                 && std_equal originalIndexes currentIndexes) in
    validateAndRunRenameCollection isValid sourceNs targetNs dropTarget stayTemp).

(** * The vocabulary of the properties *)

(** ** A concrete deployment, used to run the model *)

Module Fixture.

Definition env0 : Env :=
  mkEnv (fun n => bool_decide (coll n = "sharded"))
        (fun w n => negb w || bool_decide (db n = "local"))
        (fun _ => true) modeReplSet (fun _ => true) (fun _ => false) (fun _ => false)
        (fun _ => OK) (fun full => N.of_nat (String.length full)) false 2
        (fun n => (1000 + N.of_nat n)%N) (fun _ => OK) (fun _ => OK)
        (fun w _ _ => if w then mkOpTime 7 1 else nullOpTime) false (fun _ => []).

Definition doc (n : Z) : BSONObj := [("a", BNumber n)].

Definition nssX := mkNss "db1" "x".
Definition nssY := mkNss "db1" "y".
Definition nssZ := mkNss "db1" "z".
Definition nssSharded := mkNss "db1" "sharded".
Definition nssView := mkNss "db1" "v".
Definition nssOther := mkNss "db2" "y".

Definition collX : Collection :=
  mkCollection 1 nssX 1%N (mkOptions (Some 1%N) false [])
    [mkRecord 1 (doc 10); mkRecord 2 (doc 20); mkRecord 3 (doc 30);
     mkRecord 4 (doc 40); mkRecord 5 (doc 50)]
    [idIndexEntry; mkEntry (mkDescriptor false [("name", BString "a_1")]) true].

Definition collY : Collection :=
  mkCollection 2 nssY 2%N (mkOptions (Some 2%N) false []) [mkRecord 1 (doc 99)]
    [idIndexEntry].

Definition collSharded : Collection :=
  mkCollection 3 nssSharded 3%N (mkOptions (Some 3%N) false []) [] [idIndexEntry].

(** A primary of a replica set: [db1] holds [x], [y], a sharded collection
    and the view [v]. *)
Definition primary : OpCtx :=
  mkOpCtx env0 [collX; collY; collSharded] [mkDatabase "db1" false ["db1.v"]]
    true [] false [] [] [] 0 ["aaaaa"; "bbbbb"] 1 (mkCursor [] [] false) None Unowned.

(** The same node while it applies operations: writes are not replicated. *)
Definition secondary : OpCtx := set_writesAreReplicated false primary.

(** A catalog in which a collection of another database carries the UUID of
    [db1.x]: it breaks the rule of one UUID per live collection. *)
Definition collTwin : Collection :=
  mkCollection 4 nssOther 1%N (mkOptions (Some 1%N) false []) [] [idIndexEntry].

Definition twins : OpCtx :=
  mkOpCtx env0 [collX; collTwin]
    [mkDatabase "db1" false []; mkDatabase "db2" false []]
    true [] false [] [] [] 0 ["aaaaa"; "bbbbb"] 1 (mkCursor [] [] false) None Unowned.

End Fixture.

(** ** The precondition checker *)

(** What the checker asks of the source before it looks at the target:
    checks 1 to 6 of the precondition checker pass. *)
Definition sourceAccepted (source target : NamespaceString) (s : OpCtx) : Prop :=
  writesAreReplicated s && negb (canAcceptWritesFor (env s) source) = false
  /\ negb (useRenameCollectionPathThroughConfigsvr (env s))
     && isCollectionSharded source s = false
  /\ isReplicatedChanged source target s = false
  /\ (exists d, getDb (db source) s = Some d /\ db_dropPending d = false)
  /\ (exists c, lookupCollectionByNamespace source s = Some c
                /\ bgOpInProgForNs (env s) (ns source) = false
                /\ indexBuildInProgForCollection (env s) (uuid c) = false).

(** The three ways in which the target makes the checker fail, with the
    error each one gives. *)
Inductive TargetRule (s : OpCtx) (source target : NamespaceString)
  (options : RenameCollectionOptions) (targetExistsAllowed : bool) : ErrorCode -> Prop :=
| ShardedTarget tc :
    lookupCollectionByNamespace target s = Some tc ->
    isCollectionSharded target s = true ->
    TargetRule s source target options targetExistsAllowed IllegalOperation
| ExistingTarget tc :
    lookupCollectionByNamespace target s = Some tc ->
    isCollectionSharded target s = false ->
    targetExistsAllowed = false ->
    dropTarget options = false ->
    TargetRule s source target options targetExistsAllowed NamespaceExists
| ViewTarget d :
    lookupCollectionByNamespace target s = None ->
    db source = db target ->
    getDb (db target) s = Some d ->
    viewLookup d (ns target) = true ->
    TargetRule s source target options targetExistsAllowed NamespaceExists.

(** ** The apply-ops entry point *)

(** The namespace the apply-ops entry point takes as its source: the one
    [uuidToRename] resolves to, else the one parsed from the command. *)
Definition effectiveSource (s : OpCtx) (uuidToRename : option UUID) (parsed : string)
  : NamespaceString :=
  match uuidToRename with
  | Some u =>
      match lookupNSSByUUID u s with
      | Some nss => nss
      | None => parseNss parsed
      end
  | None => parseNss parsed
  end.

(** ** The trace of a computation *)

(** The events a run has added to the trace. *)
Definition newEvents (s s' : OpCtx) : list Event :=
  skipn (length (events s)) (events s').

(** [appends P m]: [m] only ever adds events to the trace, and each event it
    adds satisfies [P]. *)
Definition appends {A} (P : Event -> Prop) (m : M A) : Prop :=
  forall s, exists new, events (snd (m s)) = events s ++ new /\ Forall P new.

(** Events that are not lock acquisitions. *)
Definition notLock (e : Event) : Prop :=
  match e with
  | EvLockDB _ _ | EvLockCollection _ _ => False
  | _ => True
  end.

(** ** The lock planner of the same-database rename *)

(** The collection locks of a trace, in the order they were taken. *)
Definition collectionLocks (evs : list Event) : list (NamespaceString * LockMode) :=
  flat_map (fun e => match e with
                     | EvLockCollection n m => [(n, m)]
                     | _ => []
                     end) evs.

(** ** The cross-database rename: a target with the UUID of the source *)

(** The checks of [renameBetweenDBs] that come before it looks at the
    target (lines 476-515). *)
Definition crossChecksPass (source target : NamespaceString) (s : OpCtx) : Prop :=
  dbVersionOk (env s) (db source) = true
  /\ negb (useRenameCollectionPathThroughConfigsvr (env s))
     && isCollectionSharded source s = false
  /\ isReplicatedChanged source target s = false
  /\ bgOpInProgForNs (env s) (ns source) = false
  /\ (forall c, lookupCollectionByNamespace source s = Some c ->
                indexBuildInProgForCollection (env s) (uuid c) = false).

(** *** Steps that keep a property of the catalog *)

(** [keeps J m]: whatever [m] does, a catalog that satisfies [J] before
    satisfies it after. *)
Definition keeps {A} (J : list Collection -> Prop) (m : M A) : Prop :=
  forall s, J (catalog s) -> J (catalog (snd (m s))).

(** A change of the contents of the objects: names and UUIDs stay. *)
Definition contentOnly (f : Collection -> Collection) : Prop :=
  forall c, c_ns (f c) = c_ns c /\ uuid (f c) = uuid c.

(** *** The cross-database rename, phase by phase *)

(** The property the staging phase keeps: the collection under the staging
    name has the generated UUID. *)
Definition stagedAs (tmpName : NamespaceString) (fresh : UUID) (l : list Collection)
  : Prop :=
  uuid <$> findByNs tmpName l = Some fresh.

(** ** The bulk copy under write conflicts *)

(** Every insert of the script succeeds: the write conflicts of the run are
    those the fail point raises at the end of a batch. *)
Definition everyInsertSucceeds (s : OpCtx) : Prop :=
  Forall (fun o => o = InsertOK) (insertOutcomes s).

(** The run without write conflicts: the fail point never fires and every
    insert succeeds. *)
Definition withoutConflicts (s : OpCtx) : OpCtx :=
  set_failPoint [] (set_insertOutcomes [] s).

(** The documents of the staging collection, in insertion order. *)
Definition docsOf (tmpColl : Collection) (l : list Collection) : option (list BSONObj) :=
  (fun c => map data (records c))
    <$> find (fun c => bool_decide (addr c = addr tmpColl)) l.

(** The cursor stands on record number [k] of the store (past the end when
    [k] is the length) and is not saved, and the buffer of the current
    record has not been handed over. *)
Definition cursorAt (store : list Record_) (k : nat) (s : OpCtx) : Prop :=
  cur_store (cursor s) = store
  /\ cur_saved (cursor s) = false
  /\ record s = store !! k
  /\ cur_rest (cursor s) = drop (S k) store
  /\ (k <= length store)%nat
  /\ recordBuffer s <> Released.

(** The documents of the records from [k] up to [k1]. *)
Definition segment (store : list Record_) (k k1 : nat) : list BSONObj :=
  map data (take (k1 - k) (drop k store)).

(** What a step of the copy leaves alone. *)
Definition sameSetting (s s' : OpCtx) : Prop :=
  env s' = env s
  /\ committed s' = committed s
  /\ writeConflictInRenameCollCopyToTmp s' = writeConflictInRenameCollCopyToTmp s.

Module CopyFixture.
Import Fixture.

(** The staging collection of a rename of [db1.x] into [db2], still empty. *)
Definition collTmp : Collection :=
  mkCollection 5 (mkNss "db2" "tmpaaaaa.renameCollection") 5%N
    (mkOptions (Some 5%N) true []) [] [idIndexEntry].

(** The copy is about to start; the fail point fires at the end of the
    first and of the third attempt, and the second insert meets a write
    conflict. *)
Definition copying : OpCtx :=
  mkOpCtx env0 [collX; collTmp]
    [mkDatabase "db1" false []; mkDatabase "db2" false []]
    true [] false [] [true; false; true] [InsertOK; InsertWriteConflict; InsertOK]
    0 ["aaaaa"; "bbbbb"] 1 (mkCursor [] [] false) None Unowned.

(** The same with one write conflict only, met by the third insert: with
    the batch size 2 of [env0], that is the first insert of the second
    batch. *)
Definition conflictAtBatchStart : OpCtx :=
  set_failPoint [] (set_insertOutcomes [InsertOK; InsertOK; InsertWriteConflict] copying).

End CopyFixture.

(** ** The index descriptions of the cross-database rename *)

(** Events other than the creation of indexes. *)
Definition notCreateIndexes (e : Event) : Prop :=
  match e with
  | EvCreateIndexes _ _ => False
  | _ => True
  end.

(** The index creations of a trace carry the descriptions collected from
    [sc] by the loop of lines 608-617. *)
Definition copiesIndexesOf (sc : Collection) (e : Event) : Prop :=
  match e with
  | EvCreateIndexes _ specs => specs = indexesToCopyOf sc
  | _ => True
  end.

(** The same at one state: what a run from [s] adds to the trace. *)
Definition appendsAt {A} (P : Event -> Prop) (m : M A) (s : OpCtx) : Prop :=
  exists new, events (snd (m s)) = events s ++ new /\ Forall P new.

(** Steps that leave the catalog and the environment alone. *)
Definition quiet {A} (m : M A) : Prop :=
  forall s a s1, m s = (Ret a, s1) -> catalog s1 = catalog s /\ env s1 = env s.

(** What the index creations of a cross-database rename from [s] carry. *)
Definition sourceIndexEvent (source : NamespaceString) (s : OpCtx) (e : Event) : Prop :=
  match e with
  | EvCreateIndexes _ specs =>
      exists sc,
        lookupCollectionByNamespace source s = Some sc
        /\ indexBuildInProgForCollection (env s) (uuid sc) = false
        /\ specs = indexesToCopyOf sc
  | _ => True
  end.

(** The serialized descriptors of the ready indexes of a collection other
    than the [_id] index, in the order of its index catalog. *)
Definition readyIndexSpecs (c : Collection) : list BSONObj :=
  map (fun e => infoObj (descriptor e))
      (List.filter (fun e => isReady e && negb (isIdIndex (descriptor e)))
                   (indexCatalog c)).

Module IndexFixture.
Import Fixture.

(** A collection with a ready index [a_1] and an index [b_1] whose build
    has not finished. *)
Definition collBuilding : Collection :=
  mkCollection 6 (mkNss "db1" "b") 6%N (mkOptions (Some 6%N) false []) []
    [idIndexEntry;
     mkEntry (mkDescriptor false [("name", BString "a_1")]) true;
     mkEntry (mkDescriptor false [("name", BString "b_1")]) false].

(** The environment of [env0] in which the coordinator has a build
    registered for that collection. *)
Definition envBuilding : Env :=
  mkEnv (isSharded env0) (isOplogDisabledFor env0) (canAcceptWritesFor env0)
        (getReplicationMode env0) (dbVersionOk env0) (bgOpInProgForNs env0)
        (fun u => bool_decide (u = 6%N)) (userAllowedWriteNS env0)
        (collectionResourceId env0) (useRenameCollectionPathThroughConfigsvr env0)
        (internalInsertMaxBatchSize env0) (uuidGen env0) (dropCollectionResult env0)
        (createIndexesResult env0) (observerPreRenameOpTime env0)
        (interruptPending env0) (releasedBufferRead env0).

Definition building : OpCtx :=
  mkOpCtx envBuilding [collX; collBuilding] [mkDatabase "db1" false []]
    true [] false [] [] [] 0 ["aaaaa"; "bbbbb"] 1 (mkCursor [] [] false) None Unowned.

(** The same catalog while the coordinator has no build registered: the
    index [b_1] is in the index catalog, unfinished, and nothing is building
    it. *)
Definition unregistered : OpCtx :=
  mkOpCtx env0 [collX; collBuilding] [mkDatabase "db1" false []]
    true [] false [] [] [] 0 ["aaaaa"; "bbbbb"] 1 (mkCursor [] [] false) None Unowned.

End IndexFixture.

(** The index creations of a trace. *)
Definition indexCreations (evs : list Event) : list (UUID * list BSONObj) :=
  flat_map (fun e => match e with
                     | EvCreateIndexes u specs => [(u, specs)]
                     | _ => []
                     end) evs.

(** ** The precondition checker: when it passes *)

(** What the checker asks of the target once the source is accepted: a
    collection under the target name is not sharded and may be replaced; if
    there is none, no view of the source's database has that name. *)
Definition targetAccepted (source target : NamespaceString)
  (options : RenameCollectionOptions) (targetExistsAllowed : bool) (s : OpCtx) : Prop :=
  match lookupCollectionByNamespace target s with
  | Some _ =>
      isCollectionSharded target s = false
      /\ targetExistsAllowed || dropTarget options = true
  | None =>
      forall d, getDb (db source) s = Some d -> viewLookup d (ns target) = false
  end.

(** The ways in which the source makes the checker fail, in the order of
    the checks, each with what the call gives: a status, or the exception of
    a failed assertion. *)
Inductive SourceRule (s : OpCtx) (source target : NamespaceString)
  : Outcome Status -> Prop :=
| NotPrimary :
    writesAreReplicated s = true ->
    canAcceptWritesFor (env s) source = false ->
    SourceRule s source target (Ret (Error NotMaster))
| ShardedSource :
    writesAreReplicated s && negb (canAcceptWritesFor (env s) source) = false ->
    useRenameCollectionPathThroughConfigsvr (env s) = false ->
    isCollectionSharded source s = true ->
    SourceRule s source target (Ret (Error IllegalOperation))
| ReplicationBoundary :
    writesAreReplicated s && negb (canAcceptWritesFor (env s) source) = false ->
    negb (useRenameCollectionPathThroughConfigsvr (env s))
      && isCollectionSharded source s = false ->
    isReplicatedChanged source target s = true ->
    SourceRule s source target (Ret (Error IllegalOperation))
| NoDatabase :
    writesAreReplicated s && negb (canAcceptWritesFor (env s) source) = false ->
    negb (useRenameCollectionPathThroughConfigsvr (env s))
      && isCollectionSharded source s = false ->
    isReplicatedChanged source target s = false ->
    getDb (db source) s = None ->
    SourceRule s source target (Ret (Error NamespaceNotFound))
| DropPendingDatabase d :
    writesAreReplicated s && negb (canAcceptWritesFor (env s) source) = false ->
    negb (useRenameCollectionPathThroughConfigsvr (env s))
      && isCollectionSharded source s = false ->
    isReplicatedChanged source target s = false ->
    getDb (db source) s = Some d ->
    db_dropPending d = true ->
    SourceRule s source target (Ret (Error NamespaceNotFound))
| ViewSource d :
    writesAreReplicated s && negb (canAcceptWritesFor (env s) source) = false ->
    negb (useRenameCollectionPathThroughConfigsvr (env s))
      && isCollectionSharded source s = false ->
    isReplicatedChanged source target s = false ->
    getDb (db source) s = Some d ->
    db_dropPending d = false ->
    lookupCollectionByNamespace source s = None ->
    viewLookup d (ns source) = true ->
    SourceRule s source target (Ret (Error CommandNotSupportedOnView))
| NoSource d :
    writesAreReplicated s && negb (canAcceptWritesFor (env s) source) = false ->
    negb (useRenameCollectionPathThroughConfigsvr (env s))
      && isCollectionSharded source s = false ->
    isReplicatedChanged source target s = false ->
    getDb (db source) s = Some d ->
    db_dropPending d = false ->
    lookupCollectionByNamespace source s = None ->
    viewLookup d (ns source) = false ->
    SourceRule s source target (Ret (Error NamespaceNotFound))
| BusySource d c :
    writesAreReplicated s && negb (canAcceptWritesFor (env s) source) = false ->
    negb (useRenameCollectionPathThroughConfigsvr (env s))
      && isCollectionSharded source s = false ->
    isReplicatedChanged source target s = false ->
    getDb (db source) s = Some d ->
    db_dropPending d = false ->
    lookupCollectionByNamespace source s = Some c ->
    bgOpInProgForNs (env s) (ns source)
      || indexBuildInProgForCollection (env s) (uuid c) = true ->
    SourceRule s source target
      (Throw (DBException BackgroundOperationInProgressForNamespace)).

(** ** The same-database rename *)

(** The observer calls that report a rename as done. *)
Definition completionEvent (e : Event) : Prop :=
  match e with
  | EvOnRenameCollection _ _ _ _ _ _ | EvPostRenameCollection _ _ _ _ _ => True
  | _ => False
  end.

(** The calls that drop a collection. *)
Definition dropCall (e : Event) : Prop :=
  match e with
  | EvDbDropCollection _ _ _ | EvDropCollectionForApplyOps _ _ => True
  | _ => False
  end.

(** ** The apply-ops entry point *)

(** The ways in which an oplog entry is refused for its form, in the order
    of the checks, each with what the call gives. *)
Inductive FormRule (s : OpCtx) (cmd : BSONObj) (renameOpTime : OpTime)
  : Outcome Status -> Prop :=
| SourceNotString :
    negb (isNull renameOpTime) && writesAreReplicated s = false ->
    isString (firstElement cmd) = false ->
    FormRule s cmd renameOpTime (Throw (DBException TypeMismatch))
| TargetNotString :
    negb (isNull renameOpTime) && writesAreReplicated s = false ->
    isString (firstElement cmd) = true ->
    isString (getField cmd "to") = false ->
    FormRule s cmd renameOpTime (Throw (DBException TypeMismatch))
| UnreadableUUID :
    negb (isNull renameOpTime) && writesAreReplicated s = false ->
    isString (firstElement cmd) = true ->
    isString (getField cmd "to") = true ->
    getField cmd "dropTarget" = BBinData None ->
    FormRule s cmd renameOpTime (Throw (DBException InvalidUUID))
| TargetNotWritable c :
    negb (isNull renameOpTime) && writesAreReplicated s = false ->
    isString (firstElement cmd) = true ->
    isString (getField cmd "to") = true ->
    getField cmd "dropTarget" <> BBinData None ->
    userAllowedWriteNS (env s) (parseNss (valueStringData (getField cmd "to")))
    = Error c ->
    FormRule s cmd renameOpTime (Ret (Error c))
| OplogTarget :
    negb (isNull renameOpTime) && writesAreReplicated s = false ->
    isString (firstElement cmd) = true ->
    isString (getField cmd "to") = true ->
    getField cmd "dropTarget" <> BBinData None ->
    userAllowedWriteNS (env s) (parseNss (valueStringData (getField cmd "to"))) = OK ->
    getReplicationMode (env s) = modeNone ->
    isOplog (parseNss (valueStringData (getField cmd "to"))) = true ->
    FormRule s cmd renameOpTime (Ret (Error IllegalOperation)).

(** ** The command entry points *)

(** The request passes the checks of [validateAndRunRenameCollection]. *)
Definition validRequest (isValid : NamespaceString -> bool)
  (source target : NamespaceString) (s : OpCtx) : bool :=
  isValid source && isValid target
  && (bool_decide (getReplicationMode (env s) = modeNone)
      || negb (isOplog source) && negb (isOplog target))
  && eqb (isOplog source) (isOplog target)
  && isOK (userAllowedWriteNS (env s) source)
  && isOK (userAllowedWriteNS (env s) target)
  && negb (isServerConfigurationCollection source).

(** The options of the collection under the target name as the comparison
    of [doLocalRenameIfOptionsAndIndexesHaveNotChanged] sees them: the
    [temp] flag and the other options, without any UUID; no options when no
    collection is there. *)
Definition comparedOptions (targetNs : NamespaceString) (s : OpCtx) : BSONObj :=
  match getDb (db targetNs) s, lookupCollectionByNamespace targetNs s with
  | Some _, Some c =>
      (if opt_temp (collOptions c) then [("temp", BBool true)] else [])
      ++ removeField (opt_rest (collOptions c)) "uuid"
  | _, _ => []
  end.

(** ** The cross-database rename: what the copy carries over *)

(** A change of the records of the objects: addresses, names, UUIDs,
    options and indexes stay. *)
Definition recordsOnly (f : Collection -> Collection) : Prop :=
  forall c, addr (f c) = addr c /\ c_ns (f c) = c_ns c /\ uuid (f c) = uuid c
            /\ collOptions (f c) = collOptions c
            /\ indexCatalog (f c) = indexCatalog c.

(** The staging collection is the first object of the catalog, with the
    index catalog [ix]. *)
Definition stagedHead (tmpColl : Collection) (ix : list IndexCatalogEntry)
  (l : list Collection) : Prop :=
  exists c rest,
    l = c :: rest /\ addr c = addr tmpColl /\ c_ns c = c_ns tmpColl
    /\ uuid c = uuid tmpColl /\ collOptions c = collOptions tmpColl
    /\ indexCatalog c = ix.

(** ** The cleanup of the staging collection *)

(** Steps that leave the environment's answers as they are, whatever their
    outcome. *)
Definition sameEnv {A} (m : M A) : Prop := forall s, env (snd (m s)) = env s.

(** The first object of the catalog is the only one under the name [n]. *)
Definition onlyAtHead (n : NamespaceString) (l : list Collection) : Prop :=
  exists c rest, l = c :: rest /\ c_ns c = n /\ findByNs n rest = None.

(** * Properties *)

Ltac unfold_m :=
  unfold bind, ret, get, modify, emit, throw, fatal, uassert, invariant,
         uassertStatusOK, assertNoBgOpInProgForNs,
         assertNoIndexBuildInProgForCollection, checkDbVersion,
         lookupCollectionByNamespace, getNamespaceFromUUID, lookupNSSByUUID,
         isCollectionSharded, isReplicatedChanged, getDb in *.

Ltac msimpl := repeat (progress (unfold_m; simpl in *)).

(** ** The precondition checker *)

#[local] Arguments ns : simpl never.
#[local] Arguments viewLookup : simpl never.

Lemma check_target_collection s source target options allowed tc :
  sourceAccepted source target s ->
  lookupCollectionByNamespace target s = Some tc ->
  checkSourceAndTargetNamespaces source target options allowed s =
  (Ret (if isCollectionSharded target s then Error IllegalOperation
        else if negb allowed && negb (dropTarget options) then Error NamespaceExists
        else OK), s).
Proof.
  intros (H1 & H2 & H3 & (d & Hd & Hp) & (c & Hc & Hbg & Hib)) Ht.
  unfold checkSourceAndTargetNamespaces. msimpl.
  rewrite H1, H2, H3, Hd, Hp, Hc. msimpl. rewrite Hbg. msimpl. rewrite Hib. msimpl.
  rewrite Ht.
  destruct (isSharded (env s) target); [reflexivity|].
  destruct (negb allowed && negb (dropTarget options)); reflexivity.
Qed.

Lemma check_target_view s source target options allowed d :
  sourceAccepted source target s ->
  lookupCollectionByNamespace target s = None ->
  getDb (db source) s = Some d ->
  checkSourceAndTargetNamespaces source target options allowed s =
  (Ret (if viewLookup d (ns target) then Error NamespaceExists else OK), s).
Proof.
  intros (H1 & H2 & H3 & (d' & Hd & Hp) & (c & Hc & Hbg & Hib)) Ht Hd'.
  unfold checkSourceAndTargetNamespaces. msimpl.
  assert (d' = d) by congruence. subst d'.
  rewrite H1, H2, H3, Hd, Hp, Hc. msimpl. rewrite Hbg. msimpl. rewrite Hib. msimpl.
  rewrite Ht.
  destruct (viewLookup d (ns target)); reflexivity.
Qed.

(** The checker never changes the state. *)
Lemma check_state s source target options allowed :
  snd (checkSourceAndTargetNamespaces source target options allowed s) = s.
Proof.
  unfold checkSourceAndTargetNamespaces. msimpl.
  repeat match goal with
         | |- context [if ?b then _ else _] => destruct b; simpl; try reflexivity
         | |- context [match ?x with _ => _ end] => destruct x; simpl; try reflexivity
         end.
Qed.

(** Whatever the earlier checks say, a target that is a sharded collection,
    an existing collection that may not be dropped, or a view is never
    accepted. *)
Lemma check_target_rejected s source target options allowed :
  (match lookupCollectionByNamespace target s with
   | Some _ => isCollectionSharded target s = true
               \/ (allowed = false /\ dropTarget options = false)
   | None => exists d, getDb (db source) s = Some d /\ viewLookup d (ns target) = true
   end) ->
  fst (checkSourceAndTargetNamespaces source target options allowed s) <> Ret OK.
Proof.
  intros H. unfold checkSourceAndTargetNamespaces. msimpl.
  repeat match goal with
         | |- context [if ?b then _ else _] => destruct b eqn:?; simpl; try discriminate
         | |- context [match ?x with _ => _ end] => destruct x eqn:?; simpl; try discriminate
         end;
  try (destruct H as [H|[H1 H2]]; [congruence|]; rewrite H1, H2 in *; simpl in *;
       congruence);
  try (destruct H as (d0 & Hd & Hv); simplify_eq; congruence).
Qed.

(** C5. In the precondition checker, a target that resolves to a sharded
    collection gives [IllegalOperation]; a target that resolves to a
    collection, when neither [targetExistsAllowed] nor [dropTarget] holds,
    gives [NamespaceExists]; a target that resolves to a view and not to a
    collection gives [NamespaceExists].  In each of these cases the call
    fails whatever the earlier checks say, and fails with that very error
    once the checks on the source (1 to 6, which come first) have passed;
    the sharding check comes before the existence check. *)
Theorem checkSourceAndTargetNamespaces_target_rules
  s source target options targetExistsAllowed code :
  TargetRule s source target options targetExistsAllowed code ->
  fst (checkSourceAndTargetNamespaces source target options targetExistsAllowed s)
    <> Ret OK
  /\ (sourceAccepted source target s ->
      checkSourceAndTargetNamespaces source target options targetExistsAllowed s
      = (Ret (Error code), s)).
Proof.
  intros R. split.
  - apply check_target_rejected.
    destruct R as [tc Ht Hs | tc Ht Hs Ha Hd | d Ht Hdb Hd Hv]; rewrite Ht; eauto.
    rewrite Hdb. eauto.
  - intros Hacc.
    destruct R as [tc Ht Hs | tc Ht Hs Ha Hd | d Ht Hdb Hd Hv].
    + rewrite (check_target_collection _ _ _ _ _ tc Hacc Ht), Hs. reflexivity.
    + rewrite (check_target_collection _ _ _ _ _ tc Hacc Ht), Hs, Ha, Hd. reflexivity.
    + rewrite <- Hdb in Hd.
      rewrite (check_target_view _ _ _ _ _ d Hacc Ht Hd), Hv. reflexivity.
Qed.

Lemma checkSourceAndTargetNamespaces_target_rules_witness :
  fst (checkSourceAndTargetNamespaces Fixture.nssX Fixture.nssSharded
         defaultRenameOptions false Fixture.primary) <> Ret OK
  /\ checkSourceAndTargetNamespaces Fixture.nssX Fixture.nssSharded
        defaultRenameOptions false Fixture.primary
      = (Ret (Error IllegalOperation), Fixture.primary).
Proof.
  destruct (checkSourceAndTargetNamespaces_target_rules Fixture.primary Fixture.nssX
              Fixture.nssSharded defaultRenameOptions false IllegalOperation) as [H1 H2].
  - apply (ShardedTarget _ _ _ _ _ Fixture.collSharded); reflexivity.
  - split; [exact H1|]. apply H2.
    repeat split; try reflexivity.
    + exists (mkDatabase "db1" false ["db1.v"]). split; reflexivity.
    + exists Fixture.collX. repeat split; reflexivity.
Defined.

(** ** The apply-ops entry point *)

(** C6. [renameCollectionForApplyOps] returns [BadValue] when the rename
    optime it is given is not null while writes are replicated on the node;
    so a call with a non-null optime that ends in anything else runs on a
    node whose writes are not replicated. *)
Theorem renameCollectionForApplyOps_optime_needs_unreplicated
  s dbName uuidToRename cmd renameOpTime :
  isNull renameOpTime = false ->
  (writesAreReplicated s = true ->
   renameCollectionForApplyOps dbName uuidToRename cmd renameOpTime s
   = (Ret (Error BadValue), s))
  /\ (fst (renameCollectionForApplyOps dbName uuidToRename cmd renameOpTime s)
      <> Ret (Error BadValue) ->
      writesAreReplicated s = false).
Proof.
  intros Hnull.
  assert (Hrep : writesAreReplicated s = true ->
                 renameCollectionForApplyOps dbName uuidToRename cmd renameOpTime s
                 = (Ret (Error BadValue), s)).
  { intros Hw. unfold renameCollectionForApplyOps. msimpl.
    rewrite Hnull, Hw. reflexivity. }
  split; [exact Hrep|].
  intros Hne. destruct (writesAreReplicated s) eqn:Hw; [|reflexivity].
  rewrite (Hrep eq_refl) in Hne. exfalso. apply Hne. reflexivity.
Qed.

Lemma renameCollectionForApplyOps_optime_needs_unreplicated_witness :
  renameCollectionForApplyOps "db1" None
    [("renameCollection", BString "db1.x"); ("to", BString "db1.z")]
    (mkOpTime 5 1) Fixture.primary
  = (Ret (Error BadValue), Fixture.primary).
Proof.
  apply (proj1 (renameCollectionForApplyOps_optime_needs_unreplicated
                  Fixture.primary "db1" None
                  [("renameCollection", BString "db1.x"); ("to", BString "db1.z")]
                  (mkOpTime 5 1) eq_refl)).
  reflexivity.
Defined.

Lemma findByUUID_none u l :
  Forall (fun c => uuid c <> u) l -> findByUUID u l = None.
Proof.
  induction 1 as [|c l Hc _ IH]; simpl; [reflexivity|].
  rewrite bool_decide_eq_false_2 by exact Hc. exact IH.
Qed.

(** A [dropTarget] field that carries a UUID also counts as a request to
    drop the target. *)
Lemma trueValue_BinData cmd parsed :
  getField cmd "dropTarget" = BBinData parsed ->
  trueValue (getField cmd "dropTarget") = true.
Proof. intros ->. reflexivity. Qed.

(** C9. In [renameCollectionForApplyOps], once the command has passed the
    checks on its form, when the source namespace is drop-pending or
    resolves to no collection and the command carries a UUID to drop that no
    live collection has, the call returns [NamespaceNotFound] and leaves the
    state as it was: nothing is dropped, whether or not a collection lives
    under the target name (the command does request [dropTarget], since a
    UUID in that field counts as true, but the result of the UUID lookup
    replaces the target as the namespace to drop). *)
Theorem renameCollectionForApplyOps_unknown_uuidToDrop
  s dbName uuidToRename cmd renameOpTime sourceText targetText u :
  negb (isNull renameOpTime) && writesAreReplicated s = false ->
  firstElement cmd = BString sourceText ->
  getField cmd "to" = BString targetText ->
  getField cmd "dropTarget" = BBinData (Some u) ->
  userAllowedWriteNS (env s) (parseNss targetText) = OK ->
  bool_decide (getReplicationMode (env s) = modeNone) && isOplog (parseNss targetText)
    = false ->
  isDropPendingNamespace (effectiveSource s uuidToRename sourceText) = true
  \/ lookupCollectionByNamespace (effectiveSource s uuidToRename sourceText) s = None ->
  Forall (fun c => uuid c <> u) (catalog s) ->
  trueValue (getField cmd "dropTarget") = true
  /\ renameCollectionForApplyOps dbName uuidToRename cmd renameOpTime s
     = (Ret (Error NamespaceNotFound), s).
Proof.
  intros H0 H1 H2 H3 H4 H5 H6 H7.
  split; [eapply trueValue_BinData; eassumption|].
  apply findByUUID_none in H7.
  unfold renameCollectionForApplyOps, effectiveSource, AutoGetCollectionForRead in *.
  msimpl. rewrite H0, H1, H2, H3. msimpl. rewrite H4, H5. msimpl.
  match goal with
  | |- context [isDropPendingNamespace ?n || bool_decide (?l = None)] =>
      assert (Hc : isDropPendingNamespace n || bool_decide (l = None) = true)
  end.
  { destruct H6 as [H6|H6]; rewrite H6; [reflexivity|].
    rewrite bool_decide_eq_true_2 by reflexivity. apply orb_true_r. }
  rewrite Hc. msimpl. rewrite H7. reflexivity.
Qed.

Lemma renameCollectionForApplyOps_unknown_uuidToDrop_witness :
  trueValue (getField [("renameCollection", BString "db1.gone"); ("to", BString "db1.y");
                       ("dropTarget", BBinData (Some 77%N))] "dropTarget") = true
  /\ renameCollectionForApplyOps "db1" None
       [("renameCollection", BString "db1.gone"); ("to", BString "db1.y");
        ("dropTarget", BBinData (Some 77%N))]
       (mkOpTime 5 1) Fixture.secondary
     = (Ret (Error NamespaceNotFound), Fixture.secondary).
Proof.
  apply (renameCollectionForApplyOps_unknown_uuidToDrop Fixture.secondary "db1" None
           _ (mkOpTime 5 1) "db1.gone" "db1.y" 77%N);
    try reflexivity.
  - right. reflexivity.
  - repeat constructor; discriminate.
Defined.

(** ** The trace of a computation *)

Lemma newEvents_app s s' new : events s' = events s ++ new -> newEvents s s' = new.
Proof.
  intros H. unfold newEvents. rewrite H.
  rewrite skipn_app, skipn_all, Nat.sub_diag. reflexivity.
Qed.

Section Appends.
Context (P : Event -> Prop).

Lemma appends_ret {A} (a : A) : appends P (ret a).
Proof. intros s. exists []. rewrite app_nil_r. auto. Qed.

Lemma appends_silent {A} (m : M A) :
  (forall s, events (snd (m s)) = events s) -> appends P m.
Proof. intros H s. exists []. rewrite app_nil_r. auto. Qed.

Lemma appends_bind {A B} (m : M A) (k : A -> M B) :
  appends P m -> (forall a, appends P (k a)) -> appends P (bind m k).
Proof.
  intros Hm Hk s. unfold bind.
  destruct (Hm s) as (n1 & E1 & F1).
  destruct (m s) as [[a|e|c|] s1]; simpl in *; eauto.
  destruct (Hk a s1) as (n2 & E2 & F2).
  exists (n1 ++ n2). rewrite E2, E1, app_assoc. split; [reflexivity|].
  apply Forall_app. auto.
Qed.

Lemma appends_emit e : P e -> appends P (emit e).
Proof. intros H s. exists [e]. simpl. auto. Qed.

Lemma appends_scoped {A} (body : M A) (cleanup : OpCtx -> OpCtx) :
  appends P body -> (forall s, events (cleanup s) = events s) ->
  appends P (fun s => scoped body cleanup s).
Proof.
  intros Hb Hc s. unfold scoped.
  destruct (Hb s) as (n & E & F).
  destruct (body s) as [[a|e|c|] s1]; simpl in *; rewrite ?Hc; eauto.
Qed.

Lemma appends_pre {A} (f : OpCtx -> OpCtx) (body : M A) :
  appends P body -> (forall s, events (f s) = events s) ->
  appends P (fun s => body (f s)).
Proof.
  intros Hb Hf s. destruct (Hb (f s)) as (n & E & F). rewrite Hf in E. eauto.
Qed.

Lemma appends_lockScope {A} (body : M A) : appends P body -> appends P (lockScope body).
Proof.
  intros Hb s. unfold lockScope.
  apply (appends_scoped body (set_lockState (lockState s)) Hb). reflexivity.
Qed.

Lemma appends_UnreplicatedWritesBlock {A} (body : M A) :
  appends P body -> appends P (UnreplicatedWritesBlock body).
Proof.
  intros Hb s. unfold UnreplicatedWritesBlock.
  apply (appends_scoped (fun s1 => body (set_writesAreReplicated false s1))
           (set_writesAreReplicated (writesAreReplicated s))); [|reflexivity].
  apply appends_pre; [exact Hb | reflexivity].
Qed.

Lemma appends_WriteUnitOfWork {A} (body : M A) :
  appends P body -> appends P (WriteUnitOfWork body).
Proof.
  intros Hb s. unfold WriteUnitOfWork.
  apply (appends_scoped (fun s1 => body (set_committed false s1))).
  - apply appends_pre; [exact Hb | reflexivity].
  - intros s'. destruct (committed s'); reflexivity.
Qed.

Lemma appends_writeConflictRetry_loop {A} (f : M A) n :
  appends P f -> appends P (writeConflictRetry_loop n f).
Proof.
  intros Hf. induction n as [|n IH]; intros s; simpl.
  - exists []. rewrite app_nil_r. auto.
  - destruct (Hf s) as (n1 & E1 & F1).
    destruct (f s) as [[a|[c|]|c|] s1]; simpl in *; eauto.
    destruct (IH s1) as (n2 & E2 & F2).
    exists (n1 ++ n2). rewrite E2, E1, app_assoc. split; [reflexivity|].
    apply Forall_app. auto.
Qed.

Lemma appends_writeConflictRetry {A} (f : M A) :
  appends P f -> appends P (writeConflictRetry f).
Proof.
  intros Hf s. unfold writeConflictRetry.
  apply appends_writeConflictRetry_loop. exact Hf.
Qed.
End Appends.

Ltac appends_silent := apply appends_silent; intros; reflexivity.

Ltac appends_step :=
  match goal with
  | |- appends _ (bind _ _) => apply appends_bind; [|intros]
  | |- appends _ (ret _) => apply appends_ret
  | |- appends _ (emit _) => apply appends_emit
  | |- appends _ (lockScope _) => apply appends_lockScope
  | |- appends _ (UnreplicatedWritesBlock _) => apply appends_UnreplicatedWritesBlock
  | |- appends _ (WriteUnitOfWork _) => apply appends_WriteUnitOfWork
  | |- appends _ (writeConflictRetry _) => apply appends_writeConflictRetry
  | |- appends _ (if ?b then _ else _) => destruct b
  | |- appends _ (match ?x with _ => _ end) => destruct x
  | |- appends _ (let _ := _ in _) => cbv zeta
  | |- appends _ get => appends_silent
  | |- appends _ (modify _) => appends_silent
  | |- appends _ (throw _) => appends_silent
  | |- appends _ (fatal _) => appends_silent
  | |- appends _ commit => appends_silent
  | |- appends _ (invariant _ _) => unfold invariant
  | |- appends _ (uassert _ _) => unfold uassert
  | |- appends _ (assertNoBgOpInProgForNs _) => unfold assertNoBgOpInProgForNs
  | |- appends _ (assertNoIndexBuildInProgForCollection _) =>
      unfold assertNoIndexBuildInProgForCollection
  | |- appends _ (checkDbVersion _) => unfold checkDbVersion
  | |- appends _ checkForInterrupt => unfold checkForInterrupt
  | |- appends _ nullDereference => unfold nullDereference
  | |- appends _ (assignRecord _) => appends_silent
  | |- appends _ (releaseToBson _) =>
      apply appends_silent; intros ?s; unfold releaseToBson;
      destruct (recordBuffer _); reflexivity
  | |- appends _ (makeOwned _) =>
      apply appends_silent; intros ?s; unfold makeOwned;
      destruct (recordBuffer _); reflexivity
  end.

Lemma appends_checkSourceAndTargetNamespaces P source target options allowed :
  appends P (checkSourceAndTargetNamespaces source target options allowed).
Proof.
  apply appends_silent. intros s. rewrite check_state. reflexivity.
Qed.

Lemma appends_Database_renameCollection source target stay :
  appends notLock (Database_renameCollection source target stay).
Proof. unfold Database_renameCollection. repeat appends_step. exact I. Qed.

Lemma appends_Database_dropCollection n t :
  appends notLock (Database_dropCollection n t).
Proof. unfold Database_dropCollection. repeat appends_step; exact I. Qed.

Lemma appends_renameCollectionDirectly theDb u source target options :
  appends notLock (renameCollectionDirectly theDb u source target options).
Proof.
  unfold renameCollectionDirectly, onRenameCollection.
  repeat (appends_step || apply appends_Database_renameCollection); exact I.
Qed.

Lemma appends_renameCollectionAndDropTarget theDb u source target tc options t :
  appends notLock (renameCollectionAndDropTarget theDb u source target tc options t).
Proof.
  unfold renameCollectionAndDropTarget, preRenameCollection, postRenameCollection.
  repeat (appends_step || apply appends_Database_renameCollection
          || apply appends_Database_dropCollection); exact I.
Qed.

(** ** The lock planner of the same-database rename *)

Lemma collectionLocks_notLock new : Forall notLock new -> collectionLocks new = [].
Proof.
  induction 1 as [|e l He _ IH]; simpl; [reflexivity|].
  rewrite IH. destruct e; simpl in *; try reflexivity; contradiction.
Qed.

Lemma appends_renameWithinDB_locked source target options :
  appends notLock (renameWithinDB_locked source target options).
Proof.
  unfold renameWithinDB_locked.
  repeat (appends_step || apply appends_checkSourceAndTargetNamespaces
          || apply appends_renameCollectionDirectly
          || apply appends_renameCollectionAndDropTarget).
Qed.

(** C7. In the same-database rename, once the database lock is held (the
    two namespaces are in one database and the database version is
    current), exactly two collection locks are taken, both exclusive, one on
    the source and one on the target.  If either namespace is
    [system.views], the one locked second is [system.views], and
    [system.views] is locked first only when both locks are on that same
    namespace; if neither is, the first lock is on the namespace whose
    collection resource id is not the larger. *)
Theorem renameCollectionWithinDB_lock_order s source target options :
  db source = db target ->
  dbVersionOk (env s) (db source) = true ->
  exists first second,
    collectionLocks
      (newEvents s (snd (renameCollectionWithinDB source target options s)))
    = [(first, MODE_X); (second, MODE_X)]
    /\ ((first = source /\ second = target) \/ (first = target /\ second = source))
    /\ (isSystemDotViews source || isSystemDotViews target = true ->
        isSystemDotViews second = true)
    /\ (isSystemDotViews first = true -> first = second)
    /\ (isSystemDotViews source = false -> isSystemDotViews target = false ->
        (collectionResourceId (env s) (ns first)
         <= collectionResourceId (env s) (ns second))%N).
Proof.
  intros Hdb Hver.
  assert (Hsame : isSystemDotViews source = true -> isSystemDotViews target = true ->
                  source = target).
  { unfold isSystemDotViews. intros H1 H2.
    apply bool_decide_eq_true_1 in H1. apply bool_decide_eq_true_1 in H2.
    destruct source, target; simpl in *; congruence. }
  unfold renameCollectionWithinDB.
  unfold lockScope, scoped, DBLock, CollectionLock.
  msimpl. rewrite bool_decide_eq_true_2 by exact Hdb. msimpl. rewrite Hver. msimpl.
  destruct (negb (isSystemDotViews source)
            && (isSystemDotViews target
                || (collectionResourceId (env s) (ns source)
                    <? collectionResourceId (env s) (ns target))%N)) eqn:Hc; msimpl.
  - exists source, target.
    match goal with
    | |- context [renameWithinDB_locked source target options ?s3] =>
        destruct (appends_renameWithinDB_locked source target options s3)
          as (new & E & F);
        destruct (renameWithinDB_locked source target options s3) as [[a|e|c|] s4]
    end; simpl in *;
    (split; [erewrite newEvents_app
               by (simpl; rewrite E; rewrite <- !app_assoc; reflexivity);
             simpl; rewrite collectionLocks_notLock by exact F; reflexivity|]).
    all: (split; [left; auto|]);
      destruct (isSystemDotViews source) eqn:Hs;
      destruct (isSystemDotViews target) eqn:Ht; simpl in Hc; try discriminate;
      repeat split; intros; try discriminate; try reflexivity; auto;
      apply N.ltb_lt in Hc; lia.
  - exists target, source.
    match goal with
    | |- context [renameWithinDB_locked source target options ?s3] =>
        destruct (appends_renameWithinDB_locked source target options s3)
          as (new & E & F);
        destruct (renameWithinDB_locked source target options s3) as [[a|e|c|] s4]
    end; simpl in *;
    (split; [erewrite newEvents_app
               by (simpl; rewrite E; rewrite <- !app_assoc; reflexivity);
             simpl; rewrite collectionLocks_notLock by exact F; reflexivity|]).
    all: (split; [right; auto|]);
      destruct (isSystemDotViews source) eqn:Hs;
      destruct (isSystemDotViews target) eqn:Ht; simpl in Hc; try discriminate;
      repeat split; intros; try discriminate; try reflexivity;
      try (symmetry; auto; fail);
      apply N.ltb_ge in Hc; lia.
Qed.

Lemma renameCollectionWithinDB_lock_order_witness :
  exists first second,
    collectionLocks
      (newEvents Fixture.primary
         (snd (renameCollectionWithinDB Fixture.nssX (mkNss "db1" "zz")
                 defaultRenameOptions Fixture.primary)))
    = [(first, MODE_X); (second, MODE_X)]
    /\ ((first = Fixture.nssX /\ second = mkNss "db1" "zz")
        \/ (first = mkNss "db1" "zz" /\ second = Fixture.nssX))
    /\ (isSystemDotViews Fixture.nssX || isSystemDotViews (mkNss "db1" "zz") = true ->
        isSystemDotViews second = true)
    /\ (isSystemDotViews first = true -> first = second)
    /\ (isSystemDotViews Fixture.nssX = false ->
        isSystemDotViews (mkNss "db1" "zz") = false ->
        (collectionResourceId (env Fixture.primary) (ns first)
         <= collectionResourceId (env Fixture.primary) (ns second))%N).
Proof.
  apply (renameCollectionWithinDB_lock_order Fixture.primary Fixture.nssX
           (mkNss "db1" "zz") defaultRenameOptions); reflexivity.
Defined.

Example lock_order_views_last :
  collectionLocks
    (newEvents Fixture.primary
       (snd (renameCollectionWithinDB (mkNss "db1" "system.views") Fixture.nssX
               defaultRenameOptions Fixture.primary)))
  = [(Fixture.nssX, MODE_X); (mkNss "db1" "system.views", MODE_X)].
Proof. vm_compute. reflexivity. Qed.

(** ** The swap-drop renamer *)

Lemma skipn_app_exact {A} (l r : list A) : skipn (length l) (l ++ r) = r.
Proof. rewrite skipn_app, skipn_all, Nat.sub_diag. reflexivity. Qed.

Lemma skipn_exact {A} (l : list A) : skipn (length l) l = [].
Proof. apply skipn_all. Qed.

(** Case analysis on the innermost conditions of the goal. *)
Ltac case_inner :=
  match goal with
  | |- context [match ?x with _ => _ end] =>
      tryif (match x with context [match _ with _ => _ end] => idtac end)
      then fail
      else (destruct x eqn:?; simpl in *)
  end.

Ltac case_all := repeat case_inner.

Ltac trace_simpl :=
  unfold newEvents; simpl; rewrite <- ?app_assoc; rewrite ?skipn_app_exact, ?skipn_exact;
  simpl.

(** C4. In the swap-drop renamer, when an apply-ops optime is supplied,
    every [dropCollection] the call makes is the drop of the target with
    that optime, and the drop is made with it whenever the call gets that
    far; a non-null log position from the observer's [preRenameCollection]
    then always ends the process (at the fatal log line 40616 once the
    invariants that open the function hold), that is the only way to reach
    the fatal line, and the line is not reached when writes are not
    replicated and the observer writes no log entry for unreplicated
    writes. *)
Theorem renameCollectionAndDropTarget_applyOps_optime
  s theDb u source target tc options renameOpTimeFromApplyOps :
  isNull renameOpTimeFromApplyOps = false ->
  let run := renameCollectionAndDropTarget theDb u source target tc options
               renameOpTimeFromApplyOps s in
  let observed := observerPreRenameOpTime (env s) (writesAreReplicated s) source target in
  (forall n t w, In (EvDbDropCollection n t w) (newEvents s (snd run)) ->
                 n = c_ns tc /\ t = renameOpTimeFromApplyOps /\ w = false)
  /\ (dropTarget options = true ->
      isOplogDisabledFor (env s) (writesAreReplicated s) target = true ->
      (isNull observed = false -> fst run = Fatal 40616)
      /\ (isNull observed = true ->
          bgOpInProgForNs (env s) (ns (c_ns tc)) = false ->
          indexBuildInProgForCollection (env s) (uuid tc) = false ->
          In (EvDbDropCollection (c_ns tc) renameOpTimeFromApplyOps false)
             (newEvents s (snd run))))
  /\ (isNull observed = false -> exists code, fst run = Fatal code)
  /\ (fst run = Fatal 40616 -> isNull observed = false)
  /\ (writesAreReplicated s = false ->
      (forall a b, isNull (observerPreRenameOpTime (env s) false a b) = true) ->
      fst run <> Fatal 40616).
Proof.
  intros Hnull run observed.
  assert (Hfatal : fst run = Fatal 40616 -> isNull observed = false).
  { subst run observed.
    unfold renameCollectionAndDropTarget, writeConflictRetry, WriteUnitOfWork,
      UnreplicatedWritesBlock, scoped, preRenameCollection, postRenameCollection,
      Database_dropCollection, Database_renameCollection.
    msimpl. rewrite Hnull. msimpl.
    case_all. all: intros H; try discriminate H;
      try match goal with
      | Hn : negb (isNull _) = true |- _ => apply negb_true_iff in Hn; exact Hn
      end. }
  assert (Hstop : isNull observed = false -> exists code, fst run = Fatal code).
  { subst run observed. intros Hobs.
    unfold renameCollectionAndDropTarget, writeConflictRetry, WriteUnitOfWork,
      UnreplicatedWritesBlock, scoped, preRenameCollection, postRenameCollection,
      Database_dropCollection, Database_renameCollection.
    msimpl. rewrite Hnull. msimpl.
    case_all; eauto;
      match goal with
      | Hn : negb (isNull _) = false |- _ =>
          apply negb_false_iff in Hn; rewrite Hn in Hobs; discriminate Hobs
      end. }
  split; [|split; [|split; [exact Hstop|split]]].
  - subst run.
    unfold renameCollectionAndDropTarget, writeConflictRetry, WriteUnitOfWork,
      UnreplicatedWritesBlock, scoped, preRenameCollection, postRenameCollection,
      Database_dropCollection, Database_renameCollection.
    msimpl. rewrite Hnull. msimpl.
    intros n t w. case_all. all: trace_simpl. all: intros H;
      repeat (destruct H as [H|H]; try discriminate H; try contradiction);
      inversion H; auto.
  - intros Hd Ho. subst run observed. split.
    + intros Hobs.
      unfold renameCollectionAndDropTarget, writeConflictRetry, WriteUnitOfWork,
        UnreplicatedWritesBlock, scoped, preRenameCollection, postRenameCollection,
        Database_dropCollection, Database_renameCollection.
      msimpl. rewrite Hnull, Hd. msimpl. rewrite Ho. msimpl. rewrite Hobs. reflexivity.
    + intros Hobs Hbg Hib.
      unfold renameCollectionAndDropTarget, writeConflictRetry, WriteUnitOfWork,
        UnreplicatedWritesBlock, scoped, preRenameCollection, postRenameCollection,
        Database_dropCollection, Database_renameCollection.
      msimpl. rewrite Hnull, Hd. msimpl. rewrite Ho. msimpl. rewrite Hobs. msimpl.
      rewrite Hbg. msimpl.
      rewrite Hib. msimpl.
      case_all. all: trace_simpl. all: auto.
  - exact Hfatal.
  - intros Hw Hobs Hf. apply Hfatal in Hf. subst observed.
    rewrite Hw, Hobs in Hf. discriminate.
Qed.

Lemma renameCollectionAndDropTarget_applyOps_optime_witness :
  In (EvDbDropCollection Fixture.nssY (mkOpTime 5 1) false)
     (newEvents Fixture.secondary
        (snd (renameCollectionAndDropTarget (mkDatabase "db1" false ["db1.v"]) 1%N
                Fixture.nssX Fixture.nssY Fixture.collY (mkRenameOptions true false)
                (mkOpTime 5 1) Fixture.secondary)))
  /\ fst (renameCollectionAndDropTarget (mkDatabase "db1" false ["db1.v"]) 1%N
            Fixture.nssX Fixture.nssY Fixture.collY (mkRenameOptions true false)
            (mkOpTime 5 1) Fixture.secondary) <> Fatal 40616.
Proof.
  destruct (renameCollectionAndDropTarget_applyOps_optime Fixture.secondary
              (mkDatabase "db1" false ["db1.v"]) 1%N Fixture.nssX Fixture.nssY
              Fixture.collY (mkRenameOptions true false) (mkOpTime 5 1) eq_refl)
    as (_ & Hdrop & _ & _ & Hsafe).
  split.
  - apply Hdrop; reflexivity.
  - apply Hsafe; reflexivity.
Defined.

Example swap_drop_on_secondary :
  let run := renameCollectionAndDropTarget (mkDatabase "db1" false ["db1.v"]) 1%N
               Fixture.nssX Fixture.nssY Fixture.collY (mkRenameOptions true false)
               (mkOpTime 5 1) Fixture.secondary in
  fst run = Ret OK
  /\ newEvents Fixture.secondary (snd run)
     = [EvPreRenameCollection Fixture.nssX Fixture.nssY 1%N 2%N 1 false;
        EvDbDropCollection Fixture.nssY (mkOpTime 5 1) false;
        EvDbRenameCollection Fixture.nssX Fixture.nssY false;
        EvPostRenameCollection Fixture.nssX Fixture.nssY 1%N 2%N false].
Proof. vm_compute. split; reflexivity. Qed.

(** ** The same-database rename of apply-ops *)



(** ** The cross-database rename: a target with the UUID of the source *)

(** What lines 522-529 do in the model when the lookups of a source and of
    a target in another database give collections with one UUID: the call
    never returns OK, and it leaves the catalog as it was; once the checks
    that come before the target is looked at (lines 476-515) have passed, it
    ends at the invariant of line 527, [source == target], which cannot hold
    when the two namespaces are in different databases.  Such a state has
    two live collections with one UUID (see
    [same_uuid_across_databases_needs_a_repeated_uuid] below). *)
Lemma renameBetweenDBs_target_with_source_uuid s source target options sc tc sdb tdb :
  db source <> db target ->
  getDb (db source) s = Some sdb ->
  getDb (db target) s = Some tdb ->
  lookupCollectionByNamespace source s = Some sc ->
  lookupCollectionByNamespace target s = Some tc ->
  uuid sc = uuid tc ->
  let run := renameBetweenDBs source target options s in
  fst run <> Ret OK
  /\ catalog (snd run) = catalog s
  /\ (crossChecksPass source target s -> fst run = Fatal 527).
Proof.
  intros Hdb Hsd Htd Hsc Htc Huuid run. subst run.
  assert (Hne : source <> target) by congruence.
  unfold crossChecksPass, renameBetweenDBs, lockScope, scoped, DBLock, CollectionLock.
  msimpl.
  rewrite (bool_decide_eq_false_2 _ Hdb). msimpl.
  split; [|split].
  - repeat (first [rewrite Hsd | rewrite Htd | rewrite Hsc | rewrite Htc
                  | rewrite (bool_decide_eq_true_2 _ Huuid)
                  | rewrite (bool_decide_eq_false_2 _ Hne)
                  | case_inner]; simpl); try discriminate.
  - repeat (first [rewrite Hsd | rewrite Htd | rewrite Hsc | rewrite Htc
                  | rewrite (bool_decide_eq_true_2 _ Huuid)
                  | rewrite (bool_decide_eq_false_2 _ Hne)
                  | case_inner]; simpl); try reflexivity.
  - intros (H1 & H2 & H3 & H4 & H5). specialize (H5 _ Hsc).
    repeat (first [rewrite Hsd | rewrite Htd | rewrite Hsc | rewrite Htc
                  | rewrite H1 | rewrite H2 | rewrite H3 | rewrite H4 | rewrite H5
                  | rewrite (bool_decide_eq_true_2 _ Huuid)
                  | rewrite (bool_decide_eq_false_2 _ Hne)
                  | case_inner]; simpl); try reflexivity.
Qed.

(** On [Fixture.twins], a catalog that breaks the rule of one UUID per live
    collection, the call stops at line 527. *)
Example renameBetweenDBs_on_a_repeated_uuid :
  fst (renameBetweenDBs Fixture.nssX Fixture.nssOther (mkRenameOptions true false)
         Fixture.twins) = Fatal 527.
Proof. vm_compute. reflexivity. Qed.

(** With one UUID per live collection the case does not arise across
    databases: two namespaces that resolve to collections with one UUID are
    the same namespace. *)
Lemma findByNs_Some n l c : findByNs n l = Some c -> In c l /\ c_ns c = n.
Proof.
  intros H. apply find_some in H. destruct H as [Hin Hb].
  apply bool_decide_eq_true_1 in Hb. auto.
Qed.

Lemma NoDup_map_inj {A B} (f : A -> B) (l : list A) x y :
  List.NoDup (map f l) -> In x l -> In y l -> f x = f y -> x = y.
Proof.
  induction l as [|a l IH]; simpl; intros Hnd Hx Hy Hf; [contradiction|].
  inversion Hnd as [|? ? Hnotin Hnd']; subst.
  destruct Hx as [->|Hx], Hy as [->|Hy]; auto.
  - exfalso. apply Hnotin. rewrite Hf. apply in_map. exact Hy.
  - exfalso. apply Hnotin. rewrite <- Hf. apply in_map. exact Hx.
Qed.

Lemma unique_uuid_same_namespace s source target sc tc :
  List.NoDup (map uuid (catalog s)) ->
  lookupCollectionByNamespace source s = Some sc ->
  lookupCollectionByNamespace target s = Some tc ->
  uuid sc = uuid tc ->
  source = target.
Proof.
  intros Hnd Hs Ht Hu.
  apply findByNs_Some in Hs. apply findByNs_Some in Ht.
  destruct Hs as [Hs1 Hs2], Ht as [Ht1 Ht2].
  assert (sc = tc) by (eapply NoDup_map_inj; eauto).
  congruence.
Qed.

(** So a cross-database rename whose target names a live collection with
    the UUID of the source starts from a catalog in which a UUID is
    repeated. *)
Lemma same_uuid_across_databases_needs_a_repeated_uuid s source target sc tc :
  db source <> db target ->
  lookupCollectionByNamespace source s = Some sc ->
  lookupCollectionByNamespace target s = Some tc ->
  uuid sc = uuid tc ->
  ~ List.NoDup (map uuid (catalog s)).
Proof.
  intros Hdb Hs Ht Hu Hnd. apply Hdb.
  rewrite (unique_uuid_same_namespace s source target sc tc Hnd Hs Ht Hu). reflexivity.
Qed.

(** ** Identity across a rename *)

Lemma findByNs_rebindFirst source target stay l c :
  findByNs target l = None ->
  findByNs source l = Some c ->
  findByNs target (rebindFirst source target stay l) = Some (rebind target stay c).
Proof.
  induction l as [|x l IH]; simpl; intros Ht Hs; [discriminate|].
  destruct (bool_decide (c_ns x = target)) eqn:Ext; [discriminate|].
  destruct (bool_decide (c_ns x = source)) eqn:Exs; simpl.
  - inversion Hs; subst. rewrite bool_decide_eq_true_2 by reflexivity. reflexivity.
  - rewrite Ext. apply IH; assumption.
Qed.

Lemma findByNs_drop_same n l :
  findByNs n (List.filter (fun c => negb (bool_decide (c_ns c = n))) l) = None.
Proof.
  induction l as [|x l IH]; simpl; [reflexivity|].
  destruct (bool_decide (c_ns x = n)) eqn:E; simpl; [exact IH|].
  rewrite E. exact IH.
Qed.

Lemma findByNs_drop_other n t l :
  n <> t ->
  findByNs n (List.filter (fun c => negb (bool_decide (c_ns c = t))) l) = findByNs n l.
Proof.
  intros Hne. induction l as [|x l IH]; simpl; [reflexivity|].
  destruct (bool_decide (c_ns x = t)) eqn:E; simpl.
  - apply bool_decide_eq_true_1 in E.
    rewrite bool_decide_eq_false_2 by congruence. exact IH.
  - destruct (bool_decide (c_ns x = n)); [reflexivity|exact IH].
Qed.

(** What a successful [renameCollectionWithinDB] has done: the object that
    was under [source] is the one under [target], rebound. *)
Lemma renameCollectionWithinDB_ok s s' source target options :
  renameCollectionWithinDB source target options s = (Ret OK, s') ->
  exists sc, lookupCollectionByNamespace source s = Some sc
             /\ lookupCollectionByNamespace target s'
                = Some (rebind target (stayTemp options) sc).
Proof.
  unfold renameCollectionWithinDB, renameWithinDB_locked, lockScope, scoped, DBLock,
    CollectionLock, checkSourceAndTargetNamespaces, renameCollectionDirectly,
    renameCollectionAndDropTarget, writeConflictRetry, WriteUnitOfWork,
    UnreplicatedWritesBlock, scoped, preRenameCollection, postRenameCollection,
    onRenameCollection, Database_dropCollection, Database_renameCollection, commit,
    nullDereference.
  msimpl.
  case_all; intros H; try discriminate H; inversion H; subst; clear H; simpl.
  all: simplify_eq; eexists; (split; [reflexivity|]).
  all: try (apply findByNs_rebindFirst; assumption).
  all: match goal with
       | Ht : findByNs ?t (catalog ?s0) = Some ?tc,
         Hs : findByNs ?src (List.filter _ (catalog ?s0)) = Some ?c3
         |- context [rebindFirst ?src ?t] =>
           destruct (findByNs_Some _ _ _ Ht) as [_ Hns]; rewrite Hns in *;
           destruct (decide (src = t)) as [Heq|Hne];
           [rewrite Heq in Hs; rewrite findByNs_drop_same in Hs; discriminate Hs|];
           rewrite (findByNs_drop_other _ _ _ Hne) in Hs;
           rewrite Hs in *; simplify_eq;
           apply findByNs_rebindFirst;
           [assumption | rewrite (findByNs_drop_other _ _ _ Hne); assumption]
       end.
Qed.

Lemma renameCollection_sameDB_ok s s' source target options :
  db source = db target ->
  renameCollection source target options s = (Ret OK, s') ->
  exists sc, lookupCollectionByNamespace source s = Some sc
             /\ lookupCollectionByNamespace target s'
                = Some (rebind target (stayTemp options) sc).
Proof.
  intros Hdb. unfold renameCollection.
  destruct (isDropPendingNamespace source); [discriminate|].
  destruct (isSystemDotViews source || isSystemDotViews target); [discriminate|].
  rewrite (bool_decide_eq_true_2 _ Hdb). apply renameCollectionWithinDB_ok.
Qed.

(** *** Steps that keep a property of the catalog *)

Section Keeps.
Context (J : list Collection -> Prop).
Context (J_content : forall f l, contentOnly f -> J l -> J (map f l)).

Lemma keeps_quiet {A} (m : M A) :
  (forall s, catalog (snd (m s)) = catalog s) -> keeps J m.
Proof. intros H s Hs. rewrite H. exact Hs. Qed.

Lemma keeps_bind {A B} (m : M A) (k : A -> M B) :
  keeps J m -> (forall a, keeps J (k a)) -> keeps J (bind m k).
Proof.
  intros Hm Hk s Hs. unfold bind. specialize (Hm s Hs).
  destruct (m s) as [[a|e|c|] s1]; simpl in *; auto.
  apply Hk. exact Hm.
Qed.

Lemma keeps_scoped {A} (body : M A) (cleanup : OpCtx -> OpCtx) :
  keeps J body -> (forall s, catalog (cleanup s) = catalog s) ->
  keeps J (fun s => scoped body cleanup s).
Proof.
  intros Hb Hc s Hs. unfold scoped. specialize (Hb s Hs).
  destruct (body s) as [[a|e|c|] s1]; simpl in *; rewrite ?Hc; auto.
Qed.

Lemma keeps_lockScope {A} (body : M A) : keeps J body -> keeps J (lockScope body).
Proof.
  intros Hb s. unfold lockScope.
  apply (keeps_scoped body (set_lockState (lockState s)) Hb). reflexivity.
Qed.

Lemma keeps_WriteUnitOfWork {A} (body : M A) :
  keeps J body -> keeps J (WriteUnitOfWork body).
Proof.
  intros Hb s Hs. unfold WriteUnitOfWork, scoped.
  specialize (Hb (set_committed false s) Hs).
  destruct (body (set_committed false s)) as [[a|e|c|] s1]; simpl in *; auto;
    destruct (committed s1); simpl; auto.
Qed.

Lemma keeps_writeConflictRetry_loop {A} (f : M A) n :
  keeps J f -> keeps J (writeConflictRetry_loop n f).
Proof.
  intros Hf. induction n as [|n IH]; intros s Hs; simpl; [exact Hs|].
  specialize (Hf s Hs).
  destruct (f s) as [[a|[c|]|c|] s1]; simpl in *; auto.
Qed.

Lemma keeps_writeConflictRetry {A} (f : M A) :
  keeps J f -> keeps J (writeConflictRetry f).
Proof.
  intros Hf s. unfold writeConflictRetry.
  apply keeps_writeConflictRetry_loop. exact Hf.
Qed.

Lemma keeps_catchDBException (body : M Status) :
  keeps J body -> keeps J (catchDBException body).
Proof.
  intros Hb s Hs. unfold catchDBException. specialize (Hb s Hs).
  destruct (body s) as [[a|[c|]|c|] s1]; simpl in *; auto.
Qed.

Lemma keeps_ON_BLOCK_EXIT {A} (guard : M unit) (rest : M A) :
  keeps J guard -> keeps J rest -> keeps J (ON_BLOCK_EXIT guard rest).
Proof.
  intros Hg Hr s Hs. unfold ON_BLOCK_EXIT, scoped. specialize (Hr s Hs).
  destruct (rest s) as [[a|e|c|] s1]; simpl in *; auto.
Qed.

Lemma keeps_map_content f :
  contentOnly f ->
  keeps J (let* s := get in modify (set_catalog (map f (catalog s)))).
Proof. intros Hf s Hs. simpl. apply J_content; assumption. Qed.

End Keeps.

Ltac keeps_quiet := apply keeps_quiet; intros; reflexivity.

Ltac keeps_step :=
  match goal with
  | |- keeps _ (bind _ _) => apply keeps_bind; [|intros]
  | |- keeps _ (ret _) => keeps_quiet
  | |- keeps _ (emit _) => keeps_quiet
  | |- keeps _ (lockScope _) => apply keeps_lockScope
  | |- keeps _ (WriteUnitOfWork _) => apply keeps_WriteUnitOfWork
  | |- keeps _ (writeConflictRetry _) => apply keeps_writeConflictRetry
  | |- keeps _ (catchDBException _) => apply keeps_catchDBException
  | |- keeps _ (ON_BLOCK_EXIT _ _) => apply keeps_ON_BLOCK_EXIT
  | |- keeps _ (if ?b then _ else _) => destruct b
  | |- keeps _ (match ?x with _ => _ end) => destruct x
  | |- keeps _ (let _ := _ in _) => cbv zeta
  | |- keeps _ get => keeps_quiet
  | |- keeps _ (throw _) => keeps_quiet
  | |- keeps _ (fatal _) => keeps_quiet
  | |- keeps _ commit => keeps_quiet
  | |- keeps _ (unlock _ _) => keeps_quiet
  | |- keeps _ (DBLock _ _) => keeps_quiet
  | |- keeps _ (CollectionLock _ _) => keeps_quiet
  | |- keeps _ (getCursor _) => keeps_quiet
  | |- keeps _ cursor_save => keeps_quiet
  | |- keeps _ cursor_restore => keeps_quiet
  | |- keeps _ (invariant _ _) => unfold invariant
  | |- keeps _ (uassert _ _) => unfold uassert
  | |- keeps _ checkForInterrupt => unfold checkForInterrupt
  | |- keeps _ (modify (set_record _)) => keeps_quiet
  | |- keeps _ (assignRecord _) => keeps_quiet
  | |- keeps _ (releaseToBson _) =>
      apply keeps_quiet; intros ?s; unfold releaseToBson;
      destruct (recordBuffer _); reflexivity
  | |- keeps _ (makeOwned _) =>
      apply keeps_quiet; intros ?s; unfold makeOwned;
      destruct (recordBuffer _); reflexivity
  | |- keeps _ (modify (set_insertOutcomes _)) => keeps_quiet
  | |- keeps _ (modify (set_nextRecordId _)) => keeps_quiet
  end.

Section KeepsCopy.
Context (J : list Collection -> Prop).
Context (J_content : forall f l, contentOnly f -> J l -> J (map f l)).

Lemma keeps_cursor_next : keeps J cursor_next.
Proof.
  apply keeps_quiet. intros s. unfold cursor_next. msimpl.
  destruct (cur_rest (cursor s)); reflexivity.
Qed.

Lemma keeps_cursor_seekExact i : keeps J (cursor_seekExact i).
Proof.
  apply keeps_quiet. intros s. unfold cursor_seekExact. msimpl.
  destruct (seekIn i (cur_store (cursor s))) as [[r rest]|]; reflexivity.
Qed.

Lemma keeps_shouldFail : keeps J shouldFail_writeConflictInRenameCollCopyToTmp.
Proof.
  apply keeps_quiet. intros s. unfold shouldFail_writeConflictInRenameCollCopyToTmp.
  destruct (writeConflictInRenameCollCopyToTmp s); reflexivity.
Qed.

Lemma keeps_storeDocument target doc : keeps J (storeDocument target doc).
Proof.
  intros s Hs. unfold storeDocument. msimpl. apply J_content; [|exact Hs].
  intros c. destruct (bool_decide (addr c = addr target)); auto.
Qed.

Lemma keeps_insertDocument target doc : keeps J (insertDocument target doc).
Proof.
  unfold insertDocument.
  repeat (keeps_step || apply keeps_storeDocument).
Qed.

Lemma keeps_insertBatch tmpColl n : keeps J (insertBatch tmpColl n).
Proof.
  induction n as [|n IH]; simpl.
  - keeps_quiet.
  - repeat (keeps_step || apply keeps_insertDocument || apply keeps_cursor_next
            || exact IH).
Qed.

Lemma keeps_copyBatch tmpColl beginBatchId : keeps J (copyBatch tmpColl beginBatchId).
Proof.
  unfold copyBatch.
  repeat (keeps_step || apply keeps_insertBatch || apply keeps_cursor_seekExact
          || apply keeps_shouldFail).
Qed.

Lemma keeps_copyLoop fuel tmpColl : keeps J (copyLoop fuel tmpColl).
Proof.
  induction fuel as [|fuel IH]; intros s Hs; simpl.
  - destruct (record s); exact Hs.
  - destruct (record s) as [r|]; [|exact Hs].
    apply (keeps_bind J); [| |exact Hs].
    + repeat keeps_step.
    + intros _. cbv zeta. apply (keeps_bind J).
      * apply keeps_writeConflictRetry, keeps_copyBatch.
      * intros a. destruct (negb (isOK a)); [keeps_quiet|exact IH].
Qed.

Lemma keeps_copyRecords sourceColl tmpColl : keeps J (copyRecords sourceColl tmpColl).
Proof.
  unfold copyRecords.
  repeat (apply keeps_copyLoop || apply keeps_cursor_next || keeps_step); assumption.
Qed.

Lemma keeps_createIndexesOnEmptyCollection u specs :
  keeps J (createIndexesOnEmptyCollection u specs).
Proof.
  unfold createIndexesOnEmptyCollection.
  apply keeps_bind; [keeps_quiet|intros _].
  intros s Hs. msimpl.
  destruct (createIndexesResult (env s) specs); simpl; [|exact Hs].
  apply J_content; [|exact Hs].
  intros c. destruct (bool_decide (uuid c = u)); auto.
Qed.

Lemma keeps_AutoGetCollection_byUUID d u m : keeps J (AutoGetCollection_byUUID d u m).
Proof. unfold AutoGetCollection_byUUID. repeat keeps_step. Qed.

End KeepsCopy.

(** *** The cross-database rename, phase by phase *)

Lemma bind_Ret_inv {A B} (m : M A) (k : A -> M B) s b s' :
  bind m k s = (Ret b, s') ->
  exists a s1, m s = (Ret a, s1) /\ k a s1 = (Ret b, s').
Proof.
  unfold bind. destruct (m s) as [[a|e|c|] s1]; intros H; try discriminate H.
  eauto.
Qed.

Lemma findByNs_map_content f n l :
  contentOnly f -> findByNs n (map f l) = f <$> findByNs n l.
Proof.
  intros Hf. induction l as [|c l IH]; simpl; [reflexivity|].
  destruct (Hf c) as [Hn _]. rewrite Hn.
  destruct (bool_decide (c_ns c = n)); [reflexivity|exact IH].
Qed.

Lemma stagedAs_content tmpName fresh f l :
  contentOnly f -> stagedAs tmpName fresh l -> stagedAs tmpName fresh (map f l).
Proof.
  unfold stagedAs. intros Hf H. rewrite (findByNs_map_content f _ _ Hf).
  destruct (findByNs tmpName l) as [c|]; simpl in *; [|discriminate].
  destruct (Hf c) as [_ Hu]. rewrite Hu. exact H.
Qed.

Lemma stageAndPromote_ok s s' source target tmpName options sourceColl tmpColl sl tl fresh :
  stagedAs tmpName fresh (catalog s) ->
  stageAndPromote source target tmpName options sourceColl tmpColl sl tl s
  = (Ret OK, s') ->
  exists c', lookupCollectionByNamespace target s' = Some c' /\ uuid c' = fresh.
Proof.
  intros HJ Hrun. unfold stageAndPromote in Hrun. cbv zeta in Hrun.
  pose proof (stagedAs_content tmpName fresh) as HJc.
  apply bind_Ret_inv in Hrun. destruct Hrun as (st1 & s1 & Hidx & Hrun).
  assert (HJ1 : stagedAs tmpName fresh (catalog s1)).
  { change s1 with (snd (Ret st1, s1)). rewrite <- Hidx.
    revert HJ. generalize s.
    change (keeps (stagedAs tmpName fresh)
              (if negb (bool_decide (indexesToCopyOf sourceColl = []))
               then writeConflictRetry (WriteUnitOfWork (catchDBException (
                      let* _ := createIndexesOnEmptyCollection (uuid tmpColl)
                                  (indexesToCopyOf sourceColl) in
                      let* _ := commit in ret OK)))
               else ret OK)).
    repeat (keeps_step || apply keeps_createIndexesOnEmptyCollection); assumption. }
  destruct st1 as [|e1]; cbn [negb isOK] in Hrun; [|discriminate Hrun].
  apply bind_Ret_inv in Hrun. destruct Hrun as (x2 & s2 & Hun & Hrun).
  assert (HJ2 : stagedAs tmpName fresh (catalog s2)).
  { change s2 with (snd (Ret x2, s2)). rewrite <- Hun.
    destruct tl; simpl; exact HJ1. }
  apply bind_Ret_inv in Hrun. destruct Hrun as (st3 & s3 & Hcopy & Hrun).
  assert (HJ3 : stagedAs tmpName fresh (catalog s3)).
  { change s3 with (snd (Ret st3, s3)). rewrite <- Hcopy.
    revert HJ2. generalize s2.
    match goal with
    | |- forall s0, _ -> stagedAs _ _ (catalog (snd (?m s0))) =>
        change (keeps (stagedAs tmpName fresh) m)
    end.
    repeat (apply keeps_copyRecords || apply keeps_AutoGetCollection_byUUID
            || keeps_step); assumption. }
  destruct st3 as [|e3]; cbn [negb isOK] in Hrun; [|discriminate Hrun].
  apply bind_Ret_inv in Hrun. destruct Hrun as (x4 & s4 & Hun4 & Hrun).
  assert (HJ4 : stagedAs tmpName fresh (catalog s4)).
  { change s4 with (snd (Ret x4, s4)). rewrite <- Hun4.
    destruct sl; simpl; exact HJ3. }
  apply bind_Ret_inv in Hrun. destruct Hrun as (x5 & s5 & Hinv & Hrun).
  assert (HJ5 : stagedAs tmpName fresh (catalog s5)).
  { change s5 with (snd (Ret x5, s5)). rewrite <- Hinv.
    unfold invariant. destruct (bool_decide (db tmpName = db target)); exact HJ4. }
  apply renameCollectionWithinDB_ok in Hrun.
  destruct Hrun as (sc' & Hsc' & Htgt).
  unfold stagedAs, lookupCollectionByNamespace in *. rewrite Hsc' in HJ5.
  simpl in HJ5. eexists. split; [exact Htgt|]. simpl. congruence.
Qed.

Lemma guarded_ok cleanup body s s' :
  guarded cleanup body s = (Ret OK, s') -> body s = (Ret OK, s').
Proof.
  unfold guarded. destruct (body s) as [[[|c]|e|c|] s1]; intros H;
    try discriminate H; exact H.
Qed.

Lemma dropCollectionForApplyOps_ok n t s s' :
  dropCollectionForApplyOps n t s = (Ret OK, s') ->
  catalog s' = List.filter (fun c => negb (bool_decide (c_ns c = n))) (catalog s).
Proof.
  unfold dropCollectionForApplyOps, WriteUnitOfWork, scoped, Database_dropCollection,
    commit.
  msimpl. case_all; intros H; try discriminate H; inversion H; reflexivity.
Qed.

(** What a successful [renameBetweenDBs] has done. *)
Lemma renameBetweenDBs_ok s s' source target options :
  db source <> db target ->
  renameBetweenDBs source target options s = (Ret OK, s') ->
  (exists c', lookupCollectionByNamespace target s' = Some c'
              /\ uuid c' = uuidGen (env s) (uuidsGenerated s))
  /\ lookupCollectionByNamespace source s' = None.
Proof.
  intros Hdb.
  assert (Hne : source <> target) by congruence.
  assert (Hne' : target <> source) by congruence.
  unfold renameBetweenDBs, lockScope, scoped, DBLock, CollectionLock, openDb,
    makeUniqueCollectionNamespace, UUID_gen, writeConflictRetry, WriteUnitOfWork,
    scoped, Database_createCollection, commit.
  msimpl. rewrite (bool_decide_eq_false_2 _ Hdb). msimpl.
  rewrite (bool_decide_eq_false_2 _ Hne).
  case_all; intros H; try discriminate H; inversion H; subst; clear H; simpl.
  all: try match goal with
           | Hx : negb (isOK OK) = true |- _ => discriminate Hx
           end.
  all: match goal with
       | Hx : negb (isOK ?a) = false |- _ => destruct a; [|discriminate Hx]
       end.
  all: match goal with
       | Hg : guarded _ _ _ = (Ret OK, ?s6),
         Hd : dropCollectionForApplyOps _ _ ?s6 = (Ret OK, ?s7) |- _ =>
           apply guarded_ok in Hg;
           apply (stageAndPromote_ok _ _ _ _ _ _ _ _ _ _
                    (uuidGen (env s) (uuidsGenerated s))) in Hg;
           [destruct Hg as (c' & Hc' & Hu);
            apply dropCollectionForApplyOps_ok in Hd;
            unfold lookupCollectionByNamespace in *; rewrite Hd;
            split;
            [exists c'; split; [rewrite (findByNs_drop_other _ _ _ Hne'); exact Hc'
                               | exact Hu]
            | apply findByNs_drop_same]
           | unfold stagedAs; simpl;
             rewrite bool_decide_eq_true_2 by reflexivity; reflexivity]
       end.
Qed.

(** C1. A successful same-database rename through [renameCollection]
    leaves, under the target name, a collection with the UUID the source
    collection had.  A successful cross-database rename ([renameBetweenDBs])
    leaves, under the target name, a collection whose UUID is the one
    [UUID::gen] has just generated, which differs from the UUID of the
    source as soon as the generator yields a UUID that no live collection
    has; and no collection is left under the source name. *)
Theorem rename_uuid_identity s s' source target options sc :
  lookupCollectionByNamespace source s = Some sc ->
  (db source = db target ->
   renameCollection source target options s = (Ret OK, s') ->
   exists c', lookupCollectionByNamespace target s' = Some c' /\ uuid c' = uuid sc)
  /\ (db source <> db target ->
      renameBetweenDBs source target options s = (Ret OK, s') ->
      (exists c', lookupCollectionByNamespace target s' = Some c'
                  /\ uuid c' = uuidGen (env s) (uuidsGenerated s)
                  /\ (Forall (fun c => uuid c <> uuidGen (env s) (uuidsGenerated s))
                             (catalog s) ->
                      uuid c' <> uuid sc))
      /\ lookupCollectionByNamespace source s' = None).
Proof.
  intros Hsc. split.
  - intros Hdb Hrun.
    destruct (renameCollection_sameDB_ok _ _ _ _ _ Hdb Hrun) as (sc' & Hsc' & Ht).
    rewrite Hsc in Hsc'. inversion Hsc'; subst sc'.
    eexists. split; [exact Ht|reflexivity].
  - intros Hdb Hrun.
    destruct (renameBetweenDBs_ok _ _ _ _ _ Hdb Hrun) as ((c' & Hc' & Hu) & Hgone).
    split; [|exact Hgone].
    exists c'. split; [exact Hc'|]. split; [exact Hu|].
    intros Hfresh. rewrite Hu.
    apply findByNs_Some in Hsc. destruct Hsc as [Hin _].
    rewrite List.Forall_forall in Hfresh. intros Heq. apply (Hfresh sc Hin). congruence.
Qed.

Lemma rename_uuid_identity_witness :
  (exists c',
      lookupCollectionByNamespace Fixture.nssZ
        (snd (renameCollection Fixture.nssX Fixture.nssZ defaultRenameOptions
                Fixture.primary)) = Some c'
      /\ uuid c' = uuid Fixture.collX)
  /\ (exists c',
         lookupCollectionByNamespace Fixture.nssOther
           (snd (renameBetweenDBs Fixture.nssX Fixture.nssOther defaultRenameOptions
                   Fixture.primary)) = Some c'
         /\ uuid c' = 1000%N /\ uuid c' <> uuid Fixture.collX)
     /\ lookupCollectionByNamespace Fixture.nssX
          (snd (renameBetweenDBs Fixture.nssX Fixture.nssOther defaultRenameOptions
                  Fixture.primary)) = None.
Proof.
  split.
  - apply (proj1 (rename_uuid_identity Fixture.primary _ Fixture.nssX Fixture.nssZ
                    defaultRenameOptions Fixture.collX eq_refl) eq_refl).
    vm_compute. reflexivity.
  - destruct (proj2 (rename_uuid_identity Fixture.primary
                       (snd (renameBetweenDBs Fixture.nssX Fixture.nssOther
                               defaultRenameOptions Fixture.primary))
                       Fixture.nssX Fixture.nssOther
                       defaultRenameOptions Fixture.collX eq_refl))
      as ((c' & Hc' & Hu & Hfresh) & Hgone).
    + discriminate.
    + vm_compute. reflexivity.
    + split; [|exact Hgone].
      exists c'. split; [exact Hc'|]. split; [exact Hu|].
      apply Hfresh. repeat constructor; discriminate.
Defined.

(** ** The bulk copy under write conflicts *)

Section CopyLoop.
Context (store : list Record_) (tmpColl : Collection).
Context (ids_unique : NoDup (map id store)).

Lemma docsOf_insert l D r :
  docsOf tmpColl l = Some D ->
  docsOf tmpColl (map (fun c => if bool_decide (addr c = addr tmpColl) then addRecord r c else c) l)
  = Some (D ++ [data r]).
Proof.
  unfold docsOf. induction l as [|c l IH]; simpl; [discriminate|].
  destruct (bool_decide (addr c = addr tmpColl)) eqn:E; simpl.
  - rewrite E. simpl. intros H. inversion H. rewrite map_app. reflexivity.
  - rewrite E. exact IH.
Qed.

Lemma seekIn_lookup k r :
  store !! k = Some r -> seekIn (id r) store = Some (r, drop (S k) store).
Proof.
  revert k ids_unique. induction store as [|x l IH]; intros k Hnd Hk; [discriminate|].
  simpl. destruct k as [|k]; simpl in *.
  - inversion Hk; subst. rewrite bool_decide_eq_true_2 by reflexivity. reflexivity.
  - apply NoDup_cons in Hnd. destruct Hnd as [Hx Hnd].
    rewrite bool_decide_eq_false_2.
    + apply IH; assumption.
    + intros Heq. apply Hx. rewrite Heq.
      apply list_elem_of_fmap. exists r. split; [reflexivity|].
      eapply list_elem_of_lookup_2. exact Hk.
Qed.

Lemma same_id_same_position k k0 r r0 :
  store !! k = Some r -> store !! k0 = Some r0 -> id r0 = id r -> k = k0.
Proof.
  intros Hk Hk0 Hid.
  eapply (NoDup_lookup (map id store)); [exact ids_unique| |].
  - rewrite list_lookup_fmap, Hk. reflexivity.
  - rewrite list_lookup_fmap, Hk0. simpl. congruence.
Qed.

Lemma bind_bind {A B C} (m : M A) (f : A -> M B) (g : B -> M C) s :
  bind (bind m f) g s = bind m (fun a => bind (f a) g) s.
Proof. unfold bind. destruct (m s) as [[a|e|c|] s1]; reflexivity. Qed.

(** [record = cursor->next()] on a cursor that stands on record [k]. *)
Lemma advance_spec k r s :
  cur_store (cursor s) = store -> cur_saved (cursor s) = false ->
  cur_rest (cursor s) = drop (S k) store -> store !! k = Some r ->
  exists s', bind cursor_next assignRecord s = (Ret tt, s')
             /\ cursorAt store (S k) s'
             /\ catalog s' = catalog s /\ insertOutcomes s' = insertOutcomes s
             /\ sameSetting s s'.
Proof.
  intros Hst Hsv Hrest Hk.
  assert (Hlt : (k < length store)%nat) by (eapply lookup_lt_Some; eauto).
  unfold cursor_next, assignRecord. msimpl. rewrite Hrest, Hst, Hsv.
  assert (Hdd : drop (S (S k)) store = drop 1 (drop (S k) store)).
  { rewrite drop_drop. f_equal. lia. }
  destruct (drop (S k) store) as [|r' rest] eqn:Hd.
  - assert (Hn : store !! S k = None).
    { apply lookup_ge_None.
      apply (f_equal length) in Hd. rewrite length_drop in Hd. simpl in Hd. lia. }
    eexists. split; [reflexivity|]. unfold cursorAt. simpl.
    rewrite Hn, Hdd, Hst, Hsv, Hrest. simpl.
    repeat split; auto; try lia; discriminate.
  - assert (Hk1 : store !! S k = Some r').
    { rewrite <- (Nat.add_0_r (S k)). rewrite <- lookup_drop. rewrite Hd. reflexivity. }
    eexists. split; [reflexivity|]. unfold cursorAt. simpl.
    rewrite Hk1, Hdd. simpl.
    repeat split; auto; try lia; discriminate.
Qed.

Lemma storeDocument_spec s doc D :
  docsOf tmpColl (catalog s) = Some D ->
  exists s1, storeDocument tmpColl doc s = (Ret OK, s1)
             /\ docsOf tmpColl (catalog s1) = Some (D ++ [doc])
             /\ cursor s1 = cursor s /\ record s1 = record s
             /\ recordBuffer s1 = recordBuffer s
             /\ insertOutcomes s1 = insertOutcomes s /\ sameSetting s s1.
Proof.
  intros HD. unfold storeDocument. msimpl. eexists. split; [reflexivity|]. simpl.
  split; [|repeat split].
  apply (docsOf_insert _ _ (mkRecord (nextRecordId s) doc) HD).
Qed.

Lemma insertDocument_spec s doc D :
  docsOf tmpColl (catalog s) = Some D -> everyInsertSucceeds s ->
  exists s1,
    insertDocument tmpColl doc s = (Ret OK, s1)
    /\ cursor s1 = cursor s /\ record s1 = record s
    /\ recordBuffer s1 = recordBuffer s
    /\ sameSetting s s1 /\ everyInsertSucceeds s1
    /\ docsOf tmpColl (catalog s1) = Some (D ++ [doc])
    /\ (length (insertOutcomes s1) <= length (insertOutcomes s))%nat.
Proof.
  intros HD Hne. unfold insertDocument. unfold bind at 1, get at 1. cbv beta iota.
  unfold everyInsertSucceeds in *.
  destruct (insertOutcomes s) as [|o rest] eqn:Hout.
  - destruct (storeDocument_spec s doc D HD) as (s1 & E & H1 & H2 & H3 & Hb & H4 & H5).
    exists s1. rewrite E.
    split; [reflexivity|]. split; [exact H2|]. split; [exact H3|]. split; [exact Hb|].
    split; [exact H5|].
    split; [rewrite H4, Hout; constructor|].
    split; [exact H1|]. rewrite H4, Hout. simpl. lia.
  - inversion Hne as [|? ? Hhead Htail]; subst.
    destruct (storeDocument_spec (set_insertOutcomes rest s) doc D HD)
      as (s1 & E & H1 & H2 & H3 & Hb & H4 & H5).
    exists s1. unfold bind, modify. cbv beta iota. rewrite E.
    split; [reflexivity|]. split; [exact H2|]. split; [exact H3|]. split; [exact Hb|].
    split; [exact H5|].
    split; [rewrite H4; simpl; assumption|].
    split; [exact H1|]. rewrite H4. simpl. lia.
Qed.

Lemma segment_nil k : segment store k k = [].
Proof. unfold segment. rewrite Nat.sub_diag. reflexivity. Qed.

Lemma segment_step k k1 r :
  store !! k = Some r -> (S k <= k1)%nat ->
  segment store k k1 = data r :: segment store (S k) k1.
Proof.
  intros Hk Hle. unfold segment.
  rewrite (drop_S store r k Hk).
  replace (k1 - k)%nat with (S (k1 - S k)) by lia. reflexivity.
Qed.

(** Line 676 on a record whose buffer has not been handed over: the
    statement is the document of the record. *)
Lemma releaseToBson_spec r s :
  recordBuffer s <> Released ->
  exists s1, releaseToBson r s = (Ret (data r), s1)
             /\ cursor s1 = cursor s /\ record s1 = record s
             /\ catalog s1 = catalog s /\ insertOutcomes s1 = insertOutcomes s
             /\ sameSetting s s1.
Proof.
  intros Hb. unfold releaseToBson.
  destruct (recordBuffer s); [| |contradiction];
    eexists; (split; [reflexivity|]); repeat split.
Qed.

Lemma insertBatch_spec n : forall s k D,
  cursorAt store k s -> docsOf tmpColl (catalog s) = Some D -> everyInsertSucceeds s ->
  exists s',
    insertBatch tmpColl n s = (Ret OK, s')
    /\ sameSetting s s' /\ everyInsertSucceeds s'
    /\ cursorAt store (Nat.min (k + n) (length store)) s'
    /\ docsOf tmpColl (catalog s')
       = Some (D ++ segment store k (Nat.min (k + n) (length store)))
    /\ (length (insertOutcomes s') <= length (insertOutcomes s))%nat.
Proof.
  induction n as [|n IH]; intros s k D Hcur HD Hne.
  - exists s. pose proof Hcur as (_ & _ & _ & _ & Hle & _).
    rewrite Nat.add_0_r, Nat.min_l by exact Hle. rewrite segment_nil, app_nil_r.
    split; [reflexivity|]. split; [repeat split|]. split; [exact Hne|].
    split; [exact Hcur|]. split; [exact HD|lia].
  - pose proof Hcur as (Hst & Hsv & Hrec & Hrest & Hle & Hbuf).
    simpl insertBatch. unfold bind at 1, get at 1. cbv beta iota. rewrite Hrec.
    destruct (store !! k) as [r|] eqn:Hk.
    + assert (Hlt : (k < length store)%nat) by (eapply lookup_lt_Some; eauto).
      destruct (releaseToBson_spec r s Hbuf)
        as (s0 & E0 & Hc0 & Hr0 & Hcat0 & Hout0 & Hset0).
      unfold bind at 1. rewrite E0.
      destruct (insertDocument_spec s0 (data r) D)
        as (s1 & E & Hc1 & Hr1 & Hb1 & Hset1 & Hne1 & HD1 & Hlen1).
      { rewrite Hcat0. exact HD. }
      { unfold everyInsertSucceeds. rewrite Hout0. exact Hne. }
      unfold bind at 1. rewrite E. cbn [negb isOK].
      destruct (advance_spec k r s1)
        as (s2 & E2 & Hcur2 & Hcat2 & Hout2 & Hset2); auto.
      { rewrite Hc1, Hc0. exact Hst. }
      { rewrite Hc1, Hc0. exact Hsv. }
      { rewrite Hc1, Hc0. exact Hrest. }
      rewrite <- (bind_bind cursor_next assignRecord (fun _ => insertBatch tmpColl n) s1).
      set (step := bind cursor_next assignRecord) in *.
      unfold bind at 1. rewrite E2.
      destruct (IH s2 (S k) (D ++ [data r]) Hcur2)
        as (s' & E3 & Hset3 & Hne3 & Hcur' & HD' & Hlen').
      { rewrite Hcat2. exact HD1. }
      { unfold everyInsertSucceeds in *. rewrite Hout2. exact Hne1. }
      exists s'. split; [exact E3|].
      split.
      { destruct Hset0 as (?&?&?), Hset1 as (?&?&?), Hset2 as (?&?&?), Hset3 as (?&?&?).
        repeat split; congruence. }
      split; [exact Hne3|].
      replace (k + S n)%nat with (S k + n)%nat by lia.
      split; [exact Hcur'|]. split.
      * rewrite HD', <- app_assoc. cbn [app].
        rewrite (segment_step k _ r Hk) by (apply Nat.min_glb; lia).
        reflexivity.
      * rewrite Hout2 in Hlen'. rewrite Hout0 in Hlen1. lia.
    + assert (Hk' : k = length store).
      { apply lookup_ge_None in Hk. lia. }
      exists s.
      rewrite Nat.min_r by lia. rewrite <- Hk', segment_nil, app_nil_r.
      split; [reflexivity|]. split; [repeat split|]. split; [exact Hne|].
      split; [exact Hcur|]. split; [exact HD|lia].
Qed.

(** Lines 672-674: the batch body first makes sure that it stands on the
    record that began the batch. *)
Lemma reposition_spec s k k0 r0 :
  cursorAt store k s -> store !! k0 = Some r0 ->
  exists s1,
    (if match record s with
        | None => true
        | Some r => negb (bool_decide (id r0 = id r))
        end
     then let* r := cursor_seekExact (id r0) in assignRecord r
     else ret tt) s = (Ret tt, s1)
    /\ cursorAt store k0 s1
    /\ catalog s1 = catalog s /\ insertOutcomes s1 = insertOutcomes s
    /\ sameSetting s s1.
Proof.
  intros Hcur Hk0. pose proof Hcur as (Hst & Hsv & Hrec & Hrest & Hle & Hbuf).
  assert (Hlt0 : (k0 < length store)%nat) by (eapply lookup_lt_Some; eauto).
  assert (Hseek : exists s1,
             (let* r := cursor_seekExact (id r0) in assignRecord r) s
             = (Ret tt, s1)
             /\ cursorAt store k0 s1
             /\ catalog s1 = catalog s /\ insertOutcomes s1 = insertOutcomes s
             /\ sameSetting s s1).
  { unfold cursor_seekExact, assignRecord. msimpl.
    rewrite Hst, (seekIn_lookup k0 r0 Hk0), Hsv.
    eexists. split; [reflexivity|]. unfold cursorAt. simpl.
    repeat split; auto; try lia; discriminate. }
  rewrite Hrec. destruct (store !! k) as [r|] eqn:Hk; [|exact Hseek].
  destruct (bool_decide (id r0 = id r)) eqn:Hid; simpl; [|exact Hseek].
  apply bool_decide_eq_true_1 in Hid.
  assert (k = k0) by (eapply same_id_same_position; eauto). subst k0.
  exists s. split; [reflexivity|]. split; [exact Hcur|].
  split; [reflexivity|]. split; [reflexivity|]. repeat split.
Qed.

(** Lines 685-701: the end of the batch body, from the copy of the current
    record into a buffer of its own. *)
Lemma finishBatch_spec s k1 :
  cursorAt store k1 s ->
  exists o s',
    (let* s0 := get in
     let* _ := (match record s0 with
                | Some r => makeOwned r
                | None => ret tt
                end) in
     let* _ := cursor_save in
     ON_BLOCK_EXIT (writeConflictRetry cursor_restore) (
       let* fail := shouldFail_writeConflictInRenameCollCopyToTmp in
       if fail then throw WriteConflictException
       else let* _ := commit in ret OK)) s = (o, s')
    /\ cursorAt store k1 s' /\ catalog s' = catalog s
    /\ insertOutcomes s' = insertOutcomes s /\ env s' = env s
    /\ ((o = Ret OK /\ committed s' = true
         /\ (length (writeConflictInRenameCollCopyToTmp s')
             <= length (writeConflictInRenameCollCopyToTmp s))%nat)
        \/ (o = Throw WriteConflictException /\ committed s' = committed s
            /\ (length (writeConflictInRenameCollCopyToTmp s')
                < length (writeConflictInRenameCollCopyToTmp s))%nat)).
Proof.
  intros (Hst & Hsv & Hrec & Hrest & Hle & Hbuf).
  unfold makeOwned, cursor_save, ON_BLOCK_EXIT, scoped, writeConflictRetry,
    cursor_restore, shouldFail_writeConflictInRenameCollCopyToTmp, commit.
  msimpl.
  destruct (record s) as [r|] eqn:Er;
    [destruct (recordBuffer s) eqn:Eb; [| |contradiction]|];
    msimpl;
    destruct (writeConflictInRenameCollCopyToTmp s) as [|[|] rest] eqn:Hfp; simpl;
    eexists; eexists; (split; [reflexivity|]); unfold cursorAt; simpl;
    rewrite ?Er, ?Eb;
    (split; [repeat split; (assumption || discriminate)|]);
    (split; [reflexivity|]); (split; [reflexivity|]); (split; [reflexivity|]).
  all: first [ left; repeat split; auto; rewrite ?Hfp; simpl; lia
             | right; repeat split; auto; rewrite ?Hfp; simpl; lia ].
Qed.

(** One attempt of the batch that begins at record number [k0]: it commits
    the documents of the batch, or it ends in the write conflict of the fail
    point with the catalog rolled back and one conflict fewer to come. *)
Lemma copyBatch_spec s k k0 r0 D :
  cursorAt store k s -> store !! k0 = Some r0 ->
  docsOf tmpColl (catalog s) = Some D -> everyInsertSucceeds s ->
  let k1 := Nat.min (k0 + Z.to_nat (internalInsertMaxBatchSize (env s))) (length store) in
  exists o s',
    copyBatch tmpColl (id r0) s = (o, s')
    /\ env s' = env s /\ committed s' = committed s /\ everyInsertSucceeds s'
    /\ cursorAt store k1 s'
    /\ ((o = Ret OK
         /\ docsOf tmpColl (catalog s') = Some (D ++ segment store k0 k1)
         /\ (conflictBudget s' <= conflictBudget s)%nat)
        \/ (o = Throw WriteConflictException
            /\ catalog s' = catalog s
            /\ (conflictBudget s' < conflictBudget s)%nat)).
Proof.
  intros Hcur Hk0 HD Hne k1.
  unfold copyBatch, WriteUnitOfWork, scoped.
  set (s0 := set_committed false s).
  assert (Hcur0 : cursorAt store k s0) by exact Hcur.
  destruct (reposition_spec s0 k k0 r0 Hcur0 Hk0)
    as (s1 & E1 & Hcur1 & Hcat1 & Hout1 & (Henv1 & Hcm1 & Hfp1)).
  unfold bind at 1, get at 1. cbv beta iota.
  unfold bind at 1. rewrite E1. cbv beta iota.
  unfold bind at 1, get at 1. cbv beta iota.
  destruct (insertBatch_spec (Z.to_nat (internalInsertMaxBatchSize (env s1))) s1 k0 D
              Hcur1)
    as (s2 & E2 & (Henv2 & Hcm2 & Hfp2) & Hne2 & Hcur2 & HD2 & Hlen2).
  { rewrite Hcat1. exact HD. }
  { unfold everyInsertSucceeds. rewrite Hout1. exact Hne. }
  unfold bind at 1. rewrite E2.
  assert (Hn : internalInsertMaxBatchSize (env s1) = internalInsertMaxBatchSize (env s))
    by (rewrite Henv1; reflexivity).
  rewrite Hn in Hcur2, HD2. fold k1 in Hcur2, HD2.
  cbn [negb isOK].
  destruct (finishBatch_spec s2 k1 Hcur2)
    as (o & s3 & E3 & Hcur3 & Hcat3 & Hout3 & Henv3 & Hfin).
  rewrite E3.
  destruct Hfin as [(-> & Hcm3 & Hlen3)|(-> & Hcm3 & Hlen3)].
  - eexists. eexists. split; [reflexivity|]. rewrite Hcm3. simpl.
    split; [rewrite Henv3, Henv2, Henv1; reflexivity|]. split; [reflexivity|].
    split; [unfold everyInsertSucceeds in *; simpl; rewrite Hout3; exact Hne2|].
    split; [exact Hcur3|].
    left. split; [reflexivity|].
    split; [rewrite Hcat3; exact HD2|].
    unfold conflictBudget. simpl. rewrite Hout3.
    rewrite Hout1 in Hlen2. simpl in Hlen2.
    rewrite Hfp2, Hfp1 in Hlen3. simpl in Hlen3. lia.
  - eexists. eexists. split; [reflexivity|].
    rewrite Hcm3, Hcm2, Hcm1. simpl.
    split; [rewrite Henv3, Henv2, Henv1; reflexivity|]. split; [reflexivity|].
    split; [unfold everyInsertSucceeds in *; simpl; rewrite Hout3; exact Hne2|].
    split; [exact Hcur3|].
    right. split; [reflexivity|].
    split; [reflexivity|].
    unfold conflictBudget. simpl. rewrite Hout3.
    rewrite Hout1 in Hlen2. simpl in Hlen2.
    rewrite Hfp2, Hfp1 in Hlen3. simpl in Hlen3. lia.
Qed.

(** Lines 669-702 under [writeConflictRetry]: the batch is retried until it
    commits, and it does commit. *)
Lemma retry_copyBatch_spec k0 r0 D fuel : forall s k,
  (conflictBudget s < fuel)%nat ->
  cursorAt store k s -> store !! k0 = Some r0 ->
  docsOf tmpColl (catalog s) = Some D -> everyInsertSucceeds s ->
  let k1 := Nat.min (k0 + Z.to_nat (internalInsertMaxBatchSize (env s))) (length store) in
  exists s',
    writeConflictRetry_loop fuel (copyBatch tmpColl (id r0)) s = (Ret OK, s')
    /\ env s' = env s /\ committed s' = committed s /\ everyInsertSucceeds s'
    /\ cursorAt store k1 s'
    /\ docsOf tmpColl (catalog s') = Some (D ++ segment store k0 k1)
    /\ (conflictBudget s' <= conflictBudget s)%nat.
Proof.
  induction fuel as [|fuel IH]; intros s k Hfuel Hcur Hk0 HD Hne k1; [lia|].
  simpl writeConflictRetry_loop.
  destruct (copyBatch_spec s k k0 r0 D Hcur Hk0 HD Hne)
    as (o & s1 & E & Henv & Hcm & Hne1 & Hcur1 & Hres).
  rewrite E.
  destruct Hres as [(-> & HD1 & Hb)|(-> & Hcat & Hb)].
  - exists s1. repeat split; auto; apply Hcur1.
  - destruct (IH s1 (Nat.min (k0 + Z.to_nat (internalInsertMaxBatchSize (env s)))
                              (length store)))
      as (s' & E' & Henv' & Hcm' & Hne' & Hcur' & HD' & Hb'); auto.
    { lia. }
    { rewrite Hcat. exact HD. }
    rewrite Henv in Hcur', HD'.
    exists s'. split; [exact E'|]. split; [congruence|]. split; [congruence|].
    split; [exact Hne'|]. split; [exact Hcur'|]. split; [exact HD'|]. lia.
Qed.

Lemma segment_app k k1 k2 :
  (k <= k1)%nat -> (k1 <= k2)%nat -> segment store k k1 ++ segment store k1 k2 = segment store k k2.
Proof.
  intros H1 H2. unfold segment. rewrite <- map_app. f_equal.
  replace (drop k1 store) with (drop (k1 - k) (drop k store))
    by (rewrite drop_drop; f_equal; lia).
  rewrite take_take_drop. f_equal. lia.
Qed.

Lemma segment_all k : segment store k (length store) = map data (drop k store).
Proof.
  unfold segment. f_equal. apply take_ge. rewrite length_drop. lia.
Qed.

(** Lines 665-705: the loop copies every record from the cursor on, whatever
    write conflicts the fail point raises. *)
Lemma copyLoop_spec fuel : forall s k D,
  cursorAt store k s -> docsOf tmpColl (catalog s) = Some D -> everyInsertSucceeds s ->
  0 < internalInsertMaxBatchSize (env s) ->
  interruptPending (env s) = false ->
  (length store - k <= fuel)%nat ->
  exists s',
    copyLoop fuel tmpColl s = (Ret OK, s')
    /\ docsOf tmpColl (catalog s') = Some (D ++ map data (drop k store))
    /\ cursorAt store (length store) s'
    /\ env s' = env s /\ committed s' = committed s.
Proof.
  induction fuel as [|fuel IH]; intros s k D Hcur HD Hne Hn Hint Hfuel;
    pose proof Hcur as (Hst & Hsv & Hrec & Hrest & Hle & Hbuf).
  - assert (k = length store) by lia. subst k.
    exists s. simpl. rewrite Hrec, (lookup_ge_None_2 store (length store)) by lia.
    rewrite drop_all, app_nil_r.
    split; [reflexivity|]. split; [exact HD|]. split; [exact Hcur|].
    split; reflexivity.
  - simpl copyLoop. rewrite Hrec.
    destruct (store !! k) as [r|] eqn:Hk.
    + assert (Hlt : (k < length store)%nat) by (eapply lookup_lt_Some; eauto).
      unfold bind at 1, checkForInterrupt at 1, bind at 1, get at 1, uassert at 1.
      rewrite Hint. cbn [negb ret]. cbv zeta.
      unfold bind at 1, writeConflictRetry.
      destruct (retry_copyBatch_spec k r D (S (conflictBudget s)) s k)
        as (s1 & E1 & Henv1 & Hcm1 & Hne1 & Hcur1 & HD1 & Hb1); auto.
      rewrite E1. cbn [negb isOK].
      set (k1 := Nat.min (k + Z.to_nat (internalInsertMaxBatchSize (env s)))
                         (length store)) in *.
      assert (Hk1 : (k < k1)%nat).
      { unfold k1. apply Nat.min_glb_lt; lia. }
      assert (Hk1' : (k1 <= length store)%nat) by (unfold k1; apply Nat.le_min_r).
      destruct (IH s1 k1 (D ++ segment store k k1)) as (s' & E' & HD' & Hcur' & Henv' & Hcm');
        auto.
      { rewrite Henv1. exact Hn. }
      { rewrite Henv1. exact Hint. }
      { lia. }
      exists s'. split; [exact E'|]. split.
      { rewrite HD', <- app_assoc. f_equal. f_equal.
        rewrite <- !segment_all. apply segment_app; lia. }
      split; [exact Hcur'|]. split; congruence.
    + assert (k = length store).
      { apply lookup_ge_None in Hk. lia. }
      subst k. exists s. rewrite drop_all, app_nil_r.
      split; [reflexivity|]. split; [exact HD|]. split; [exact Hcur|].
      split; reflexivity.
Qed.
End CopyLoop.

(** The bulk copy when every insert succeeds: whatever conflicts the fail
    point raises at the end of batches, the copy returns OK and has added
    the documents of the source, in order, to the staging collection. *)
Lemma copyRecords_spec sourceColl tmpColl s D :
  NoDup (map id (records sourceColl)) ->
  docsOf tmpColl (catalog s) = Some D ->
  everyInsertSucceeds s ->
  0 < internalInsertMaxBatchSize (env s) ->
  interruptPending (env s) = false ->
  exists s',
    copyRecords sourceColl tmpColl s = (Ret OK, s')
    /\ docsOf tmpColl (catalog s') = Some (D ++ map data (records sourceColl))
    /\ cur_saved (cursor s') = false.
Proof.
  intros Hnd HD Hne Hn Hint.
  unfold copyRecords, getCursor.
  unfold bind at 1, modify at 1. cbv beta iota.
  set (s1 := set_cursor _ s).
  assert (Hfuel : forall t, (length (records sourceColl) - 0
                             <= copyFuel sourceColl t)%nat).
  { intros t. unfold copyFuel. nia. }
  assert (Hgo : forall t, cursorAt (records sourceColl) 0 t ->
                          catalog t = catalog s -> insertOutcomes t = insertOutcomes s ->
                          env t = env s ->
                          exists s', copyLoop (copyFuel sourceColl t) tmpColl t = (Ret OK, s')
                                     /\ docsOf tmpColl (catalog s')
                                        = Some (D ++ map data (records sourceColl))
                                     /\ cur_saved (cursor s') = false).
  { intros t Hcur Hcat Hout Henv.
    destruct (copyLoop_spec (records sourceColl) tmpColl Hnd (copyFuel sourceColl t)
                t 0%nat D Hcur) as (s' & E & HD' & Hcur' & _).
    - rewrite Hcat. exact HD.
    - unfold everyInsertSucceeds. rewrite Hout. exact Hne.
    - rewrite Henv. exact Hn.
    - rewrite Henv. exact Hint.
    - apply Hfuel.
    - exists s'. split; [exact E|]. split; [exact HD'|]. apply Hcur'. }
  pose (t := set_recordBuffer Unowned
               (set_record (head (records sourceColl))
                  (set_cursor (mkCursor (records sourceColl) (tail (records sourceColl))
                                        false)
                     (set_events (events s ++ [EvCursorNext]) s)))).
  assert (Hstep : (let* first := cursor_next in
                   let* _ := assignRecord first in
                   let* s0 := get in
                   copyLoop (copyFuel sourceColl s0) tmpColl) s1
                  = copyLoop (copyFuel sourceColl t) tmpColl t).
  { unfold cursor_next, assignRecord, bind, emit, modify, get, s1, t.
    cbn [cursor set_cursor cur_rest].
    destruct (records sourceColl); reflexivity. }
  rewrite Hstep. apply Hgo; try reflexivity.
  unfold cursorAt, t.
  cbn [cursor record recordBuffer set_recordBuffer set_record set_cursor cur_store
       cur_saved cur_rest].
  destruct (records sourceColl); repeat split; simpl; auto; try lia; discriminate.
Qed.

(** The run of the first fixture: the second insert of the first attempt
    meets a write conflict, the fail point aborts the second attempt and the
    first attempt of the second batch; each of these retries finds the
    cursor away from the record that began its batch and starts with
    [seekExact] of that record's id. *)
Example copyRecords_trace_with_conflicts :
  newEvents CopyFixture.copying
    (snd (copyRecords Fixture.collX CopyFixture.collTmp CopyFixture.copying))
  = [EvCursorNext;
     EvInsertDocument 5 (Fixture.doc 10); EvCursorNext;
     EvCursorSeekExact 1;
     EvInsertDocument 5 (Fixture.doc 10); EvCursorNext;
     EvInsertDocument 5 (Fixture.doc 20); EvCursorNext;
     EvCursorSave; EvCursorRestore;
     EvCursorSeekExact 1;
     EvInsertDocument 5 (Fixture.doc 10); EvCursorNext;
     EvInsertDocument 5 (Fixture.doc 20); EvCursorNext;
     EvCursorSave; EvCursorRestore;
     EvInsertDocument 5 (Fixture.doc 30); EvCursorNext;
     EvInsertDocument 5 (Fixture.doc 40); EvCursorNext;
     EvCursorSave; EvCursorRestore;
     EvCursorSeekExact 3;
     EvInsertDocument 5 (Fixture.doc 30); EvCursorNext;
     EvInsertDocument 5 (Fixture.doc 40); EvCursorNext;
     EvCursorSave; EvCursorRestore;
     EvInsertDocument 5 (Fixture.doc 50); EvCursorNext;
     EvCursorSave; EvCursorRestore].
Proof. vm_compute. reflexivity. Qed.

Example copyRecords_contents_with_conflicts :
  docsOf CopyFixture.collTmp
    (catalog (snd (copyRecords Fixture.collX CopyFixture.collTmp CopyFixture.copying)))
  = Some [Fixture.doc 10; Fixture.doc 20; Fixture.doc 30; Fixture.doc 40;
          Fixture.doc 50].
Proof. vm_compute. reflexivity. Qed.

(** C3, where it fails.  The source holds five records, the batch size is
    2, and the third insert, the first of the second batch, meets a write
    conflict.  When that batch begins, the current record is record 3 and
    owns its buffer (line 688 of the batch before).  The attempt hands the
    buffer to the insert statement (line 676) and ends in the write conflict
    before [cursor->save()] and before the exit guard is set up: it makes no
    call on the cursor, so nothing restores it.  The retry finds
    [record->id] equal to [beginBatchId], so it makes no [seekExact] (line
    672), and its first statement is built from the buffer that has been
    handed over: the document it inserts is what the released memory holds.
    The copy returns OK, and the staging collection holds that document
    where the conflict-free run has the third document of the source. *)
Theorem copyRecords_conflict_at_batch_start :
  let s := CopyFixture.conflictAtBatchStart in
  let t := snd ((let* _ := getCursor Fixture.collX in
                 let* first := cursor_next in
                 let* _ := assignRecord first in
                 writeConflictRetry (copyBatch CopyFixture.collTmp 1)) s) in
  let aborted := copyBatch CopyFixture.collTmp 3 t in
  let retried := copyBatch CopyFixture.collTmp 3 (snd aborted) in
  let stale := releasedBufferRead Fixture.env0 (Fixture.doc 30) in
  (record t = Some (mkRecord 3 (Fixture.doc 30)) /\ recordBuffer t = Owned)
  /\ (fst aborted = Throw WriteConflictException
      /\ newEvents t (snd aborted) = []
      /\ record (snd aborted) = Some (mkRecord 3 (Fixture.doc 30))
      /\ recordBuffer (snd aborted) = Released)
  /\ (fst retried = Ret OK
      /\ newEvents (snd aborted) (snd retried)
         = [EvInsertDocument 5 stale; EvCursorNext;
            EvInsertDocument 5 (Fixture.doc 40); EvCursorNext;
            EvCursorSave; EvCursorRestore])
  /\ (fst (copyRecords Fixture.collX CopyFixture.collTmp s) = Ret OK
      /\ docsOf CopyFixture.collTmp
           (catalog (snd (copyRecords Fixture.collX CopyFixture.collTmp s)))
         = Some [Fixture.doc 10; Fixture.doc 20; stale; Fixture.doc 40; Fixture.doc 50])
  /\ (fst (copyRecords Fixture.collX CopyFixture.collTmp (withoutConflicts s)) = Ret OK
      /\ docsOf CopyFixture.collTmp
           (catalog (snd (copyRecords Fixture.collX CopyFixture.collTmp
                            (withoutConflicts s))))
         = Some [Fixture.doc 10; Fixture.doc 20; Fixture.doc 30; Fixture.doc 40;
                 Fixture.doc 50])
  /\ stale <> Fixture.doc 30.
Proof.
  cbv zeta. repeat split; try (vm_compute; reflexivity). vm_compute. discriminate.
Qed.

(** ** The index descriptions of the cross-database rename *)

Section OtherEvents.
Context (P : Event -> Prop).
Context (HP : forall e, notCreateIndexes e -> P e).

Lemma other_catchDBException (body : M Status) :
  appends P body -> appends P (catchDBException body).
Proof.
  intros Hb s. unfold catchDBException.
  destruct (Hb s) as (n & E & F).
  destruct (body s) as [[a|[c|]|c|] s1]; simpl in *; eauto.
Qed.

Lemma other_guarded (cleanup body : M Status) :
  appends P cleanup -> appends P body -> appends P (guarded cleanup body).
Proof.
  intros Hc Hb s. unfold guarded.
  destruct (Hb s) as (n & E & F).
  destruct (body s) as [[[|c]|e|c|] s1]; simpl in *; eauto.
  all: destruct (Hc s1) as (n2 & E2 & F2);
    exists (n ++ n2); rewrite E2, E, app_assoc; split; [reflexivity|];
    apply Forall_app; auto.
Qed.

Lemma other_ON_BLOCK_EXIT {A} (guard : M unit) (rest : M A) :
  appends P guard -> appends P rest -> appends P (ON_BLOCK_EXIT guard rest).
Proof.
  intros Hg Hr s. unfold ON_BLOCK_EXIT, scoped.
  destruct (Hr s) as (n & E & F).
  destruct (rest s) as [[a|e|c|] s1]; simpl in *; eauto.
  all: destruct (Hg s1) as (n2 & E2 & F2);
    exists (n ++ n2); rewrite E2, E, app_assoc; split; [reflexivity|];
    apply Forall_app; auto.
Qed.

Lemma other_DBLock d m : appends P (DBLock d m).
Proof. unfold DBLock. repeat appends_step. apply HP. exact I. Qed.

Lemma other_CollectionLock n m : appends P (CollectionLock n m).
Proof. unfold CollectionLock. repeat appends_step. apply HP. exact I. Qed.

Lemma other_unlock r m : appends P (unlock r m).
Proof. unfold unlock. appends_silent. Qed.

Lemma other_openDb d : appends P (openDb d).
Proof.
  apply appends_silent. intros s. unfold openDb. destruct (getDb d s); reflexivity.
Qed.

Lemma other_UUID_gen : appends P UUID_gen.
Proof. appends_silent. Qed.

Lemma other_makeUniqueCollectionNamespace d pattern :
  appends P (makeUniqueCollectionNamespace d pattern).
Proof.
  apply appends_silent. intros s. unfold makeUniqueCollectionNamespace.
  destruct (firstFreeName _ _ _ _) as [[n rest]|]; reflexivity.
Qed.

Lemma other_Database_createCollection n o : appends P (Database_createCollection n o).
Proof.
  unfold Database_createCollection. repeat appends_step. apply HP. exact I.
Qed.

Lemma other_Database_renameCollection source target stay :
  appends P (Database_renameCollection source target stay).
Proof.
  unfold Database_renameCollection. repeat appends_step. apply HP. exact I.
Qed.

Lemma other_Database_dropCollection n t : appends P (Database_dropCollection n t).
Proof.
  unfold Database_dropCollection. repeat appends_step; apply HP; exact I.
Qed.

Lemma other_dropCollectionForApplyOps n t : appends P (dropCollectionForApplyOps n t).
Proof.
  unfold dropCollectionForApplyOps.
  repeat (appends_step || apply other_Database_dropCollection). apply HP. exact I.
Qed.

Lemma other_renameCollectionDirectly theDb u source target options :
  appends P (renameCollectionDirectly theDb u source target options).
Proof.
  unfold renameCollectionDirectly, onRenameCollection.
  repeat (appends_step || apply other_Database_renameCollection). apply HP. exact I.
Qed.

Lemma other_renameCollectionAndDropTarget theDb u source target tc options t :
  appends P (renameCollectionAndDropTarget theDb u source target tc options t).
Proof.
  unfold renameCollectionAndDropTarget, preRenameCollection, postRenameCollection.
  repeat (appends_step || apply other_Database_renameCollection
          || apply other_Database_dropCollection); apply HP; exact I.
Qed.

Lemma other_renameWithinDB_locked source target options :
  appends P (renameWithinDB_locked source target options).
Proof.
  unfold renameWithinDB_locked.
  repeat (appends_step || apply appends_checkSourceAndTargetNamespaces
          || apply other_renameCollectionDirectly
          || apply other_renameCollectionAndDropTarget).
Qed.

Lemma other_renameCollectionWithinDB source target options :
  appends P (renameCollectionWithinDB source target options).
Proof.
  unfold renameCollectionWithinDB.
  repeat (appends_step || apply other_DBLock || apply other_CollectionLock
          || apply other_renameWithinDB_locked).
Qed.

Lemma other_AutoGetCollection_byUUID d u m : appends P (AutoGetCollection_byUUID d u m).
Proof.
  unfold AutoGetCollection_byUUID.
  repeat (appends_step || apply other_DBLock || apply other_CollectionLock).
Qed.

Lemma other_cursor_next : appends P cursor_next.
Proof.
  unfold cursor_next. apply appends_bind; [apply appends_emit, HP; exact I|].
  intros _. apply appends_silent. intros s. destruct (cur_rest (cursor s)); reflexivity.
Qed.

Lemma other_cursor_seekExact i : appends P (cursor_seekExact i).
Proof.
  unfold cursor_seekExact. apply appends_bind; [apply appends_emit, HP; exact I|].
  intros _. apply appends_silent. intros s.
  destruct (seekIn i (cur_store (cursor s))) as [[r rest]|]; reflexivity.
Qed.

Lemma other_cursor_save : appends P cursor_save.
Proof. unfold cursor_save. repeat appends_step. apply HP. exact I. Qed.

Lemma other_cursor_restore : appends P cursor_restore.
Proof. unfold cursor_restore. repeat appends_step. apply HP. exact I. Qed.

Lemma other_shouldFail : appends P shouldFail_writeConflictInRenameCollCopyToTmp.
Proof.
  apply appends_silent. intros s. unfold shouldFail_writeConflictInRenameCollCopyToTmp.
  destruct (writeConflictInRenameCollCopyToTmp s); reflexivity.
Qed.

Lemma other_insertDocument target doc : appends P (insertDocument target doc).
Proof.
  unfold insertDocument, storeDocument. repeat appends_step; apply HP; exact I.
Qed.

Lemma other_insertBatch tmpColl n : appends P (insertBatch tmpColl n).
Proof.
  induction n as [|n IH]; simpl; [apply appends_ret|].
  repeat (appends_step || apply other_insertDocument || apply other_cursor_next
          || exact IH).
Qed.

Lemma other_copyBatch tmpColl beginBatchId : appends P (copyBatch tmpColl beginBatchId).
Proof.
  unfold copyBatch.
  repeat (appends_step || apply other_insertBatch || apply other_cursor_seekExact
          || apply other_cursor_save || apply other_cursor_restore
          || apply other_shouldFail || apply other_ON_BLOCK_EXIT).
Qed.

Lemma other_copyLoop fuel tmpColl : appends P (copyLoop fuel tmpColl).
Proof.
  induction fuel as [|fuel IH]; intros s; simpl.
  - destruct (record s); exists []; rewrite app_nil_r; auto.
  - destruct (record s) as [r|]; [|exists []; rewrite app_nil_r; auto].
    revert s.
    change (appends P (let* _ := checkForInterrupt in
                       let* status := writeConflictRetry (copyBatch tmpColl (id r)) in
                       if negb (isOK status) then ret status
                       else copyLoop fuel tmpColl)).
    repeat (appends_step || apply other_copyBatch || exact IH).
Qed.

Lemma other_copyRecords sourceColl tmpColl : appends P (copyRecords sourceColl tmpColl).
Proof.
  unfold copyRecords, getCursor.
  repeat (appends_step || apply other_cursor_next || apply other_copyLoop).
Qed.

End OtherEvents.

Lemma copiesIndexesOf_other sc e : notCreateIndexes e -> copiesIndexesOf sc e.
Proof. destruct e; simpl; tauto. Qed.

Lemma copies_createIndexesOnEmptyCollection sc u :
  appends (copiesIndexesOf sc) (createIndexesOnEmptyCollection u (indexesToCopyOf sc)).
Proof.
  unfold createIndexesOnEmptyCollection. repeat appends_step. reflexivity.
Qed.

Lemma copies_stageAndPromote source target tmpName options sc tmpColl here there :
  appends (copiesIndexesOf sc)
          (stageAndPromote source target tmpName options sc tmpColl here there).
Proof.
  pose proof (copiesIndexesOf_other sc) as HP.
  unfold stageAndPromote.
  repeat (appends_step
          || apply copies_createIndexesOnEmptyCollection
          || apply other_catchDBException
          || apply other_unlock
          || (apply other_AutoGetCollection_byUUID; exact HP)
          || (apply other_copyRecords; exact HP)
          || (apply other_renameCollectionWithinDB; exact HP)).
Qed.

Lemma appendsAt_bind {A B} P (m : M A) (k : A -> M B) s :
  appends P m ->
  (forall a s1, m s = (Ret a, s1) -> appendsAt P (k a) s1) ->
  appendsAt P (bind m k) s.
Proof.
  intros Hm Hk. unfold appendsAt, bind.
  destruct (Hm s) as (n1 & E1 & F1).
  destruct (m s) as [[a|e|c|] s1] eqn:Em; simpl in *; eauto.
  destruct (Hk a s1 eq_refl) as (n2 & E2 & F2).
  exists (n1 ++ n2). rewrite E2, E1, app_assoc. split; [reflexivity|].
  apply Forall_app. auto.
Qed.

Lemma appendsAt_lockScope {A} P (body : M A) s :
  appendsAt P body s -> appendsAt P (lockScope body) s.
Proof.
  intros (n & E & F). unfold appendsAt, lockScope, scoped.
  destruct (body s) as [[a|e|c|] s1]; simpl in *; eauto.
Qed.

Lemma appendsAt_weaken {A} (P Q : Event -> Prop) (m : M A) s :
  (forall e, P e -> Q e) -> appends P m -> appendsAt Q m s.
Proof.
  intros HPQ Hm. destruct (Hm s) as (n & E & F). exists n. split; [exact E|].
  eapply Forall_impl; eauto.
Qed.

Lemma quiet_invariant line cond : quiet (invariant line cond).
Proof.
  intros s a s1. unfold invariant. destruct cond; intros E; inversion E; auto.
Qed.

Lemma quiet_DBLock d m : quiet (DBLock d m).
Proof. intros s a s1 E. inversion E. auto. Qed.

Lemma quiet_CollectionLock n m : quiet (CollectionLock n m).
Proof. intros s a s1 E. inversion E. auto. Qed.

Lemma quiet_checkDbVersion d : quiet (checkDbVersion d).
Proof.
  intros s a s1. unfold checkDbVersion, bind, get, uassert.
  destruct (dbVersionOk (env s) d); intros E; inversion E; auto.
Qed.

Lemma quiet_bind {A B} (m : M A) (k : A -> M B) :
  quiet m -> (forall a, quiet (k a)) -> quiet (bind m k).
Proof.
  intros Hm Hk s b s2. unfold bind.
  destruct (m s) as [[a|e|c|] s1] eqn:Em; try discriminate.
  intros E. destruct (Hm _ _ _ Em) as [Hc He].
  destruct (Hk a _ _ _ E) as [Hc2 He2]. split; congruence.
Qed.

Lemma quiet_ret {A} (a : A) : quiet (ret a).
Proof. intros s b s1 E. inversion E. auto. Qed.

Lemma renameBetweenDBs_index_events source target options s :
  appendsAt (sourceIndexEvent source s) (renameBetweenDBs source target options) s.
Proof.
  set (P := sourceIndexEvent source s).
  assert (HP : forall e, notCreateIndexes e -> P e) by (intros []; simpl; tauto).
  unfold renameBetweenDBs.
  apply appendsAt_bind; [repeat appends_step|].
  intros [] s1 E1. apply quiet_invariant in E1 as [Hc1 He1].
  apply appendsAt_lockScope.
  apply appendsAt_bind; [appends_silent|].
  intros sa s2 Eg. injection Eg as <- <-.
  apply appendsAt_bind;
    [repeat (appends_step || apply other_DBLock || apply other_CollectionLock); exact HP|].
  intros [] s3 E3.
  assert (H3 : catalog s3 = catalog s1 /\ env s3 = env s1).
  { revert E3. match goal with |- ?m s1 = _ -> _ => assert (Hq : quiet m) end.
    { destruct (negb _); [|apply quiet_ret].
      apply quiet_bind; [apply quiet_DBLock|intros; apply quiet_CollectionLock]. }
    apply Hq. }
  clear E3. destruct H3 as [Hc3 He3].
  apply appendsAt_bind; [appends_silent|].
  intros sa s4 Eg. injection Eg as <- <-.
  apply appendsAt_bind; [repeat (appends_step || apply other_DBLock); exact HP|].
  intros [] s5 E5.
  assert (H5 : catalog s5 = catalog s3 /\ env s5 = env s3).
  { revert E5. match goal with |- ?m s3 = _ -> _ => assert (Hq : quiet m) end.
    { destruct (negb _); [apply quiet_DBLock|apply quiet_ret]. }
    apply Hq. }
  clear E5. destruct H5 as [Hc5 He5].
  apply appendsAt_bind; [repeat appends_step|].
  intros [] s6 E6. apply quiet_checkDbVersion in E6 as [Hc6 He6].
  apply appendsAt_bind; [appends_silent|].
  intros sa s7 Eg. injection Eg as <- <-.
  destruct (getDb (db source) s6) as [sourceDB|];
    [|apply (appendsAt_weaken P P); [auto|apply appends_ret]].
  destruct (lookupCollectionByNamespace source s6) as [sourceColl|] eqn:Hsc;
    [|apply (appendsAt_weaken P P); [auto|repeat appends_step]].
  destruct (negb _ && _);
    [apply (appendsAt_weaken P P); [auto|apply appends_ret]|].
  destruct (isReplicatedChanged source target s6);
    [apply (appendsAt_weaken P P); [auto|apply appends_ret]|].
  apply appendsAt_bind; [repeat appends_step|].
  intros [] s7 E7.
  assert (H7 : catalog s7 = catalog s6 /\ env s7 = env s6).
  { revert E7. unfold assertNoBgOpInProgForNs, bind, get, uassert.
    destruct (negb _); intros E; inversion E; auto. }
  clear E7. destruct H7 as [Hc7 He7].
  apply appendsAt_bind; [repeat appends_step|].
  intros [] s8 E8.
  assert (Hbuild : indexBuildInProgForCollection (env s7) (uuid sourceColl) = false).
  { revert E8. unfold assertNoIndexBuildInProgForCollection, bind, get, uassert.
    destruct (indexBuildInProgForCollection (env s7) (uuid sourceColl));
      [discriminate|reflexivity]. }
  clear E8.
  apply (appendsAt_weaken (copiesIndexesOf sourceColl) P).
  { intros [] He; simpl; trivial. simpl in He. subst.
    exists sourceColl. split; [|split; [|reflexivity]].
    - unfold lookupCollectionByNamespace in *. congruence.
    - congruence. }
  pose proof (copiesIndexesOf_other sourceColl) as HQ.
  repeat (appends_step
          || apply other_openDb
          || apply other_makeUniqueCollectionNamespace
          || apply other_UUID_gen
          || (apply other_Database_createCollection; exact HQ)
          || apply other_guarded
          || apply other_catchDBException
          || (apply other_dropCollectionForApplyOps; exact HQ)
          || apply copies_stageAndPromote).
Qed.

Lemma copyIndexDescriptions_spec l : forall acc,
  copyIndexDescriptions l acc
  = acc ++ map (fun e => infoObj (descriptor e))
               (List.filter (fun e => negb (isIdIndex (descriptor e))) l).
Proof.
  induction l as [|e l IH]; intros acc; simpl.
  - rewrite app_nil_r. reflexivity.
  - destruct (isIdIndex (descriptor e)); simpl; rewrite IH; [reflexivity|].
    rewrite <- app_assoc. reflexivity.
Qed.

(** The loop of lines 608-617 collects the descriptors of all the entries
    the iterator gives, except the [_id] index. *)
Lemma indexesToCopyOf_spec sc :
  indexesToCopyOf sc
  = map (fun e => infoObj (descriptor e))
        (List.filter (fun e => negb (isIdIndex (descriptor e))) (indexCatalog sc)).
Proof. unfold indexesToCopyOf, getIndexIterator. apply copyIndexDescriptions_spec. Qed.

Lemma indexesToCopyOf_ready sc :
  (forall e, In e (indexCatalog sc) -> isReady e = true) ->
  indexesToCopyOf sc = readyIndexSpecs sc.
Proof.
  intros Hr. rewrite indexesToCopyOf_spec. unfold readyIndexSpecs. f_equal.
  induction (indexCatalog sc) as [|e l IH]; simpl; [reflexivity|].
  rewrite (Hr e (or_introl eq_refl)). simpl.
  rewrite IH; [reflexivity|]. intros x Hx. apply Hr. right. exact Hx.
Qed.

Lemma findByNs_In n l c : findByNs n l = Some c -> In c l.
Proof. intros H. apply find_some in H. tauto. Qed.




(** The rename of [db1.x] into [db2] copies the index [a_1] and leaves the
    [_id] index to the creation of the staging collection. *)
Example rename_copies_ready_indexes_trace :
  let run := renameBetweenDBs Fixture.nssX Fixture.nssOther (mkRenameOptions false false)
               Fixture.primary in
  fst run = Ret OK
  /\ indexCreations (newEvents Fixture.primary (snd run))
     = [(1000%N, [[("name", BString "a_1")]])].
Proof. vm_compute. split; reflexivity. Qed.

(** A source with an unfinished index and its build registered: the rename
    stops at the assertion of line 515, and nothing is copied. *)
Example rename_while_index_build :
  let run := renameBetweenDBs (mkNss "db1" "b") Fixture.nssOther
               (mkRenameOptions false false) IndexFixture.building in
  fst run = Throw (DBException BackgroundOperationInProgressForNamespace)
  /\ indexCreations (newEvents IndexFixture.building (snd run)) = [].
Proof. vm_compute. split; reflexivity. Qed.

(** The loop itself does not look at [isReady]: the iterator is asked for
    the unfinished entries as well. *)
Example loop_takes_what_the_iterator_gives :
  indexesToCopyOf IndexFixture.collBuilding
  = [[("name", BString "a_1")]; [("name", BString "b_1")]].
Proof. reflexivity. Qed.

(** * More of rename_collection.cpp *)

(** ** The precondition checker *)

(** X1.  [checkSourceAndTargetNamespaces] returns OK exactly when the
    checks on the source pass (the node accepts writes for it, it is not
    sharded, source and target are both replicated or both unreplicated, its
    database is there and not drop-pending, the collection exists, no
    background operation or index build runs on it) and the target is
    acceptable; it then leaves the state as it was. *)
Theorem checkSourceAndTargetNamespaces_ok_iff
  s source target options targetExistsAllowed :
  checkSourceAndTargetNamespaces source target options targetExistsAllowed s
  = (Ret OK, s)
  <-> sourceAccepted source target s
      /\ targetAccepted source target options targetExistsAllowed s.
Proof.
  split.
  - intros H. unfold checkSourceAndTargetNamespaces in H. msimpl.
    destruct (writesAreReplicated s && negb (canAcceptWritesFor (env s) source))
      eqn:H1; [discriminate|].
    destruct (negb (useRenameCollectionPathThroughConfigsvr (env s))
              && isSharded (env s) source) eqn:H2; [discriminate|].
    destruct (negb (eqb _ _)) eqn:H3; [discriminate|].
    destruct (find _ (databases s)) as [d|] eqn:Hd; [|discriminate].
    destruct (db_dropPending d) eqn:Hp; [discriminate|].
    destruct (findByNs source (catalog s)) as [c|] eqn:Hc;
      [|destruct (viewLookup d (ns source)); discriminate].
    simpl in H.
    destruct (bgOpInProgForNs (env s) (ns source)) eqn:Hbg; [discriminate|].
    simpl in H.
    destruct (indexBuildInProgForCollection (env s) (uuid c)) eqn:Hib; [discriminate|].
    simpl in H. split.
    + unfold sourceAccepted. msimpl. rewrite H1, H2, H3, Hd, Hc.
      repeat split; eauto.
    + unfold targetAccepted. msimpl.
      destruct (findByNs target (catalog s)) as [tc|] eqn:Ht.
      * destruct (isSharded (env s) target); [discriminate|].
        destruct targetExistsAllowed, (dropTarget options); simpl in *;
          try discriminate; auto.
      * intros d' Hd'. rewrite Hd in Hd'. injection Hd' as <-.
        destruct (viewLookup d (ns target)); [discriminate|reflexivity].
  - intros [Hs Ht]. unfold targetAccepted in Ht.
    destruct (lookupCollectionByNamespace target s) as [tc|] eqn:Hl.
    + rewrite (check_target_collection s source target options targetExistsAllowed tc
                 Hs Hl).
      destruct Ht as [-> Hok].
      destruct targetExistsAllowed, (dropTarget options); simpl in *;
        try discriminate; reflexivity.
    + pose proof Hs as (_ & _ & _ & (d & Hd & _) & _).
      rewrite (check_target_view s source target options targetExistsAllowed d Hs Hl Hd).
      rewrite (Ht d Hd). reflexivity.
Qed.

(** X2.  The checks on the source come first and in a fixed order: a node
    that does not accept writes gives [NotMaster]; then a sharded source
    gives [IllegalOperation] (unless the fail point sends renames through
    the config server); then a rename across the replicated/unreplicated
    boundary gives [IllegalOperation]; then a missing or drop-pending
    database gives [NamespaceNotFound]; then a missing source gives
    [CommandNotSupportedOnView] if a view has its name and
    [NamespaceNotFound] otherwise; then a background operation or an index
    build on the source makes the assertion throw.  None of this depends on
    the target's state, on the options or on [targetExistsAllowed], and the
    state is left as it was. *)
Theorem checkSourceAndTargetNamespaces_source_rules
  s source target options targetExistsAllowed r :
  SourceRule s source target r ->
  checkSourceAndTargetNamespaces source target options targetExistsAllowed s = (r, s).
Proof.
  intros H. unfold checkSourceAndTargetNamespaces.
  destruct H; msimpl;
    repeat match goal with
           | H : _ = _ |- _ => rewrite H; clear H; msimpl
           end; try reflexivity.
  destruct (bgOpInProgForNs (env s) (ns source)); simpl; [reflexivity|].
  simpl in *. rewrite H5. reflexivity.
Qed.

Lemma checkSourceAndTargetNamespaces_source_rules_witness :
  checkSourceAndTargetNamespaces Fixture.nssView Fixture.nssY
    (mkRenameOptions true false) true Fixture.primary
  = (Ret (Error CommandNotSupportedOnView), Fixture.primary).
Proof.
  apply checkSourceAndTargetNamespaces_source_rules.
  apply (ViewSource _ _ _ (mkDatabase "db1" false ["db1.v"])); reflexivity.
Defined.

(** ** The same-database rename: what it leaves behind *)

(** The calls and the catalog of a same-database rename that returns OK. *)
Lemma renameCollectionWithinDB_success_shape s s' source target options :
  renameCollectionWithinDB source target options s = (Ret OK, s') ->
  exists sc first second,
    lookupCollectionByNamespace source s = Some sc
    /\ lockState s' = lockState s
    /\ writesAreReplicated s' = writesAreReplicated s
    /\ match lookupCollectionByNamespace target s with
       | None =>
           newEvents s s'
           = [EvLockDB (db source) MODE_IX;
              EvLockCollection first MODE_X; EvLockCollection second MODE_X;
              EvDbRenameCollection source target (stayTemp options);
              EvOnRenameCollection source target (uuid sc) None 0 (stayTemp options)]
           /\ catalog s' = rebindFirst source target (stayTemp options) (catalog s)
       | Some tc =>
           dropTarget options = true
           /\ newEvents s s'
              = [EvLockDB (db source) MODE_IX;
                 EvLockCollection first MODE_X; EvLockCollection second MODE_X;
                 EvPreRenameCollection source target (uuid sc) (uuid tc)
                                       (numRecords tc) (stayTemp options);
                 EvDbDropCollection target
                   (observerPreRenameOpTime (env s) (writesAreReplicated s) source target)
                   false;
                 EvDbRenameCollection source target (stayTemp options);
                 EvPostRenameCollection source target (uuid sc) (uuid tc)
                                        (stayTemp options)]
           /\ catalog s'
              = rebindFirst source target (stayTemp options)
                  (List.filter (fun c => negb (bool_decide (c_ns c = target)))
                               (catalog s))
       end.
Proof.
  unfold renameCollectionWithinDB, renameWithinDB_locked, lockScope, scoped, DBLock,
    CollectionLock, checkSourceAndTargetNamespaces, renameCollectionDirectly,
    renameCollectionAndDropTarget, writeConflictRetry, WriteUnitOfWork,
    UnreplicatedWritesBlock, scoped, preRenameCollection, postRenameCollection,
    onRenameCollection, Database_dropCollection, Database_renameCollection, commit,
    nullDereference.
  msimpl.
  case_all; intros H; try discriminate H; inversion H; subst; clear H; simpl.
  all: simplify_eq.
  all: do 3 eexists.
  all: repeat match goal with |- _ /\ _ => split end.
  all: try reflexivity.
  all: try match goal with
           | Ht : findByNs ?t (catalog _) = Some ?tc |- context [c_ns ?tc] =>
               destruct (findByNs_Some _ _ _ Ht) as [_ Hns]; rewrite Hns
           end.
  all: try reflexivity.
  all: trace_simpl.
  all: try match goal with
           | H : writesAreReplicated _ = _ |- _ => rewrite ?H
           end.
  all: try reflexivity.
Qed.



(** X4.  A same-database rename that does not return OK (an error status,
    an exception, a failed invariant) leaves the catalog as it was, also
    when the target had already been dropped inside the write unit, and has
    told the observer of no completed rename.  If it returns or throws, the
    locks and the replication flag are as before the call. *)
Theorem renameCollectionWithinDB_failure s o s' source target options :
  renameCollectionWithinDB source target options s = (o, s') ->
  o <> Ret OK ->
  catalog s' = catalog s
  /\ Forall (fun e => ~ completionEvent e) (newEvents s s')
  /\ ((exists c, o = Fatal c)
      \/ (lockState s' = lockState s
          /\ writesAreReplicated s' = writesAreReplicated s)).
Proof.
  unfold renameCollectionWithinDB, renameWithinDB_locked, lockScope, scoped, DBLock,
    CollectionLock, checkSourceAndTargetNamespaces, renameCollectionDirectly,
    renameCollectionAndDropTarget, writeConflictRetry, WriteUnitOfWork,
    UnreplicatedWritesBlock, scoped, preRenameCollection, postRenameCollection,
    onRenameCollection, Database_dropCollection, Database_renameCollection, commit,
    nullDereference.
  msimpl.
  case_all; intros H Hne; inversion H; subst; clear H; simpl;
    try (exfalso; apply Hne; reflexivity).
  all: (split; [reflexivity|]).
  all: (split; [trace_simpl; repeat constructor; simpl; tauto|]).
  all: try (right; split; [reflexivity|];
            try match goal with
                | H : writesAreReplicated _ = _ |- _ => rewrite H
                end; reflexivity).
  all: left; eexists; reflexivity.
Qed.

Lemma renameCollectionWithinDB_failure_witness :
  let run := renameCollectionWithinDB Fixture.nssY Fixture.nssY
               (mkRenameOptions true false) Fixture.primary in
  fst run = Ret (Error NamespaceNotFound)
  /\ In (EvDbDropCollection Fixture.nssY (mkOpTime 7 1) false)
        (newEvents Fixture.primary (snd run))
  /\ catalog (snd run) = catalog Fixture.primary.
Proof.
  intros run.
  assert (E : renameCollectionWithinDB Fixture.nssY Fixture.nssY
                (mkRenameOptions true false) Fixture.primary
              = (Ret (Error NamespaceNotFound), snd run))
    by (vm_compute; reflexivity).
  split; [vm_compute; reflexivity|].
  split; [vm_compute; auto 10|].
  apply (renameCollectionWithinDB_failure _ _ _ _ _ _ E). discriminate.
Defined.

Lemma map_uuid_rebindFirst source target stay l :
  map uuid (rebindFirst source target stay l) = map uuid l.
Proof.
  induction l as [|c l IH]; simpl; [reflexivity|].
  destruct (bool_decide (c_ns c = source)); simpl; [reflexivity|].
  rewrite IH. reflexivity.
Qed.

(** Without [dropTarget], the same-database rename drops nothing. *)
Lemma renameCollectionWithinDB_keeps_collections s o s' source target options :
  dropTarget options = false ->
  renameCollectionWithinDB source target options s = (o, s') ->
  Forall (fun e => ~ dropCall e) (newEvents s s')
  /\ map uuid (catalog s') = map uuid (catalog s).
Proof.
  intros Hdrop.
  unfold renameCollectionWithinDB, renameWithinDB_locked, lockScope, scoped, DBLock,
    CollectionLock, checkSourceAndTargetNamespaces, renameCollectionDirectly,
    renameCollectionAndDropTarget, writeConflictRetry, WriteUnitOfWork,
    UnreplicatedWritesBlock, scoped, preRenameCollection, postRenameCollection,
    onRenameCollection, Database_dropCollection, Database_renameCollection, commit,
    nullDereference.
  msimpl. rewrite ?Hdrop. msimpl.
  case_all; intros H; inversion H; subst; clear H; simpl; try congruence.
  all: (split; [trace_simpl; repeat constructor; simpl; tauto|]).
  all: rewrite ?map_uuid_rebindFirst; reflexivity.
Qed.

(** X5.  A same-database rename called without [dropTarget] never drops a
    collection: whatever its outcome, it makes no drop call, and the catalog
    holds the same collections (by UUID, in the same order) as before. *)
Theorem renameCollectionWithinDB_without_dropTarget s source target options :
  dropTarget options = false ->
  let run := renameCollectionWithinDB source target options s in
  Forall (fun e => ~ dropCall e) (newEvents s (snd run))
  /\ map uuid (catalog (snd run)) = map uuid (catalog s).
Proof.
  intros Hdrop run.
  destruct (renameCollectionWithinDB source target options s) as [o s'] eqn:E.
  exact (renameCollectionWithinDB_keeps_collections s o s' source target options Hdrop E).
Qed.

Lemma renameCollectionWithinDB_without_dropTarget_witness :
  map uuid (catalog (snd (renameCollectionWithinDB Fixture.nssX Fixture.nssZ
                            (mkRenameOptions false true) Fixture.primary)))
  = [1%N; 2%N; 3%N].
Proof.
  apply (renameCollectionWithinDB_without_dropTarget Fixture.primary Fixture.nssX
           Fixture.nssZ (mkRenameOptions false true) eq_refl).
Defined.

(** ** The rename of a rollback *)

Lemma findByUUID_Some u l c : findByUUID u l = Some c -> In c l /\ uuid c = u.
Proof.
  intros H. apply find_some in H. destruct H as [Hin Hb].
  apply bool_decide_eq_true_1 in Hb. auto.
Qed.

(** X6.  [renameCollectionForRollback] renames the collection that has the
    given UUID, whatever its name: when the call returns OK, the target name
    was free before, the collection under it afterwards has that UUID
    (namespaces being unique in the catalog), and nothing was dropped. *)
Theorem renameCollectionForRollback_moves_uuid s s' target u :
  List.NoDup (map c_ns (catalog s)) ->
  renameCollectionForRollback target u s = (Ret OK, s') ->
  lookupCollectionByNamespace target s = None
  /\ uuid <$> lookupCollectionByNamespace target s' = Some u
  /\ map uuid (catalog s') = map uuid (catalog s)
  /\ Forall (fun e => ~ dropCall e) (newEvents s s').
Proof.
  intros Hnd. unfold renameCollectionForRollback.
  unfold bind at 1, get at 1. cbv beta iota.
  unfold getNamespaceFromUUID, lookupNSSByUUID.
  destruct (findByUUID u (catalog s)) as [c|] eqn:Hu; simpl; [|discriminate].
  unfold bind at 1, invariant.
  destruct (bool_decide (db (c_ns c) = db target)); simpl; [|discriminate].
  intros E.
  destruct (renameCollectionWithinDB_keeps_collections s _ s' (c_ns c) target
              defaultRenameOptions eq_refl E)
    as [Hnodrop Hsame].
  destruct (renameCollectionWithinDB_success_shape _ _ _ _ _ E)
    as (sc' & first & second & Hsc' & _ & _ & Hshape).
  destruct (renameCollectionWithinDB_ok _ _ _ _ _ E) as (sc & Hsc & Ht).
  destruct (findByUUID_Some _ _ _ Hu) as [Hin Huuid].
  destruct (findByNs_Some _ _ _ Hsc) as [Hin' Hns].
  assert (sc = c) by (eapply NoDup_map_inj; eauto). subst sc.
  split.
  { destruct (lookupCollectionByNamespace target s); [|reflexivity].
    destruct Hshape as [Habs _]. discriminate Habs. }
  split; [rewrite Ht; simpl; congruence|].
  split; assumption.
Qed.

Lemma renameCollectionForRollback_moves_uuid_witness :
  exists s',
    renameCollectionForRollback Fixture.nssZ 1%N Fixture.primary = (Ret OK, s')
    /\ uuid <$> lookupCollectionByNamespace Fixture.nssZ s' = Some 1%N.
Proof.
  pose (s' := snd (renameCollectionForRollback Fixture.nssZ 1%N Fixture.primary)).
  assert (E : renameCollectionForRollback Fixture.nssZ 1%N Fixture.primary = (Ret OK, s'))
    by (vm_compute; reflexivity).
  assert (Hnd : List.NoDup (map c_ns (catalog Fixture.primary))).
  { simpl. repeat constructor; simpl; intuition discriminate. }
  exists s'. split; [exact E|].
  apply (renameCollectionForRollback_moves_uuid _ _ _ _ Hnd E).
Defined.

(** ** Moving the target aside *)

Lemma firstFreeName_free d pattern tokens l n rest :
  firstFreeName d pattern tokens l = Some (n, rest) ->
  findByNs n l = None /\ db n = d /\ exists t, coll n = fillPattern pattern t.
Proof.
  induction tokens as [|t tokens IH]; simpl; [discriminate|].
  destruct (findByNs (mkNss d (fillPattern pattern t)) l) eqn:Hf.
  - exact IH.
  - intros H. injection H as <- <-. simpl. eauto.
Qed.



(** ** The same-database rename of apply-ops: the other branches *)

(** X8.  Re-applying a rename that has already happened: when the checks
    pass and the collection under the target name has the UUID of the
    source, and no UUID to drop is given or the one given is that same UUID,
    the call returns OK and has only taken its database lock: nothing is
    renamed, nothing is dropped, the observer is not called. *)
Theorem renameCollectionWithinDBForApplyOps_reapply
  s source target uuidToDrop renameOpTimeFromApplyOps options sc tc :
  db source = db target ->
  dbVersionOk (env s) (db source) = true ->
  sourceAccepted source target s ->
  lookupCollectionByNamespace source s = Some sc ->
  lookupCollectionByNamespace target s = Some tc ->
  isCollectionSharded target s = false ->
  uuid sc = uuid tc ->
  uuidToDrop = None \/ uuidToDrop = Some (uuid tc) ->
  renameCollectionWithinDBForApplyOps source target uuidToDrop
    renameOpTimeFromApplyOps options s
  = (Ret OK, set_events (events s ++ [EvLockDB (db source) MODE_X]) s).
Proof.
  intros Hdb Hver Hacc Hsc Htc Hsh Huuid Hu.
  pose proof Hacc as (_ & _ & _ & (d & Hd & _) & _).
  unfold renameCollectionWithinDBForApplyOps, lockScope, scoped, DBLock.
  unfold bind at 1; unfold invariant;
    rewrite bool_decide_eq_true_2 by exact Hdb;
    unfold ret at 1; cbv beta iota;
    unfold bind at 1; unfold bind at 1; unfold emit, modify; cbv beta iota;
    unfold bind at 1; unfold checkDbVersion at 1; unfold bind at 1, get at 1;
    cbv beta iota; simpl env; rewrite Hver; unfold uassert, ret at 1; cbv beta iota;
    unfold bind at 1;
    (erewrite check_target_collection; [|exact Hacc|exact Htc]);
    change (isCollectionSharded target _) with (isCollectionSharded target s);
    rewrite Hsh; simpl negb; cbv beta iota;
    unfold writeConflictRetry, WriteUnitOfWork, UnreplicatedWritesBlock, scoped,
      Database_dropCollection, commit;
    msimpl; rewrite Hd, Hsc; msimpl; rewrite Htc; msimpl;
    rewrite (bool_decide_eq_true_2 _ Huuid).
  destruct Hu as [-> | ->]; msimpl.
  - reflexivity.
  - rewrite bool_decide_eq_true_2 by reflexivity. msimpl. reflexivity.
Qed.

Lemma renameCollectionWithinDBForApplyOps_reapply_witness :
  renameCollectionWithinDBForApplyOps Fixture.nssY Fixture.nssY (Some 2%N)
    (mkOpTime 5 1) (mkRenameOptions true false) Fixture.secondary
  = (Ret OK, set_events [EvLockDB "db1" MODE_X] Fixture.secondary).
Proof.
  apply (renameCollectionWithinDBForApplyOps_reapply Fixture.secondary
           Fixture.nssY Fixture.nssY (Some 2%N) (mkOpTime 5 1)
           (mkRenameOptions true false) Fixture.collY Fixture.collY);
    try reflexivity.
  - repeat split; try reflexivity.
    + exists (mkDatabase "db1" false ["db1.v"]). split; reflexivity.
    + exists Fixture.collY. repeat split; reflexivity.
  - right. reflexivity.
Defined.

Lemma findByNs_rebindFirst_other n a b stay l :
  n <> a -> n <> b -> findByNs n (rebindFirst a b stay l) = findByNs n l.
Proof.
  intros Ha Hb. induction l as [|c l IH]; simpl; [reflexivity|].
  destruct (bool_decide (c_ns c = a)) eqn:Eca; simpl.
  - apply bool_decide_eq_true_1 in Eca.
    rewrite !bool_decide_eq_false_2 by congruence. reflexivity.
  - destruct (bool_decide (c_ns c = n)); [reflexivity|exact IH].
Qed.

Lemma findByNs_not_in n l : ~ In n (map c_ns l) -> findByNs n l = None.
Proof.
  induction l as [|c l IH]; simpl; intros H; [reflexivity|].
  rewrite bool_decide_eq_false_2 by tauto. apply IH. tauto.
Qed.

Lemma findByNs_rebindFirst_source a b stay l :
  List.NoDup (map c_ns l) -> a <> b -> findByNs a (rebindFirst a b stay l) = None.
Proof.
  intros Hnd Hab. induction l as [|c l IH]; simpl; [reflexivity|].
  inversion Hnd as [|? ? Hnotin Hnd']; subst.
  destruct (bool_decide (c_ns c = a)) eqn:Eca; simpl.
  - apply bool_decide_eq_true_1 in Eca.
    rewrite bool_decide_eq_false_2 by congruence.
    apply findByNs_not_in. congruence.
  - rewrite Eca. apply IH. exact Hnd'.
Qed.



(** ** The assertions of the code *)

(** X10.  In [renameCollectionWithinDB] the only invariants that can fail
    are the one on the caller's arguments (line 293: source and target in
    one database) and the one on the replication coordinator (line 243: a
    target whose oplog is enabled while writes are not replicated).  The
    pointers taken after the checks ([db], [sourceColl]) are never null, the
    swap-drop renamer is only entered with [dropTarget] set (line 235) and
    with a null apply-ops optime (lines 244, 40616). *)
Theorem renameCollectionWithinDB_invariants s source target options :
  let run := renameCollectionWithinDB source target options s in
  forall c, fst run = Fatal c ->
    (c = 293%N /\ db source <> db target)
    \/ (c = 243%N /\ writesAreReplicated s = false
        /\ isOplogDisabledFor (env s) false target = false).
Proof.
  cbv zeta.
  destruct (renameCollectionWithinDB source target options s) as [o s'] eqn:E.
  revert E.
  unfold renameCollectionWithinDB, renameWithinDB_locked, lockScope, scoped, DBLock,
    CollectionLock, checkSourceAndTargetNamespaces, renameCollectionDirectly,
    renameCollectionAndDropTarget, writeConflictRetry, WriteUnitOfWork,
    UnreplicatedWritesBlock, scoped, preRenameCollection, postRenameCollection,
    onRenameCollection, Database_dropCollection, Database_renameCollection, commit,
    nullDereference.
  msimpl.
  case_all; intros H; inversion H; subst; clear H; simpl.
  all: intros code Hc; try discriminate Hc; injection Hc as <-.
  all: try congruence.
  all: try (simpl in *; congruence).
  all: try (right; split; [reflexivity|]; split; [reflexivity|];
            match goal with
            | H : negb (isOplogDisabledFor _ _ _) = true |- _ =>
                apply negb_true_iff in H; exact H
            end).
  all: left; split; [reflexivity|];
    match goal with
    | H : bool_decide _ = false |- _ => apply bool_decide_eq_false_1 in H; exact H
    end.
Qed.

Lemma renameCollectionWithinDB_invariants_witness :
  fst (renameCollectionWithinDB Fixture.nssX Fixture.nssOther
         (mkRenameOptions true false) Fixture.primary) = Fatal 293
  /\ ((293 = 293 /\ db Fixture.nssX <> db Fixture.nssOther)
      \/ (293 = 243 /\ writesAreReplicated Fixture.primary = false
          /\ isOplogDisabledFor (env Fixture.primary) false Fixture.nssOther = false))%N.
Proof.
  split; [vm_compute; reflexivity|].
  apply (renameCollectionWithinDB_invariants Fixture.primary Fixture.nssX
           Fixture.nssOther (mkRenameOptions true false)).
  vm_compute. reflexivity.
Defined.

(** X11.  In [renameCollectionWithinDBForApplyOps], when a UUID to drop
    comes with [dropTarget] set (as [renameCollectionForApplyOps] passes
    them), the invariants on [dropTarget] (lines 419 and 235) hold, the
    target database is locked exclusively where
    [renameTargetCollectionToTmp] asserts it (line 159), and no null pointer
    is dereferenced: the only assertions that can fail are the one on the
    caller's namespaces (351), the one on the database of the collection to
    drop (422), those on the replication state (243, 244) and the fatal log
    line 40616. *)
Theorem renameCollectionWithinDBForApplyOps_invariants
  s source target uuidToDrop renameOpTimeFromApplyOps options :
  (uuidToDrop <> None -> dropTarget options = true) ->
  let run := renameCollectionWithinDBForApplyOps source target uuidToDrop
               renameOpTimeFromApplyOps options s in
  forall c, fst run = Fatal c ->
    c = 351%N \/ c = 422%N \/ c = 243%N \/ c = 244%N \/ c = 40616%N.
Proof.
  intros Hcaller. cbv zeta.
  destruct (renameCollectionWithinDBForApplyOps source target uuidToDrop
              renameOpTimeFromApplyOps options s) as [o s'] eqn:E.
  revert E.
  unfold renameCollectionWithinDBForApplyOps, lockScope, scoped, DBLock,
    checkSourceAndTargetNamespaces, renameTargetCollectionToTmp,
    makeUniqueCollectionNamespace, renameCollectionDirectly,
    renameCollectionAndDropTarget, writeConflictRetry, WriteUnitOfWork,
    UnreplicatedWritesBlock, scoped, preRenameCollection, postRenameCollection,
    onRenameCollection, Database_dropCollection, Database_renameCollection, commit,
    nullDereference, isDbLockedForMode, holds.
  msimpl.
  case_all; intros H; inversion H; subst; clear H; simpl.
  all: intros code Hc; try discriminate Hc; injection Hc as <-.
  all: try tauto.
  all: try congruence.
  all: try (exfalso;
            match goal with
            | H : Some _ <> None -> _ |- _ =>
                specialize (H ltac:(discriminate)); congruence
            end).
  all: try (exfalso; destruct uuidToDrop;
            [specialize (Hcaller ltac:(discriminate)); congruence
            |simpl in *; congruence]).
  all: exfalso;
    match goal with
    | Hf : find _ (databases _) = Some ?d0,
      H : bool_decide (ResDatabase _ = ResDatabase (db_name ?d0)) && true || _ = false
      |- _ =>
        apply find_some in Hf; destruct Hf as [_ Hb];
        apply bool_decide_eq_true_1 in Hb; rewrite Hb in H;
        rewrite bool_decide_eq_true_2 in H by reflexivity; discriminate H
    end.
Qed.

Lemma renameCollectionWithinDBForApplyOps_invariants_witness :
  fst (renameCollectionWithinDBForApplyOps Fixture.nssX Fixture.nssOther (Some 2%N)
         (mkOpTime 5 1) (mkRenameOptions true false) Fixture.secondary) = Fatal 351
  /\ (351 = 351 \/ 351 = 422 \/ 351 = 243 \/ 351 = 244 \/ 351 = 40616)%N.
Proof.
  split; [vm_compute; reflexivity|].
  apply (renameCollectionWithinDBForApplyOps_invariants Fixture.secondary Fixture.nssX
           Fixture.nssOther (Some 2%N) (mkOpTime 5 1) (mkRenameOptions true false));
    [intros _; reflexivity | vm_compute; reflexivity].
Defined.

(** ** The apply-ops entry point: more of its cases *)

(** X12.  Once the command has passed the checks on its form, when the
    source is drop-pending or resolves to no collection and the
    [dropTarget] field is not a UUID, the rename is downgraded: with a true
    [dropTarget] the call is the drop of the target namespace through
    [dropCollectionForApplyOps], with the optime of the entry; with a false
    or missing one it returns [NamespaceNotFound] and leaves the state as it
    was. *)
Theorem renameCollectionForApplyOps_missing_source
  s dbName uuidToRename cmd renameOpTime sourceText targetText :
  negb (isNull renameOpTime) && writesAreReplicated s = false ->
  firstElement cmd = BString sourceText ->
  getField cmd "to" = BString targetText ->
  isBinData (getField cmd "dropTarget") = false ->
  userAllowedWriteNS (env s) (parseNss targetText) = OK ->
  bool_decide (getReplicationMode (env s) = modeNone) && isOplog (parseNss targetText)
    = false ->
  isDropPendingNamespace (effectiveSource s uuidToRename sourceText) = true
  \/ lookupCollectionByNamespace (effectiveSource s uuidToRename sourceText) s = None ->
  renameCollectionForApplyOps dbName uuidToRename cmd renameOpTime s
  = if trueValue (getField cmd "dropTarget")
    then dropCollectionForApplyOps (parseNss targetText) renameOpTime s
    else (Ret (Error NamespaceNotFound), s).
Proof.
  intros H0 H1 H2 H3 H4 H5 H6.
  unfold renameCollectionForApplyOps, effectiveSource, AutoGetCollectionForRead in *.
  msimpl. rewrite H0, H1, H2, H3. msimpl. rewrite H4, H5. msimpl.
  match goal with
  | |- context [isDropPendingNamespace ?n || bool_decide (?l = None)] =>
      assert (Hc : isDropPendingNamespace n || bool_decide (l = None) = true)
  end.
  { destruct H6 as [H6|H6]; rewrite H6; [reflexivity|].
    rewrite bool_decide_eq_true_2 by reflexivity. apply orb_true_r. }
  rewrite Hc. msimpl.
  destruct (trueValue (getField cmd "dropTarget")); reflexivity.
Qed.

Lemma renameCollectionForApplyOps_missing_source_witness :
  renameCollectionForApplyOps "db1" None
    [("renameCollection", BString "db1.gone"); ("to", BString "db1.y");
     ("dropTarget", BBool true)]
    (mkOpTime 5 1) Fixture.secondary
  = (Ret OK,
     set_catalog [Fixture.collX; Fixture.collSharded]
       (set_events [EvDropCollectionForApplyOps Fixture.nssY (mkOpTime 5 1);
                    EvDbDropCollection Fixture.nssY (mkOpTime 5 1) false]
                   Fixture.secondary)).
Proof.
  rewrite (renameCollectionForApplyOps_missing_source Fixture.secondary "db1" None
             _ (mkOpTime 5 1) "db1.gone" "db1.y");
    try reflexivity.
  right. reflexivity.
Defined.

(** X13.  [renameCollectionForApplyOps] refuses an entry for its form
    before it looks at any collection, in this order: a first element that
    is not a string, then a [to] field that is not a string, make
    [uassert] throw [TypeMismatch]; a [dropTarget] of binary type that is
    not a UUID makes [uassertStatusOK] throw; a target namespace that users
    may not write gives the status of that check; a target in the oplog on
    a node without replication gives [IllegalOperation].  The state is left
    as it was, and neither [dbName] nor [uuidToRename] matters. *)
Theorem renameCollectionForApplyOps_form_rules
  s dbName uuidToRename cmd renameOpTime r :
  FormRule s cmd renameOpTime r ->
  renameCollectionForApplyOps dbName uuidToRename cmd renameOpTime s = (r, s).
Proof.
  intros H. unfold renameCollectionForApplyOps.
  destruct H as [H0 H1|H0 H1 H2|H0 H1 H2 H3|c H0 H1 H2 H3 H4|H0 H1 H2 H3 H4 H5 H6];
    msimpl; rewrite H0, H1; msimpl; try reflexivity;
    rewrite H2; msimpl; try reflexivity.
  - rewrite H3. reflexivity.
  - destruct (getField cmd "dropTarget") as [| | | | |[u|]|]; simpl;
      try (rewrite H4; reflexivity).
    congruence.
  - destruct (getField cmd "dropTarget") as [| | | | |[u|]|]; simpl;
      try (rewrite H4, H5, H6; reflexivity).
    congruence.
Qed.

Lemma renameCollectionForApplyOps_form_rules_witness :
  renameCollectionForApplyOps "db1" None
    [("renameCollection", BString "db1.x"); ("to", BString "db1.y");
     ("dropTarget", BBinData None)]
    (mkOpTime 5 1) Fixture.secondary
  = (Throw (DBException InvalidUUID), Fixture.secondary).
Proof.
  apply renameCollectionForApplyOps_form_rules.
  apply UnreadableUUID; reflexivity.
Defined.

(** X14.  The rename of an oplog entry goes by UUID: when [uuidToRename]
    resolves to a live collection, the namespace written in the first
    element of the command is not used, and two entries that differ only
    there have the same outcome and the same effect. *)
Theorem renameCollectionForApplyOps_source_by_uuid
  s dbName u nss rest text1 text2 renameOpTime :
  lookupNSSByUUID u s = Some nss ->
  renameCollectionForApplyOps dbName (Some u)
    (("renameCollection", BString text1) :: rest) renameOpTime s
  = renameCollectionForApplyOps dbName (Some u)
      (("renameCollection", BString text2) :: rest) renameOpTime s.
Proof.
  intros Hu. unfold renameCollectionForApplyOps.
  assert (Hf : forall name e, name <> "renameCollection" ->
                 getField (("renameCollection", e) :: rest) name = getField rest name).
  { intros name e Hne. simpl. rewrite bool_decide_eq_false_2 by congruence.
    reflexivity. }
  rewrite !(Hf "to"), !(Hf "dropTarget"), !(Hf "stayTemp") by discriminate.
  unfold bind, get. cbn [firstElement isString]. rewrite Hu. reflexivity.
Qed.

Lemma renameCollectionForApplyOps_source_by_uuid_witness :
  renameCollectionForApplyOps "db1" (Some 1%N)
    [("renameCollection", BString "db1.old"); ("to", BString "db1.z")]
    (mkOpTime 5 1) Fixture.secondary
  = renameCollectionForApplyOps "db1" (Some 1%N)
      [("renameCollection", BString "db1.x"); ("to", BString "db1.z")]
      (mkOpTime 5 1) Fixture.secondary.
Proof.
  apply (renameCollectionForApplyOps_source_by_uuid Fixture.secondary "db1" 1%N
           Fixture.nssX).
  reflexivity.
Defined.

(** ** The command entry points *)

(** X15.  [validateAndRunRenameCollection] returns only when the request is
    valid (both namespaces valid, no oplog involved while the node
    replicates, both or neither in the oplog, both writable by users, the
    source not the server configuration collection) and [renameCollection]
    has returned OK, and its effect is then that of [renameCollection]; an
    error status of [renameCollection] comes out as an exception with the
    same code.  A request that is not valid makes it throw
    [InvalidNamespace] or [IllegalOperation] before anything is touched. *)
Theorem validateAndRunRenameCollection_outcomes
  isValid s source target dropTarget stayTemp :
  let run := validateAndRunRenameCollection isValid source target dropTarget stayTemp s in
  let rename := renameCollection source target (mkRenameOptions dropTarget stayTemp) s in
  (validRequest isValid source target s = false ->
   snd run = s
   /\ (fst run = Throw (DBException InvalidNamespace)
       \/ fst run = Throw (DBException IllegalOperation)))
  /\ (validRequest isValid source target s = true ->
      snd run = snd rename
      /\ match fst rename with
         | Ret OK => fst run = Ret tt
         | Ret (Error c) => fst run = Throw (DBException c)
         | Throw e => fst run = Throw e
         | Fatal c => fst run = Fatal c
         | Timeout => fst run = Timeout
         end)
  /\ (fst run = Ret tt ->
      validRequest isValid source target s = true /\ rename = (Ret OK, snd run)).
Proof.
  cbv zeta.
  assert (Hbad : validRequest isValid source target s = false ->
                 snd (validateAndRunRenameCollection isValid source target dropTarget
                        stayTemp s) = s
                 /\ (fst (validateAndRunRenameCollection isValid source target
                            dropTarget stayTemp s)
                     = Throw (DBException InvalidNamespace)
                     \/ fst (validateAndRunRenameCollection isValid source target
                               dropTarget stayTemp s)
                        = Throw (DBException IllegalOperation))).
  { unfold validRequest, validateAndRunRenameCollection. msimpl.
    destruct (isValid source); simpl; [|auto].
    destruct (isValid target); simpl; [|auto].
    destruct (bool_decide (getReplicationMode (env s) = modeNone)); simpl.
    - destruct (eqb (isOplog source) (isOplog target)); simpl; [|auto].
      destruct (userAllowedWriteNS (env s) source); simpl; [|auto].
      destruct (userAllowedWriteNS (env s) target); simpl; [|auto].
      destruct (isServerConfigurationCollection source); simpl; [auto|discriminate].
    - destruct (isOplog source); simpl; [auto|].
      destruct (isOplog target); simpl; [auto|].
      destruct (userAllowedWriteNS (env s) source); simpl; [|auto].
      destruct (userAllowedWriteNS (env s) target); simpl; [|auto].
      destruct (isServerConfigurationCollection source); simpl; [auto|discriminate]. }
  assert (Hgood : validRequest isValid source target s = true ->
                  validateAndRunRenameCollection isValid source target dropTarget
                    stayTemp s
                  = (let* status := renameCollection source target
                                      (mkRenameOptions dropTarget stayTemp) in
                     uassertStatusOK status) s).
  { unfold validRequest, validateAndRunRenameCollection.
    unfold bind at 1, uassert at 1.
    destruct (isValid source); simpl; [|discriminate].
    unfold bind at 1, uassert at 1.
    destruct (isValid target); simpl; [|discriminate].
    unfold bind at 1, get at 1. cbv beta iota.
    destruct (bool_decide (getReplicationMode (env s) = modeNone)); simpl;
      destruct (isOplog source); simpl; try discriminate;
      destruct (isOplog target); simpl; try discriminate;
      destruct (userAllowedWriteNS (env s) source); simpl; try discriminate;
      destruct (userAllowedWriteNS (env s) target); simpl; try discriminate;
      destruct (isServerConfigurationCollection source); simpl; try discriminate;
      reflexivity. }
  split; [exact Hbad|]. split.
  - intros Hv. rewrite (Hgood Hv). unfold bind.
    destruct (renameCollection source target (mkRenameOptions dropTarget stayTemp) s)
      as [[[|c]|e|c|] s1]; simpl; auto.
  - intros Hret.
    destruct (validRequest isValid source target s) eqn:Hv.
    + split; [reflexivity|]. rewrite (Hgood eq_refl) in *. unfold bind in *.
      destruct (renameCollection source target (mkRenameOptions dropTarget stayTemp) s)
        as [[[|c]|e|c|] s1]; simpl in *; try discriminate. reflexivity.
    + destruct (Hbad eq_refl) as [_ [H|H]]; rewrite H in Hret; discriminate.
Qed.

Lemma validateAndRunRenameCollection_outcomes_witness :
  validRequest (fun _ => true) Fixture.nssX Fixture.nssZ Fixture.primary = true
  /\ renameCollection Fixture.nssX Fixture.nssZ (mkRenameOptions false false)
       Fixture.primary
     = (Ret OK,
        snd (validateAndRunRenameCollection (fun _ => true) Fixture.nssX Fixture.nssZ
               false false Fixture.primary)).
Proof.
  apply (validateAndRunRenameCollection_outcomes (fun _ => true) Fixture.primary
           Fixture.nssX Fixture.nssZ false false).
  vm_compute. reflexivity.
Defined.

Lemma std_equal_eq l1 l2 :
  bool_decide (length l1 = length l2) && std_equal l1 l2 = true <-> l1 = l2.
Proof.
  split.
  - intros H. apply andb_true_iff in H as [Hlen Heq].
    apply bool_decide_eq_true_1 in Hlen.
    revert l2 Hlen Heq. induction l1 as [|x l1 IH]; intros [|y l2] Hlen Heq;
      simpl in *; try discriminate; [reflexivity|].
    apply andb_true_iff in Heq as [Hxy Hr].
    apply bool_decide_eq_true_1 in Hxy. subst y. f_equal. apply IH; congruence.
  - intros <-. rewrite bool_decide_eq_true_2 by reflexivity. simpl.
    induction l1 as [|x l1 IH]; simpl; [reflexivity|].
    rewrite bool_decide_eq_true_2 by reflexivity. exact IH.
Qed.

Lemma removeField_toBSON_uuid o :
  removeField (CollectionOptions_toBSON o) "uuid"
  = (if opt_temp o then [("temp", BBool true)] else [])
    ++ removeField (opt_rest o) "uuid".
Proof.
  unfold removeField, CollectionOptions_toBSON.
  rewrite !List.filter_app. destruct (opt_uuid o), (opt_temp o); reflexivity.
Qed.

(** X16.  [doLocalRenameIfOptionsAndIndexesHaveNotChanged] goes on to the
    validating entry point, under the exclusive lock of the target's
    database, exactly when the options of the collection under the target
    name, the UUID left out on both sides, and its index descriptors are
    the ones the caller recorded (no options and no index when no
    collection is there); otherwise it throws [CommandFailed] having only
    taken the lock.  The UUID of the target plays no part: a target that was
    dropped and created again with the same options and indexes passes. *)
Theorem doLocalRename_unchanged_check
  isValid s sourceNs targetNs dropTarget stayTemp originalIndexes
  originalCollectionOptions :
  let run := doLocalRenameIfOptionsAndIndexesHaveNotChanged isValid sourceNs targetNs
               dropTarget stayTemp originalIndexes originalCollectionOptions s in
  let unchanged :=
    removeField originalCollectionOptions "uuid" = comparedOptions targetNs s
    /\ originalIndexes = listIndexesEmptyListIfMissing targetNs s in
  (unchanged ->
   run = lockScope (let* _ := DBLock (db targetNs) MODE_X in
                    validateAndRunRenameCollection isValid sourceNs targetNs
                                                   dropTarget stayTemp) s)
  /\ (~ unchanged ->
      run = (Throw (DBException CommandFailed),
             set_events (events s ++ [EvLockDB (db targetNs) MODE_X]) s)).
Proof.
  cbv zeta.
  assert (Hrun :
    doLocalRenameIfOptionsAndIndexesHaveNotChanged isValid sourceNs targetNs
      dropTarget stayTemp originalIndexes originalCollectionOptions s
    = if bool_decide (removeField originalCollectionOptions "uuid"
                      = comparedOptions targetNs s)
         && (bool_decide (length originalIndexes
                          = length (listIndexesEmptyListIfMissing targetNs s))
             && std_equal originalIndexes (listIndexesEmptyListIfMissing targetNs s))
      then lockScope (let* _ := DBLock (db targetNs) MODE_X in
                      validateAndRunRenameCollection isValid sourceNs targetNs
                                                     dropTarget stayTemp) s
      else (Throw (DBException CommandFailed),
            set_events (events s ++ [EvLockDB (db targetNs) MODE_X]) s)).
  { unfold doLocalRenameIfOptionsAndIndexesHaveNotChanged, lockScope, scoped, DBLock.
    unfold bind at 1. unfold bind at 1. unfold emit, modify. cbv beta iota.
    unfold bind at 1, get at 1. cbv beta iota.
    unfold bind at 2. unfold bind at 2. cbv beta iota.
    set (s1 := set_lockState _ _).
    assert (Hopts : match
                      match getDb (db targetNs) s1 with
                      | Some _ => lookupCollectionByNamespace targetNs s1
                      | None => None
                      end
                    with
                    | Some c =>
                        removeField (CollectionOptions_toBSON (collOptions c)) "uuid"
                    | None => []
                    end = comparedOptions targetNs s).
    { unfold comparedOptions.
      change (getDb (db targetNs) s1) with (getDb (db targetNs) s).
      change (lookupCollectionByNamespace targetNs s1)
        with (lookupCollectionByNamespace targetNs s).
      destruct (getDb (db targetNs) s); [|reflexivity].
      destruct (lookupCollectionByNamespace targetNs s); [|reflexivity].
      apply removeField_toBSON_uuid. }
    rewrite Hopts.
    change (listIndexesEmptyListIfMissing targetNs s1)
      with (listIndexesEmptyListIfMissing targetNs s).
    destruct (bool_decide (removeField originalCollectionOptions "uuid"
                           = comparedOptions targetNs s)); [|reflexivity].
    unfold bind at 1, uassert at 1, ret at 1. cbv beta iota.
    destruct (bool_decide (length originalIndexes
                           = length (listIndexesEmptyListIfMissing targetNs s))
              && std_equal originalIndexes (listIndexesEmptyListIfMissing targetNs s));
      reflexivity. }
  rewrite Hrun. split.
  - intros [Ho Hi]. rewrite (bool_decide_eq_true_2 _ Ho).
    rewrite (proj2 (std_equal_eq _ _) Hi). reflexivity.
  - intros Hn.
    destruct (bool_decide (removeField originalCollectionOptions "uuid"
                           = comparedOptions targetNs s)) eqn:Ho; [|reflexivity].
    apply bool_decide_eq_true_1 in Ho.
    destruct (bool_decide (length originalIndexes
                           = length (listIndexesEmptyListIfMissing targetNs s))
              && std_equal originalIndexes (listIndexesEmptyListIfMissing targetNs s))
      eqn:Hi; [|reflexivity].
    exfalso. apply Hn. split; [exact Ho|]. apply std_equal_eq. exact Hi.
Qed.

Lemma doLocalRename_unchanged_check_witness :
  doLocalRenameIfOptionsAndIndexesHaveNotChanged (fun _ => true) Fixture.nssX
    Fixture.nssY true false [[("name", BString "_id_")]; [("name", BString "a_1")]]
    [("uuid", BBinData (Some 2%N))] Fixture.primary
  = (Throw (DBException CommandFailed),
     set_events [EvLockDB "db1" MODE_X] Fixture.primary).
Proof.
  apply (doLocalRename_unchanged_check (fun _ => true) Fixture.primary Fixture.nssX
           Fixture.nssY true false).
  intros [_ H]. discriminate H.
Defined.

(** ** The cross-database rename: what a failure leaves *)

Section SourceStays.
Context (source : NamespaceString) (u : UUID).

Lemma stays_content f l : contentOnly f -> (stagedAs source u) l -> (stagedAs source u) (map f l).
Proof. apply stagedAs_content. Qed.

Lemma stays_Database_createCollection n o :
  n <> source -> keeps (stagedAs source u) (Database_createCollection n o).
Proof.
  intros Hn s Hs. unfold Database_createCollection. msimpl.
  destruct (bool_decide (findByNs n (catalog s) = None)); simpl; [|exact Hs].
  unfold stagedAs in *. simpl. rewrite bool_decide_eq_false_2 by exact Hn. exact Hs.
Qed.

Lemma stays_Database_dropCollection n t :
  n <> source -> keeps (stagedAs source u) (Database_dropCollection n t).
Proof.
  intros Hn s Hs. unfold Database_dropCollection. msimpl.
  destruct (dropCollectionResult (env s) n); simpl; [|exact Hs].
  unfold stagedAs in *. rewrite findByNs_drop_other by congruence. exact Hs.
Qed.

Lemma stays_Database_renameCollection a b stay :
  a <> source -> b <> source -> keeps (stagedAs source u) (Database_renameCollection a b stay).
Proof.
  intros Ha Hb s Hs. unfold Database_renameCollection. msimpl.
  destruct (findByNs b (catalog s)); simpl; [exact Hs|].
  destruct (findByNs a (catalog s)); simpl; [|exact Hs].
  unfold stagedAs in *. rewrite findByNs_rebindFirst_other by congruence. exact Hs.
Qed.

Lemma stays_dropCollectionForApplyOps n t :
  n <> source -> keeps (stagedAs source u) (dropCollectionForApplyOps n t).
Proof.
  intros Hn. unfold dropCollectionForApplyOps.
  repeat (keeps_step || (apply stays_Database_dropCollection; exact Hn)).
Qed.

Lemma stays_UnreplicatedWritesBlock {A} (body : M A) :
  keeps (stagedAs source u) body -> keeps (stagedAs source u) (UnreplicatedWritesBlock body).
Proof.
  intros Hb s Hs. unfold UnreplicatedWritesBlock, scoped.
  specialize (Hb (set_writesAreReplicated false s) Hs).
  destruct (body (set_writesAreReplicated false s)) as [[a|e|c|] s1]; simpl in *; auto.
Qed.

Lemma stays_renameCollectionDirectly theDb v a b options :
  a <> source -> b <> source ->
  keeps (stagedAs source u) (renameCollectionDirectly theDb v a b options).
Proof.
  intros Ha Hb. unfold renameCollectionDirectly, onRenameCollection.
  repeat (keeps_step || apply stays_UnreplicatedWritesBlock
          || (apply stays_Database_renameCollection; assumption)).
Qed.

Lemma stays_renameCollectionAndDropTarget theDb v a b tc options t :
  a <> source -> b <> source -> c_ns tc <> source ->
  keeps (stagedAs source u) (renameCollectionAndDropTarget theDb v a b tc options t).
Proof.
  intros Ha Hb Hc.
  unfold renameCollectionAndDropTarget, preRenameCollection, postRenameCollection,
    assertNoBgOpInProgForNs, assertNoIndexBuildInProgForCollection.
  repeat (keeps_step || apply stays_UnreplicatedWritesBlock
          || (apply stays_Database_renameCollection; assumption)
          || (apply stays_Database_dropCollection; assumption)).
Qed.

Lemma stays_renameCollectionWithinDB a b options :
  a <> source -> b <> source -> keeps (stagedAs source u) (renameCollectionWithinDB a b options).
Proof.
  intros Ha Hb. unfold renameCollectionWithinDB.
  apply keeps_bind; [repeat keeps_step|intros _].
  apply keeps_lockScope.
  apply keeps_bind; [keeps_quiet|intros _].
  apply keeps_bind; [unfold checkDbVersion; repeat keeps_step|intros _].
  apply keeps_bind; [keeps_quiet|intros s0].
  apply keeps_bind; [repeat keeps_step|intros _].
  unfold renameWithinDB_locked.
  apply keeps_bind.
  { apply keeps_quiet. intros s1. rewrite check_state. reflexivity. }
  intros st. destruct (negb (isOK st)); [keeps_quiet|].
  intros s1 Hs1. unfold bind at 1, get at 1. cbv beta iota.
  destruct (getDb (db a) s1) as [d|]; [|exact Hs1].
  destruct (lookupCollectionByNamespace a s1) as [sc|]; [|exact Hs1].
  destruct (lookupCollectionByNamespace b s1) as [tc|] eqn:Htc.
  - apply stays_renameCollectionAndDropTarget; auto.
    destruct (findByNs_Some _ _ _ Htc) as [_ ->]. exact Hb.
  - apply stays_renameCollectionDirectly; auto.
Qed.

Lemma stays_guarded (cleanup body : M Status) :
  keeps (stagedAs source u) cleanup -> keeps (stagedAs source u) body -> keeps (stagedAs source u) (guarded cleanup body).
Proof.
  intros Hc Hb s Hs. unfold guarded. specialize (Hb s Hs).
  destruct (body s) as [[[|c]|e|c|] s1]; simpl in *; auto.
Qed.

Lemma stays_stageAndPromote a target tmpName options sourceColl tmpColl here there :
  tmpName <> source -> target <> source ->
  keeps (stagedAs source u) (stageAndPromote a target tmpName options sourceColl tmpColl here there).
Proof.
  intros Htmp Ht. unfold stageAndPromote.
  repeat (keeps_step
          || (apply keeps_createIndexesOnEmptyCollection; apply stays_content)
          || (apply keeps_copyRecords; apply stays_content)
          || (apply keeps_AutoGetCollection_byUUID; apply stays_content)
          || (apply stays_renameCollectionWithinDB; assumption)).
Qed.

End SourceStays.

Lemma unlessOK_bind {A} (J : list Collection -> Prop) (m : M A) (k : A -> M Status) s :
  keeps J m ->
  (forall a s1, m s = (Ret a, s1) -> J (catalog s1) ->
                fst (k a s1) <> Ret OK -> J (catalog (snd (k a s1)))) ->
  J (catalog s) -> fst (bind m k s) <> Ret OK -> J (catalog (snd (bind m k s))).
Proof.
  intros Hm Hk Hs. unfold bind. specialize (Hm s Hs).
  destruct (m s) as [[a|e|c|] s1] eqn:Em; simpl in *; auto.
Qed.

Lemma unlessOK_lockScope (J : list Collection -> Prop) (body : M Status) s :
  (J (catalog s) -> fst (body s) <> Ret OK -> J (catalog (snd (body s)))) ->
  J (catalog s) ->
  fst (lockScope body s) <> Ret OK -> J (catalog (snd (lockScope body s))).
Proof.
  unfold lockScope, scoped. destruct (body s) as [[a|e|c|] s1]; simpl; auto.
Qed.

Lemma unlessOK_keeps (J : list Collection -> Prop) (m : M Status) s :
  keeps J m -> J (catalog s) -> fst (m s) <> Ret OK -> J (catalog (snd (m s))).
Proof. intros Hm Hs _. apply Hm. exact Hs. Qed.

Lemma dropCollectionForApplyOps_unlessOK n t s :
  fst (dropCollectionForApplyOps n t s) <> Ret OK ->
  catalog (snd (dropCollectionForApplyOps n t s)) = catalog s.
Proof.
  unfold dropCollectionForApplyOps, WriteUnitOfWork, scoped, Database_dropCollection,
    commit.
  msimpl. case_all; intros H; try reflexivity. exfalso. apply H. reflexivity.
Qed.

Lemma getDb_name d s x : getDb d s = Some x -> db_name x = d.
Proof.
  unfold getDb. intros H. apply find_some in H. destruct H as [_ Hb].
  apply bool_decide_eq_true_1 in Hb. exact Hb.
Qed.

Lemma renameBetweenDBs_source_stays s source target options u :
  db source <> db target ->
  stagedAs source u (catalog s) ->
  fst (renameBetweenDBs source target options s) <> Ret OK ->
  stagedAs source u (catalog (snd (renameBetweenDBs source target options s))).
Proof.
  intros Hdb.
  assert (Hts : target <> source) by congruence.
  pose proof (stays_content source u) as HJc.
  unfold renameBetweenDBs.
  apply (unlessOK_bind (stagedAs source u)); [repeat keeps_step|].
  intros [] s1 _. apply (unlessOK_lockScope (stagedAs source u)).
  apply (unlessOK_bind (stagedAs source u)); [keeps_quiet|]. intros s1' s2 Eg. injection Eg as <- <-.
  apply (unlessOK_bind (stagedAs source u)); [repeat keeps_step|]. intros [] s3 _.
  apply (unlessOK_bind (stagedAs source u)); [keeps_quiet|]. intros s3' s4 Eg. injection Eg as <- <-.
  apply (unlessOK_bind (stagedAs source u)); [repeat keeps_step|]. intros [] s5 _.
  apply (unlessOK_bind (stagedAs source u)); [unfold checkDbVersion; repeat keeps_step|]. intros [] s6 _.
  apply (unlessOK_bind (stagedAs source u)); [keeps_quiet|]. intros s6' s7 Eg. injection Eg as <- <-.
  destruct (getDb (db source) s6) as [sourceDB|]; [|intros H _; exact H].
  destruct (lookupCollectionByNamespace source s6) as [sourceColl|];
    [|destruct (viewLookup sourceDB (ns source)); intros H _; exact H].
  destruct (negb _ && _); [intros H _; exact H|].
  destruct (isReplicatedChanged source target s6); [intros H _; exact H|].
  apply (unlessOK_bind (stagedAs source u)); [unfold assertNoBgOpInProgForNs; repeat keeps_step|].
  intros [] s7 _.
  apply (unlessOK_bind (stagedAs source u));
    [unfold assertNoIndexBuildInProgForCollection; repeat keeps_step|].
  intros [] s8 _. cbv zeta.
  apply (unlessOK_bind (stagedAs source u)); [repeat keeps_step|].
  intros [st|[]] s9 _; [intros H _; exact H|].
  apply (unlessOK_bind (stagedAs source u)).
  { destruct (getDb (db target) s6); [keeps_quiet|].
    apply keeps_quiet. intros t. unfold openDb. destruct (getDb (db target) t); reflexivity. }
  intros targetDB s10 Edb.
  assert (Hname : db_name targetDB = db target).
  { destruct (getDb (db target) s6) as [tdb|] eqn:Ht.
    - injection Edb as <- _. eapply getDb_name; eauto.
    - unfold openDb in Edb. destruct (getDb (db target) s9) as [x|] eqn:Hx.
      + injection Edb as <- _. eapply getDb_name; eauto.
      + injection Edb as <- _. reflexivity. }
  apply (unlessOK_bind (stagedAs source u)); [keeps_quiet|]. intros s10' s11 Eg. injection Eg as <- <-.
  apply (unlessOK_bind (stagedAs source u)); [repeat keeps_step|]. intros [] s12 _.
  apply (unlessOK_bind (stagedAs source u)).
  { apply keeps_quiet. intros t. unfold makeUniqueCollectionNamespace.
    destruct (firstFreeName _ _ _ _) as [[n r]|]; reflexivity. }
  intros [tmpName|c] s13 Etmp; [|intros H _; exact H].
  assert (Htmp : tmpName <> source).
  { unfold makeUniqueCollectionNamespace in Etmp.
    destruct (firstFreeName _ _ _ _) as [[n r]|] eqn:Hfree; [|discriminate].
    injection Etmp as <- _.
    destruct (firstFreeName_free _ _ _ _ _ _ Hfree) as (_ & Hd & _).
    intros ->. congruence. }
  cbv zeta.
  apply (unlessOK_bind (stagedAs source u)); [keeps_quiet|]. intros fresh s14 _.
  apply (unlessOK_bind (stagedAs source u)).
  { repeat (keeps_step || (apply stays_Database_createCollection; exact Htmp)). }
  intros tmpColl s15 _.
  apply (unlessOK_bind (stagedAs source u)).
  { apply stays_guarded.
    - apply keeps_catchDBException. apply stays_dropCollectionForApplyOps. exact Htmp.
    - apply stays_stageAndPromote; assumption. }
  intros [|c] s16 _ Hs16; simpl.
  - intros Hne. rewrite dropCollectionForApplyOps_unlessOK by exact Hne. exact Hs16.
  - intros _. exact Hs16.
Qed.

(** X17.  A cross-database rename that does not return OK has not removed
    the source: whatever stopped it (a check, the creation of the staging
    collection or of its indexes, an insert of the copy, the rename of the
    staging collection onto the target, the drop of the source itself), the
    source name still resolves to a collection with the UUID it had. *)
Theorem renameBetweenDBs_failure_keeps_source s o s' source target options sc :
  db source <> db target ->
  lookupCollectionByNamespace source s = Some sc ->
  renameBetweenDBs source target options s = (o, s') ->
  o <> Ret OK ->
  uuid <$> lookupCollectionByNamespace source s' = Some (uuid sc).
Proof.
  intros Hdb Hsc E Ho.
  pose proof (renameBetweenDBs_source_stays s source target options (uuid sc) Hdb) as H.
  rewrite E in H. apply H; [|exact Ho].
  unfold stagedAs. unfold lookupCollectionByNamespace in Hsc. rewrite Hsc. reflexivity.
Qed.

Lemma renameBetweenDBs_failure_keeps_source_witness :
  let s := set_insertOutcomes [InsertOK; InsertError CommandFailed] Fixture.primary in
  let run := renameBetweenDBs Fixture.nssX Fixture.nssOther (mkRenameOptions false false) s in
  fst run = Ret (Error CommandFailed)
  /\ uuid <$> lookupCollectionByNamespace Fixture.nssX (snd run) = Some 1%N.
Proof.
  intros s run.
  assert (E : renameBetweenDBs Fixture.nssX Fixture.nssOther
                (mkRenameOptions false false) s
              = (Ret (Error CommandFailed), snd run))
    by (vm_compute; reflexivity).
  split; [vm_compute; reflexivity|].
  apply (renameBetweenDBs_failure_keeps_source s (Ret (Error CommandFailed)) (snd run)
           Fixture.nssX Fixture.nssOther (mkRenameOptions false false) Fixture.collX);
    [discriminate | vm_compute; reflexivity | exact E | discriminate].
Defined.

(** ** The cross-database rename: what the copy carries over *)

Section KeepsRecords.
Context (H : list Collection -> Prop).
Context (H_records : forall f l, recordsOnly f -> H l -> H (map f l)).

Lemma recs_storeDocument target doc : keeps H (storeDocument target doc).
Proof.
  intros s Hs. unfold storeDocument. msimpl. apply H_records; [|exact Hs].
  intros c. destruct (bool_decide (addr c = addr target)); simpl; auto 6.
Qed.

Lemma recs_insertDocument target doc : keeps H (insertDocument target doc).
Proof.
  unfold insertDocument.
  repeat (keeps_step || apply recs_storeDocument).
Qed.

Lemma recs_cursor_next : keeps H cursor_next.
Proof.
  apply keeps_quiet. intros s. unfold cursor_next. msimpl.
  destruct (cur_rest (cursor s)); reflexivity.
Qed.

Lemma recs_cursor_seekExact i : keeps H (cursor_seekExact i).
Proof.
  apply keeps_quiet. intros s. unfold cursor_seekExact. msimpl.
  destruct (seekIn i (cur_store (cursor s))) as [[r rest]|]; reflexivity.
Qed.

Lemma recs_shouldFail : keeps H shouldFail_writeConflictInRenameCollCopyToTmp.
Proof.
  apply keeps_quiet. intros s. unfold shouldFail_writeConflictInRenameCollCopyToTmp.
  destruct (writeConflictInRenameCollCopyToTmp s); reflexivity.
Qed.

Lemma recs_insertBatch tmpColl n : keeps H (insertBatch tmpColl n).
Proof.
  induction n as [|n IH]; simpl.
  - keeps_quiet.
  - repeat (keeps_step || apply recs_insertDocument || apply recs_cursor_next
            || exact IH).
Qed.

Lemma recs_copyBatch tmpColl beginBatchId : keeps H (copyBatch tmpColl beginBatchId).
Proof.
  unfold copyBatch.
  repeat (keeps_step || apply recs_insertBatch || apply recs_cursor_seekExact
          || apply recs_shouldFail).
Qed.

Lemma recs_copyLoop fuel tmpColl : keeps H (copyLoop fuel tmpColl).
Proof.
  induction fuel as [|fuel IH]; intros s Hs; simpl.
  - destruct (record s); exact Hs.
  - destruct (record s) as [r|]; [|exact Hs].
    apply (keeps_bind H); [| |exact Hs].
    + repeat keeps_step.
    + intros _. cbv zeta. apply (keeps_bind H).
      * apply keeps_writeConflictRetry, recs_copyBatch.
      * intros a. destruct (negb (isOK a)); [keeps_quiet|exact IH].
Qed.

Lemma recs_copyRecords sourceColl tmpColl : keeps H (copyRecords sourceColl tmpColl).
Proof.
  unfold copyRecords.
  repeat (apply recs_copyLoop || apply recs_cursor_next || keeps_step).
Qed.

End KeepsRecords.

Lemma stagedHead_records tmpColl ix f l :
  recordsOnly f -> stagedHead tmpColl ix l -> stagedHead tmpColl ix (map f l).
Proof.
  intros Hf (c & rest & -> & Ha & Hn & Hu & Ho & Hi).
  destruct (Hf c) as (Ha' & Hn' & Hu' & Ho' & Hi').
  exists (f c), (map f rest). simpl. repeat split; congruence.
Qed.

Lemma copyIntoStaging_ok s s' d sourceColl tmpColl ix :
  stagedHead tmpColl ix (catalog s) ->
  docsOf tmpColl (catalog s) = Some [] ->
  NoDup (map id (records sourceColl)) ->
  everyInsertSucceeds s ->
  0 < internalInsertMaxBatchSize (env s) ->
  interruptPending (env s) = false ->
  lockScope (
    let* autoTmpColl := AutoGetCollection_byUUID d (uuid tmpColl) MODE_IX in
    match autoTmpColl with
    | None => ret (Error NamespaceNotFound)
    | Some tmpColl => copyRecords sourceColl tmpColl
    end) s = (Ret OK, s') ->
  stagedHead tmpColl ix (catalog s')
  /\ docsOf tmpColl (catalog s') = Some (map data (records sourceColl)).
Proof.
  intros HJ HD Hnd Hne Hn Hint.
  pose proof HJ as (c & rest1 & Hc1 & Ha & Hcn & Hu & Ho & Hi).
  unfold lockScope, scoped, AutoGetCollection_byUUID, lookupNSSByUUID, DBLock,
    CollectionLock, lookupCollectionByNamespace.
  msimpl. rewrite Hc1. simpl.
  rewrite (bool_decide_eq_true_2 _ Hu). simpl. rewrite Hc1. simpl.
  rewrite bool_decide_eq_true_2 by reflexivity.
  match goal with
  | |- context [copyRecords sourceColl c ?S] => set (S0 := S)
  end.
  assert (HD0 : docsOf c (catalog S0) = Some []).
  { unfold docsOf in *. rewrite Ha. exact HD. }
  destruct (copyRecords_spec sourceColl c S0 [] Hnd HD0 Hne Hn Hint)
    as (s1 & E & HD1 & _).
  pose proof (recs_copyRecords (stagedHead tmpColl ix) (stagedHead_records tmpColl ix)
                sourceColl c S0 HJ) as HJ1.
  rewrite E in *. simpl in HJ1, HD1.
  intros Hrun. inversion Hrun; subst s'. simpl.
  split; [exact HJ1|]. unfold docsOf in *. rewrite <- Ha. exact HD1.
Qed.

Lemma stageAndPromote_docs s s' source target tmpName options sourceColl tmpColl sl tl rest :
  catalog s = tmpColl :: rest ->
  c_ns tmpColl = tmpName ->
  records tmpColl = [] ->
  indexCatalog tmpColl = [idIndexEntry] ->
  NoDup (map id (records sourceColl)) ->
  everyInsertSucceeds s ->
  0 < internalInsertMaxBatchSize (env s) ->
  interruptPending (env s) = false ->
  stageAndPromote source target tmpName options sourceColl tmpColl sl tl s
  = (Ret OK, s') ->
  exists c',
    lookupCollectionByNamespace target s' = Some c'
    /\ map data (records c') = map data (records sourceColl)
    /\ indexCatalog c'
       = idIndexEntry :: map (fun spec => mkEntry (mkDescriptor false spec) true)
                             (indexesToCopyOf sourceColl)
    /\ opt_rest (collOptions c') = opt_rest (collOptions tmpColl)
    /\ opt_temp (collOptions c') = opt_temp (collOptions tmpColl) && stayTemp options.
Proof.
  intros Hcat Hns Hrec Hix Hnd Hne Hn Hint Hrun.
  unfold stageAndPromote in Hrun. cbv zeta in Hrun.
  set (ix := idIndexEntry :: map (fun spec => mkEntry (mkDescriptor false spec) true)
                                 (indexesToCopyOf sourceColl)).
  apply bind_Ret_inv in Hrun. destruct Hrun as (st1 & s1 & Hidx & Hrun).
  destruct st1 as [|e1]; cbn [negb isOK] in Hrun; [|discriminate Hrun].
  assert (H1 : stagedHead tmpColl ix (catalog s1)
               /\ docsOf tmpColl (catalog s1) = Some []
               /\ insertOutcomes s1 = insertOutcomes s /\ env s1 = env s).
  { revert Hidx.
    destruct (bool_decide (indexesToCopyOf sourceColl = [])) eqn:Hnil; cbn [negb].
    - apply bool_decide_eq_true_1 in Hnil. intros Hidx. inversion Hidx; subst s1.
      rewrite Hcat. unfold ix. rewrite Hnil. simpl.
      split; [exists tmpColl, rest; auto 8|].
      unfold docsOf. simpl. rewrite bool_decide_eq_true_2 by reflexivity.
      simpl. rewrite Hrec. auto.
    - unfold writeConflictRetry, WriteUnitOfWork, scoped, catchDBException,
        createIndexesOnEmptyCollection, commit.
      msimpl. case_all; intros Hidx; try discriminate Hidx; inversion Hidx; subst; simpl.
      all: rewrite Hcat; simpl; rewrite bool_decide_eq_true_2 by reflexivity.
      all: split; [eexists _, _; split; [reflexivity|]; simpl; rewrite Hix; auto 8|].
      all: unfold docsOf; simpl; rewrite bool_decide_eq_true_2 by reflexivity.
      all: simpl; rewrite Hrec; auto. }
  destruct H1 as (HJ1 & HD1 & Hout1 & Henv1).
  apply bind_Ret_inv in Hrun. destruct Hrun as (x2 & s2 & Hun & Hrun).
  assert (H2 : catalog s2 = catalog s1 /\ insertOutcomes s2 = insertOutcomes s1
               /\ env s2 = env s1).
  { destruct tl; inversion Hun; subst s2; auto. }
  destruct H2 as (Hcat2 & Hout2 & Henv2). clear Hun.
  apply bind_Ret_inv in Hrun. destruct Hrun as (st3 & s3 & Hcopy & Hrun).
  destruct st3 as [|e3]; cbn [negb isOK] in Hrun; [|discriminate Hrun].
  apply (copyIntoStaging_ok _ _ _ _ _ ix) in Hcopy;
    [| rewrite Hcat2; assumption | rewrite Hcat2; assumption | assumption
     | unfold everyInsertSucceeds; rewrite Hout2, Hout1; exact Hne
     | rewrite Henv2, Henv1; exact Hn | rewrite Henv2, Henv1; exact Hint].
  destruct Hcopy as (HJ3 & HD3).
  apply bind_Ret_inv in Hrun. destruct Hrun as (x4 & s4 & Hun4 & Hrun).
  assert (Hcat4 : catalog s4 = catalog s3).
  { destruct sl; inversion Hun4; subst s4; reflexivity. }
  apply bind_Ret_inv in Hrun. destruct Hrun as (x5 & s5 & Hinv & Hrun).
  assert (Hcat5 : catalog s5 = catalog s4).
  { unfold invariant in Hinv. destruct (bool_decide (db tmpName = db target));
      inversion Hinv; subst s5; reflexivity. }
  apply renameCollectionWithinDB_ok in Hrun.
  destruct Hrun as (sc' & Hsc' & Htgt).
  rewrite <- Hcat4, <- Hcat5 in HJ3, HD3.
  destruct HJ3 as (c & rest5 & Hc5 & Ha & Hcn & Hu & Ho & Hi).
  unfold lookupCollectionByNamespace in Hsc'. rewrite Hc5 in Hsc', HD3.
  simpl in Hsc'. rewrite Hcn, Hns in Hsc'.
  rewrite bool_decide_eq_true_2 in Hsc' by reflexivity. inversion Hsc'; subst sc'.
  unfold docsOf in HD3. simpl in HD3. rewrite (bool_decide_eq_true_2 _ Ha) in HD3.
  simpl in HD3. inversion HD3 as [HD].
  eexists. split; [exact Htgt|]. simpl. rewrite Ho. auto.
Qed.

(** X18. A successful cross-database rename leaves under the target a
    collection that holds the documents of the source, in the order of its
    record store; whose indexes are the [_id] index followed by one ready
    index for each index description of the source that is not its [_id]
    index, in order; whose options are those of the source, and which is
    temporary only when the source was and [stayTemp] is set.  The source's
    record ids are taken distinct, every insert succeeds (the write
    conflicts of the run are those the fail point raises at the end of a
    batch, after which the batch starts again with [seekExact]), the batch
    size is positive and no interrupt is pending. *)
Theorem renameBetweenDBs_copies_collection s s' source target options sc :
  db source <> db target ->
  lookupCollectionByNamespace source s = Some sc ->
  NoDup (map id (records sc)) ->
  everyInsertSucceeds s ->
  0 < internalInsertMaxBatchSize (env s) ->
  interruptPending (env s) = false ->
  renameBetweenDBs source target options s = (Ret OK, s') ->
  exists c',
    lookupCollectionByNamespace target s' = Some c'
    /\ map data (records c') = map data (records sc)
    /\ indexCatalog c'
       = idIndexEntry
         :: map (fun e => mkEntry (mkDescriptor false (infoObj (descriptor e))) true)
                (List.filter (fun e => negb (isIdIndex (descriptor e))) (indexCatalog sc))
    /\ opt_rest (collOptions c') = opt_rest (collOptions sc)
    /\ opt_temp (collOptions c') = opt_temp (collOptions sc) && stayTemp options.
Proof.
  intros Hdb Hsc Hnd Hne Hn Hint.
  assert (Hst : source <> target) by congruence.
  assert (Hne' : target <> source) by congruence.
  unfold lookupCollectionByNamespace in Hsc.
  unfold renameBetweenDBs, lockScope, scoped, DBLock, CollectionLock, openDb,
    makeUniqueCollectionNamespace, UUID_gen, writeConflictRetry, WriteUnitOfWork,
    scoped, Database_createCollection, commit, lookupCollectionByNamespace.
  msimpl. rewrite (bool_decide_eq_false_2 _ Hdb). msimpl.
  rewrite (bool_decide_eq_false_2 _ Hst).
  case_all; intros H; try discriminate H; inversion H; subst; clear H; simpl.
  all: try match goal with
           | Hx : negb (isOK OK) = true |- _ => discriminate Hx
           end.
  all: match goal with
       | Hx : negb (isOK ?a) = false |- _ => destruct a; [|discriminate Hx]
       end.
  all: match goal with
       | Hx : Some ?c = Some _ |- _ => inversion Hx; subst c; clear Hx
       end.
  all: match goal with
       | Hg : guarded _ _ _ = (Ret OK, ?s6),
         Hd : dropCollectionForApplyOps _ _ ?s6 = (Ret OK, ?s7) |- _ =>
           apply guarded_ok in Hg;
           eapply stageAndPromote_docs in Hg;
           [ | simpl; reflexivity | reflexivity | reflexivity | reflexivity
             | exact Hnd | exact Hne | exact Hn | exact Hint ];
           destruct Hg as (c' & Hc' & Hdocs & Hidx & Hrest & Htemp);
           apply dropCollectionForApplyOps_ok in Hd;
           unfold lookupCollectionByNamespace in *; rewrite Hd;
           exists c'; split; [rewrite (findByNs_drop_other _ _ _ Hne'); exact Hc'|];
           split; [exact Hdocs|];
           split; [rewrite Hidx, indexesToCopyOf_spec, map_map; reflexivity|];
           split; [exact Hrest | exact Htemp]
       end.
Qed.

Lemma renameBetweenDBs_copies_collection_witness :
  exists c',
    lookupCollectionByNamespace Fixture.nssOther
      (snd (renameBetweenDBs Fixture.nssX Fixture.nssOther defaultRenameOptions
              (set_failPoint [true; false; true] Fixture.primary)))
    = Some c'
    /\ map data (records c') = map Fixture.doc [10; 20; 30; 40; 50]
    /\ indexCatalog c' = indexCatalog Fixture.collX.
Proof.
  pose (s := set_failPoint [true; false; true] Fixture.primary).
  pose (s' := snd (renameBetweenDBs Fixture.nssX Fixture.nssOther defaultRenameOptions s)).
  assert (E : renameBetweenDBs Fixture.nssX Fixture.nssOther defaultRenameOptions s
              = (Ret OK, s')) by (vm_compute; reflexivity).
  assert (Hnd : NoDup (map id (records Fixture.collX))).
  { apply (bool_decide_unpack _). vm_compute. exact I. }
  assert (Hne : everyInsertSucceeds s) by constructor.
  destruct (renameBetweenDBs_copies_collection s s' Fixture.nssX Fixture.nssOther
              defaultRenameOptions Fixture.collX ltac:(discriminate) eq_refl Hnd Hne
              ltac:(reflexivity) eq_refl E) as (c' & Hc' & Hdocs & Hidx & _).
  exists c'. split; [exact Hc'|]. split; [exact Hdocs|exact Hidx].
Defined.

(** ** The cleanup of the staging collection *)

Lemma sameEnv_bind {A B} (m : M A) (k : A -> M B) :
  sameEnv m -> (forall a, sameEnv (k a)) -> sameEnv (bind m k).
Proof.
  intros Hm Hk s. unfold bind. specialize (Hm s).
  destruct (m s) as [[a|e|c|] s1]; simpl in *; auto.
  rewrite Hk. exact Hm.
Qed.

Lemma sameEnv_scoped {A} (body : M A) (cleanup : OpCtx -> OpCtx) :
  sameEnv body -> (forall s, env (cleanup s) = env s) ->
  sameEnv (fun s => scoped body cleanup s).
Proof.
  intros Hb Hc s. unfold scoped. specialize (Hb s).
  destruct (body s) as [[a|e|c|] s1]; simpl in *; rewrite ?Hc; auto.
Qed.

Lemma sameEnv_lockScope {A} (body : M A) : sameEnv body -> sameEnv (lockScope body).
Proof.
  intros Hb s. unfold lockScope.
  apply (sameEnv_scoped body (set_lockState (lockState s)) Hb). reflexivity.
Qed.

Lemma sameEnv_WriteUnitOfWork {A} (body : M A) :
  sameEnv body -> sameEnv (WriteUnitOfWork body).
Proof.
  intros Hb s. unfold WriteUnitOfWork, scoped.
  specialize (Hb (set_committed false s)).
  destruct (body (set_committed false s)) as [[a|e|c|] s1]; simpl in *; auto;
    destruct (committed s1); simpl; auto.
Qed.

Lemma sameEnv_writeConflictRetry {A} (f : M A) :
  sameEnv f -> sameEnv (writeConflictRetry f).
Proof.
  intros Hf s. unfold writeConflictRetry. generalize (S (conflictBudget s)).
  intros n. revert s. induction n as [|n IH]; intros s; simpl; [reflexivity|].
  specialize (Hf s).
  destruct (f s) as [[a|[c|]|c|] s1]; simpl in *; auto.
  rewrite IH. exact Hf.
Qed.

Lemma sameEnv_catchDBException (body : M Status) :
  sameEnv body -> sameEnv (catchDBException body).
Proof.
  intros Hb s. unfold catchDBException. specialize (Hb s).
  destruct (body s) as [[a|[c|]|c|] s1]; simpl in *; auto.
Qed.

Lemma sameEnv_ON_BLOCK_EXIT {A} (guard : M unit) (rest : M A) :
  sameEnv guard -> sameEnv rest -> sameEnv (ON_BLOCK_EXIT guard rest).
Proof.
  intros Hg Hr s. unfold ON_BLOCK_EXIT, scoped. specialize (Hr s).
  destruct (rest s) as [[a|e|c|] s1]; simpl in *; rewrite ?Hg; auto.
Qed.

Ltac env_step :=
  match goal with
  | |- sameEnv (bind _ _) => apply sameEnv_bind; [|intros]
  | |- sameEnv (lockScope _) => apply sameEnv_lockScope
  | |- sameEnv (WriteUnitOfWork _) => apply sameEnv_WriteUnitOfWork
  | |- sameEnv (writeConflictRetry _) => apply sameEnv_writeConflictRetry
  | |- sameEnv (catchDBException _) => apply sameEnv_catchDBException
  | |- sameEnv (ON_BLOCK_EXIT _ _) => apply sameEnv_ON_BLOCK_EXIT
  | |- sameEnv (if ?b then _ else _) => destruct b
  | |- sameEnv (match ?x with _ => _ end) => destruct x
  | |- sameEnv (let _ := _ in _) => cbv zeta
  | |- sameEnv (invariant _ _) => unfold invariant
  | |- sameEnv (uassert _ _) => unfold uassert
  | |- sameEnv checkForInterrupt => unfold checkForInterrupt
  | |- sameEnv cursor_next =>
      intros ?s; unfold cursor_next; msimpl;
      destruct (cur_rest (cursor _)); reflexivity
  | |- sameEnv (cursor_seekExact _) =>
      intros ?s; unfold cursor_seekExact; msimpl;
      destruct (seekIn _ _) as [[? ?]|]; reflexivity
  | |- sameEnv shouldFail_writeConflictInRenameCollCopyToTmp =>
      intros ?s; unfold shouldFail_writeConflictInRenameCollCopyToTmp;
      destruct (writeConflictInRenameCollCopyToTmp _); reflexivity
  | |- sameEnv (storeDocument _ _) => intros ?s; reflexivity
  | |- sameEnv (releaseToBson _) =>
      intros ?s; unfold releaseToBson; destruct (recordBuffer _); reflexivity
  | |- sameEnv (makeOwned _) =>
      intros ?s; unfold makeOwned; destruct (recordBuffer _); reflexivity
  | |- sameEnv (insertDocument _ _) => unfold insertDocument
  | |- sameEnv _ => intros ?s; reflexivity
  end.

Lemma sameEnv_insertBatch tmpColl n : sameEnv (insertBatch tmpColl n).
Proof.
  induction n as [|n IH]; simpl.
  - intros s. reflexivity.
  - repeat (exact IH || env_step).
Qed.

Lemma sameEnv_copyBatch tmpColl beginBatchId : sameEnv (copyBatch tmpColl beginBatchId).
Proof.
  unfold copyBatch. repeat (apply sameEnv_insertBatch || env_step).
Qed.

Lemma sameEnv_copyLoop fuel tmpColl : sameEnv (copyLoop fuel tmpColl).
Proof.
  induction fuel as [|fuel IH]; intros s; simpl.
  - destruct (record s); reflexivity.
  - destruct (record s) as [r|]; [|reflexivity].
    apply sameEnv_bind.
    + repeat env_step.
    + intros _. cbv zeta. apply sameEnv_bind.
      * apply sameEnv_writeConflictRetry, sameEnv_copyBatch.
      * intros a. destruct (negb (isOK a)); [intros t; reflexivity|exact IH].
Qed.

Lemma sameEnv_copyRecords sourceColl tmpColl : sameEnv (copyRecords sourceColl tmpColl).
Proof.
  unfold copyRecords. repeat (apply sameEnv_copyLoop || env_step).
Qed.

Lemma sameEnv_createIndexesOnEmptyCollection u specs :
  sameEnv (createIndexesOnEmptyCollection u specs).
Proof.
  intros s. unfold createIndexesOnEmptyCollection. msimpl.
  destruct (createIndexesResult (env s) specs); reflexivity.
Qed.

Lemma sameEnv_AutoGetCollection_byUUID d u m : sameEnv (AutoGetCollection_byUUID d u m).
Proof. unfold AutoGetCollection_byUUID. repeat env_step. Qed.

Lemma sameEnv_renameCollectionWithinDB source target options :
  sameEnv (renameCollectionWithinDB source target options).
Proof.
  intros s.
  unfold renameCollectionWithinDB, renameWithinDB_locked, lockScope, scoped, DBLock,
    CollectionLock, checkSourceAndTargetNamespaces, renameCollectionDirectly,
    renameCollectionAndDropTarget, writeConflictRetry, WriteUnitOfWork,
    UnreplicatedWritesBlock, scoped, preRenameCollection, postRenameCollection,
    onRenameCollection, Database_dropCollection, Database_renameCollection, commit,
    nullDereference.
  msimpl. case_all; reflexivity.
Qed.

Lemma sameEnv_stageAndPromote source target tmpName options sourceColl tmpColl sl tl :
  sameEnv (stageAndPromote source target tmpName options sourceColl tmpColl sl tl).
Proof.
  unfold stageAndPromote.
  repeat (apply sameEnv_createIndexesOnEmptyCollection || apply sameEnv_copyRecords
          || apply sameEnv_AutoGetCollection_byUUID
          || apply sameEnv_renameCollectionWithinDB || env_step).
Qed.

Lemma onlyAtHead_content n f l :
  contentOnly f -> onlyAtHead n l -> onlyAtHead n (map f l).
Proof.
  intros Hf (c & rest & -> & Hn & Hrest).
  exists (f c), (map f rest). simpl. split; [reflexivity|].
  destruct (Hf c) as [Hc _]. split; [congruence|].
  rewrite (findByNs_map_content f _ _ Hf), Hrest. reflexivity.
Qed.

Lemma rebindFirst_absent a b stay l :
  findByNs a l = None -> rebindFirst a b stay l = l.
Proof.
  induction l as [|c l IH]; simpl; [reflexivity|].
  destruct (bool_decide (c_ns c = a)); [discriminate|].
  intros H. rewrite IH by exact H. reflexivity.
Qed.

Lemma findByNs_drop_None n t l :
  findByNs n l = None ->
  findByNs n (List.filter (fun c => negb (bool_decide (c_ns c = t))) l) = None.
Proof.
  induction l as [|c l IH]; simpl; [reflexivity|].
  destruct (bool_decide (c_ns c = n)) eqn:E; [discriminate|]. intros H.
  destruct (bool_decide (c_ns c = t)); simpl; [exact (IH H)|].
  rewrite E. exact (IH H).
Qed.

(** After the staging collection has been renamed onto the target, nothing
    is left under the staging name. *)
Lemma stageAndPromote_ok_gone s s' source target tmpName options sourceColl tmpColl sl tl :
  onlyAtHead tmpName (catalog s) ->
  stageAndPromote source target tmpName options sourceColl tmpColl sl tl s
  = (Ret OK, s') ->
  lookupCollectionByNamespace tmpName s' = None.
Proof.
  intros HJ Hrun. unfold stageAndPromote in Hrun. cbv zeta in Hrun.
  pose proof (onlyAtHead_content tmpName) as HJc.
  apply bind_Ret_inv in Hrun. destruct Hrun as (st1 & s1 & Hidx & Hrun).
  assert (HJ1 : onlyAtHead tmpName (catalog s1)).
  { change s1 with (snd (Ret st1, s1)). rewrite <- Hidx.
    revert HJ. generalize s.
    change (keeps (onlyAtHead tmpName)
              (if negb (bool_decide (indexesToCopyOf sourceColl = []))
               then writeConflictRetry (WriteUnitOfWork (catchDBException (
                      let* _ := createIndexesOnEmptyCollection (uuid tmpColl)
                                  (indexesToCopyOf sourceColl) in
                      let* _ := commit in ret OK)))
               else ret OK)).
    repeat (keeps_step || apply keeps_createIndexesOnEmptyCollection); assumption. }
  destruct st1 as [|e1]; cbn [negb isOK] in Hrun; [|discriminate Hrun].
  apply bind_Ret_inv in Hrun. destruct Hrun as (x2 & s2 & Hun & Hrun).
  assert (HJ2 : onlyAtHead tmpName (catalog s2)).
  { change s2 with (snd (Ret x2, s2)). rewrite <- Hun.
    destruct tl; simpl; exact HJ1. }
  apply bind_Ret_inv in Hrun. destruct Hrun as (st3 & s3 & Hcopy & Hrun).
  assert (HJ3 : onlyAtHead tmpName (catalog s3)).
  { change s3 with (snd (Ret st3, s3)). rewrite <- Hcopy.
    revert HJ2. generalize s2.
    match goal with
    | |- forall s0, _ -> onlyAtHead _ (catalog (snd (?m s0))) =>
        change (keeps (onlyAtHead tmpName) m)
    end.
    repeat (apply keeps_copyRecords || apply keeps_AutoGetCollection_byUUID
            || keeps_step); assumption. }
  destruct st3 as [|e3]; cbn [negb isOK] in Hrun; [|discriminate Hrun].
  apply bind_Ret_inv in Hrun. destruct Hrun as (x4 & s4 & Hun4 & Hrun).
  assert (HJ4 : onlyAtHead tmpName (catalog s4)).
  { change s4 with (snd (Ret x4, s4)). rewrite <- Hun4.
    destruct sl; simpl; exact HJ3. }
  apply bind_Ret_inv in Hrun. destruct Hrun as (x5 & s5 & Hinv & Hrun).
  assert (HJ5 : onlyAtHead tmpName (catalog s5)).
  { change s5 with (snd (Ret x5, s5)). rewrite <- Hinv.
    unfold invariant. destruct (bool_decide (db tmpName = db target)); exact HJ4. }
  apply renameCollectionWithinDB_success_shape in Hrun.
  destruct Hrun as (sc' & first & second & Hsc' & _ & _ & Hshape).
  destruct HJ5 as (c & rest & Hcat & Hn & Hrest).
  unfold lookupCollectionByNamespace in *.
  destruct (decide (tmpName = target)) as [->|Hne].
  - rewrite Hsc' in Hshape. destruct Hshape as (_ & _ & ->).
    rewrite rebindFirst_absent; apply findByNs_drop_same.
  - assert (Hgone : forall l, findByNs tmpName l = None ->
                              findByNs tmpName
                                (rebindFirst tmpName target (stayTemp options) (c :: l))
                              = None).
    { intros l Hl. simpl. rewrite (bool_decide_eq_true_2 _ Hn). simpl.
      rewrite bool_decide_eq_false_2 by congruence. exact Hl. }
    destruct (findByNs target (catalog s5)).
    + destruct Hshape as (_ & _ & ->). rewrite Hcat. simpl.
      rewrite bool_decide_eq_false_2 by congruence. cbn [negb].
      apply Hgone. apply findByNs_drop_None. exact Hrest.
    + destruct Hshape as (_ & ->). rewrite Hcat. apply Hgone. exact Hrest.
Qed.

Lemma cleanup_drops_staging n t s :
  dropCollectionResult (env s) n = OK ->
  lookupCollectionByNamespace n
    (snd (catchDBException (dropCollectionForApplyOps n t) s)) = None.
Proof.
  intros Hdrop.
  unfold catchDBException, dropCollectionForApplyOps, WriteUnitOfWork, scoped,
    Database_dropCollection, commit, lookupCollectionByNamespace.
  msimpl.
  destruct (findByNs n (catalog s)) eqn:Hn; simpl; [|exact Hn].
  rewrite Hdrop. simpl. apply findByNs_drop_same.
Qed.

Lemma guarded_stage_no_staging s o s' source target tmpName options sourceColl tmpColl
  sl tl :
  onlyAtHead tmpName (catalog s) ->
  dropCollectionResult (env s) tmpName = OK ->
  guarded (catchDBException (dropCollectionForApplyOps tmpName nullOpTime))
          (stageAndPromote source target tmpName options sourceColl tmpColl sl tl) s
  = (o, s') ->
  (forall c, o <> Fatal c) -> o <> Timeout ->
  lookupCollectionByNamespace tmpName s' = None.
Proof.
  intros HJ Hdrop Hrun Hnf Hnt. unfold guarded in Hrun.
  pose proof (sameEnv_stageAndPromote source target tmpName options sourceColl tmpColl
                sl tl s) as Henv.
  destruct (stageAndPromote source target tmpName options sourceColl tmpColl sl tl s)
    as [o1 s1] eqn:E.
  simpl in Henv. rewrite <- Henv in Hdrop.
  destruct o1 as [[|c]|e|c|]; inversion Hrun; subst.
  - eapply stageAndPromote_ok_gone; eassumption.
  - apply cleanup_drops_staging. exact Hdrop.
  - apply cleanup_drops_staging. exact Hdrop.
  - exfalso. eapply Hnf. reflexivity.
  - exfalso. apply Hnt. reflexivity.
Qed.

Lemma dropCollectionForApplyOps_absent n m t s :
  lookupCollectionByNamespace n s = None ->
  lookupCollectionByNamespace n (snd (dropCollectionForApplyOps m t s)) = None.
Proof.
  unfold dropCollectionForApplyOps, WriteUnitOfWork, scoped, Database_dropCollection,
    commit, lookupCollectionByNamespace.
  msimpl. intros Hn. case_all; try exact Hn.
  all: apply findByNs_drop_None; exact Hn.
Qed.

(** X19.  A cross-database rename never leaves its staging collection
    behind.  Let [tmpName] be the name the generator would give the staging
    collection, and let the database layer accept a drop of it.  Then,
    whenever [renameBetweenDBs] returns a status or throws (that is, unless
    an invariant of the code aborts the process or the write conflicts never
    end), no collection is left under [tmpName]: on success it has become
    the target, and on every failure the cleanup guard has dropped it. *)
Theorem renameBetweenDBs_leaves_no_staging s o s' source target options tmpName rest :
  db source <> db target ->
  firstFreeName (db target) "tmp%%%%%.renameCollection" (nameTokens s) (catalog s)
  = Some (tmpName, rest) ->
  dropCollectionResult (env s) tmpName = OK ->
  renameBetweenDBs source target options s = (o, s') ->
  (forall c, o <> Fatal c) -> o <> Timeout ->
  lookupCollectionByNamespace tmpName s' = None.
Proof.
  intros Hdb Hfree Hdrop Hrun Hnf Hnt.
  destruct (firstFreeName_free _ _ _ _ _ _ Hfree) as (Habsent & _ & _).
  revert Hrun.
  unfold renameBetweenDBs, lockScope, scoped, DBLock, CollectionLock, openDb,
    makeUniqueCollectionNamespace, UUID_gen, writeConflictRetry, WriteUnitOfWork,
    scoped, Database_createCollection, commit, lookupCollectionByNamespace.
  msimpl. rewrite (bool_decide_eq_false_2 _ Hdb). msimpl.
  case_all; intros H; inversion H; subst; clear H; simpl.
  all: try exact Habsent.
  all: try (exfalso; eapply Hnf; reflexivity).
  all: try (exfalso; apply Hnt; reflexivity).
  all: try match goal with
           | Hd : find _ _ = Some ?d, Hf : firstFreeName (db_name ?d) _ _ _ = _ |- _ =>
               let Hb := fresh in
               destruct (find_some _ _ Hd) as [_ Hb];
               apply bool_decide_eq_true_1 in Hb; rewrite Hb in Hf
           end.
  all: try discriminate.
  all: try match goal with
           | Hf : firstFreeName _ _ _ _ = _ |- _ => rewrite Hfree in Hf
           end.
  all: try discriminate.
  all: match goal with
       | Hf : Some (?n, ?l) = Some _ |- _ => inversion Hf; subst n l; clear Hf
       end.
  all: match goal with
       | Hg : guarded _ _ _ = _ |- _ =>
           apply guarded_stage_no_staging in Hg;
           [ | eexists _, _; split; [reflexivity|]; split; [reflexivity|exact Habsent]
             | exact Hdrop | intros ?; discriminate | discriminate ]
       end.
  all: try assumption.
  all: try match goal with
       | Hd : dropCollectionForApplyOps ?m ?t ?s1 = (?x, ?s2) |- _ =>
           change s2 with (snd (x, s2)); rewrite <- Hd;
           apply dropCollectionForApplyOps_absent; assumption
       end.
Qed.

Lemma renameBetweenDBs_leaves_no_staging_witness :
  let s := set_insertOutcomes [InsertOK; InsertError CommandFailed] Fixture.primary in
  let run := renameBetweenDBs Fixture.nssX Fixture.nssOther defaultRenameOptions s in
  fst run = Ret (Error CommandFailed)
  /\ In (EvCreateCollection (mkNss "db2" "tmpaaaaa.renameCollection") 1000%N)
        (events (snd run))
  /\ lookupCollectionByNamespace (mkNss "db2" "tmpaaaaa.renameCollection") (snd run)
     = None.
Proof.
  intros s run.
  assert (E : renameBetweenDBs Fixture.nssX Fixture.nssOther defaultRenameOptions s
              = (Ret (Error CommandFailed), snd run))
    by (vm_compute; reflexivity).
  split; [vm_compute; reflexivity|].
  split; [vm_compute; tauto|].
  apply (renameBetweenDBs_leaves_no_staging s (Ret (Error CommandFailed)) (snd run)
           Fixture.nssX Fixture.nssOther defaultRenameOptions
           (mkNss "db2" "tmpaaaaa.renameCollection") ["bbbbb"]);
    [discriminate | vm_compute; reflexivity | vm_compute; reflexivity | exact E
    | discriminate | discriminate].
Defined.
